(** * Ark escrow demo: the escrow script factory and the co-signing coordinator

    A shallow embedding of [src/escrow.ts] (namespace [VEscrow]) and of the
    [ContractManager] class of [src/app.ts], with the data model of
    [src/types.ts], followed by the properties of the specification that
    concern them. The arrays of [src/localstorage-communication.ts] and the
    [UserManager] class of [src/user-manager.ts] are embedded too, with
    further properties of the code at the end.

    Conventions of the embedding.
    - A [Uint8Array] (and the [number[]] form of a PSBT) is a [list byte].
    - A JavaScript exception is the [Throw] constructor of [Result]; the
      message of the [Error] object is kept because the callers print it.
    - [await] is sequencing: every operation of the coordinator runs to its
      end before the next one starts (section 5 of the specification).
    - The functions of [@arkade-os/sdk] and [@scure/btc-signer] that the
      code calls are fields of the records [SDK] (pure library functions)
      and [Env] (the outcome of the interactions with the wallet, the
      indexer and the Ark server during one operation).
    - The [contract] argument of a method is the object that the map
      [contracts] holds under its address, as in the calls made by
      [ArkEscrowApp]; a mutation of the argument is a mutation of the map.
    - The transport is outside: what the class publishes is not recorded,
      and the events by which the transport replaces the whole map
      ([updateContractsFromProvider]) are not operations of a run; that
      method is embedded on its own. *)

From Stdlib Require Import ZArith Lia Ascii String List.
From Stdlib.Strings Require Import Byte.
From stdpp Require Import base decidable option list strings gmap pretty.

Open Scope string_scope.
Open Scope list_scope.
Open Scope Z_scope.

(** ** Exceptions *)

Inductive Result (E A : Type) : Type :=
| Ok (a : A)
| Throw (e : E).
Arguments Ok {E A} a.
Arguments Throw {E A} e.

Definition rbind {E A B} (r : Result E A) (k : A -> Result E B) : Result E B :=
  match r with
  | Ok a => k a
  | Throw e => Throw e
  end.

Notation "'do' x <- r ; k" := (rbind r (fun x => k))
  (at level 10, x name, r at level 100, k at level 200).
Notation "'do' ' p <- r ; k" := (rbind r (fun x => match x with p => k end))
  (at level 10, p pattern, r at level 100, k at level 200).

(** [Promise.all(xs.map(f))]: every element must succeed. *)
Fixpoint mapR {E A B} (f : A -> Result E B) (xs : list A) : Result E (list B) :=
  match xs with
  | [] => Ok []
  | x :: rest => do y <- f x; do ys <- mapR f rest; Ok (y :: ys)
  end.

Definition Bytes := list byte.

(** ** [hex] of [@scure/base]

    [encode] writes two lower-case digits per byte; [decode] reads digits of
    either case and refuses a string of odd length or with another
    character. *)
Module hex.

Definition digit (n : N) : ascii :=
  if (n <? 10)%N then ascii_of_N (48 + n) else ascii_of_N (87 + n).

Definition encode_byte (b : byte) (rest : string) : string :=
  String (digit (to_N b / 16)) (String (digit (to_N b mod 16)) rest).

Fixpoint encode (bs : Bytes) : string :=
  match bs with
  | [] => EmptyString
  | b :: rest => encode_byte b (encode rest)
  end.

Definition value (c : ascii) : option N :=
  let n := N_of_ascii c in
  if ((48 <=? n) && (n <=? 57))%N then Some (n - 48)%N
  else if ((97 <=? n) && (n <=? 102))%N then Some (n - 87)%N
  else if ((65 <=? n) && (n <=? 70))%N then Some (n - 55)%N
  else None.

Fixpoint decode (s : string) : option Bytes :=
  match s with
  | EmptyString => Some []
  | String hi (String lo rest) =>
      match value hi, value lo, decode rest with
      | Some h, Some l, Some bs =>
          match of_N (16 * h + l) with
          | Some b => Some (b :: bs)
          | None => None
          end
      | _, _, _ => None
      end
  | String _ EmptyString => None
  end.

End hex.

(** ** [src/escrow.ts]: namespace [VEscrow] *)
Module VEscrow.

(** [RelativeTimelock] of the SDK: [{ type: "blocks" | "seconds", value }]. *)
Inductive TimelockType := blocks | seconds.

Record RelativeTimelock := {
  tl_type : TimelockType;
  tl_value : Z;
}.

Record Options := {
  buyer : Bytes;
  seller : Bytes;
  arbitrator : Bytes;
  server : Bytes;
  unilateralDelay : RelativeTimelock;
}.

(** The two errors of [validateOptions] and the one of [findLeaf]. *)
Inductive Error :=
| InvalidKeyLength (name : string) (got : nat)
| DuplicateKey
| LeafNotFound (script : string).

Definition message (e : Error) : string :=
  match e with
  | InvalidKeyLength name got =>
      "Invalid " +:+ name +:+ " public key length: expected 32, got " +:+ pretty got
  | DuplicateKey => "All parties must have unique public keys"
  | LeafNotFound script => "leaf '" +:+ script +:+ "' not found"
  end.

(** The loop [for (const { name, key } of keys)] of [validateOptions]. *)
Fixpoint checkKeyLengths (keys : list (string * Bytes)) : Result Error unit :=
  match keys with
  | [] => Ok tt
  | (name, key) :: rest =>
      if decide (length key = 32%nat) then checkKeyLengths rest
      else Throw (InvalidKeyLength name (length key))
  end.

Definition validateOptions (options : Options) : Result Error unit :=
  let keys :=
    [ ("buyer", buyer options); ("seller", seller options);
      ("arbitrator", arbitrator options); ("server", server options) ] in
  do _ <- checkKeyLengths keys;
  let keySet : gset string :=
    list_to_set
      [ hex.encode (buyer options); hex.encode (seller options);
        hex.encode (arbitrator options); hex.encode (server options) ] in
  if decide (size keySet = 4%nat) then Ok tt else Throw DuplicateKey.

(** The library functions the constructor and [VtxoScript] rely on. *)
Record SDK := {
  (** [MultisigTapscript.encode({ pubkeys }).script] *)
  MultisigTapscript_encode : list Bytes -> Bytes;
  (** [CSVMultisigTapscript.encode({ pubkeys, timelock }).script] *)
  CSVMultisigTapscript_encode : list Bytes -> RelativeTimelock -> Bytes;
  (** [VtxoScript]: the taproot output key committing to the leaves *)
  tweakedPublicKey : list Bytes -> Bytes;
  (** [VtxoScript.encode()]: the serialized tap tree *)
  tapTree_encode : list Bytes -> Bytes;
  (** [new ArkAddress(server, vtxoTaprootKey, prefix).encode()] *)
  ArkAddress_encode : string -> Bytes -> Bytes -> string;
}.

(** [class Script extends VtxoScript]: [scripts] is the array handed to
    [super], the six other fields are the hex strings kept by the class. *)
Record Script := {
  options : Options;
  scripts : list Bytes;
  releaseScript : string;
  refundScript : string;
  directScript : string;
  unilateralReleaseScript : string;
  unilateralRefundScript : string;
  unilateralDirectScript : string;
}.

(** A [TapLeafScript] is identified by the script of its leaf. *)
Definition TapLeafScript := Bytes.

(** [ArkAddress]: the output script and the encoded form. *)
Record ArkAddress := {
  pkScript : Bytes;
  encoded : string;
}.

Section WithSDK.
Variable sdk : SDK.

(** [constructor(readonly options: Options)] *)
Definition new_Script (opts : Options) : Result Error Script :=
  do _ <- validateOptions opts;
  let releaseScript :=
    MultisigTapscript_encode sdk [seller opts; arbitrator opts; server opts] in
  let refundScript :=
    MultisigTapscript_encode sdk [buyer opts; arbitrator opts; server opts] in
  let directScript :=
    MultisigTapscript_encode sdk [buyer opts; seller opts; server opts] in
  let unilateralReleaseScript :=
    CSVMultisigTapscript_encode sdk [seller opts; arbitrator opts] (unilateralDelay opts) in
  let unilateralRefundScript :=
    CSVMultisigTapscript_encode sdk [buyer opts; arbitrator opts] (unilateralDelay opts) in
  let unilateralDirectScript :=
    CSVMultisigTapscript_encode sdk [buyer opts; seller opts] (unilateralDelay opts) in
  Ok {| options := opts;
        scripts := [ releaseScript; refundScript; directScript;
                     unilateralReleaseScript; unilateralRefundScript;
                     unilateralDirectScript ];
        releaseScript := hex.encode releaseScript;
        refundScript := hex.encode refundScript;
        directScript := hex.encode directScript;
        unilateralReleaseScript := hex.encode unilateralReleaseScript;
        unilateralRefundScript := hex.encode unilateralRefundScript;
        unilateralDirectScript := hex.encode unilateralDirectScript |}.

(** [VtxoScript.findLeaf(scriptHex)], inherited from the SDK: the leaf whose
    script has this hex form, or an exception when the script is not in the
    tree (section 4.1 of the specification). *)
Definition findLeaf (s : Script) (scriptHex : string) : Result Error TapLeafScript :=
  match List.find (fun leaf => bool_decide (hex.encode leaf = scriptHex)) (scripts s) with
  | Some leaf => Ok leaf
  | None => Throw (LeafNotFound scriptHex)
  end.

Definition release (s : Script) := findLeaf s (releaseScript s).
Definition refund (s : Script) := findLeaf s (refundScript s).
Definition direct (s : Script) := findLeaf s (directScript s).
Definition unilateralRelease (s : Script) := findLeaf s (unilateralReleaseScript s).
Definition unilateralRefund (s : Script) := findLeaf s (unilateralRefundScript s).
Definition unilateralDirect (s : Script) := findLeaf s (unilateralDirectScript s).

(** [VtxoScript.pkScript], inherited from the SDK: [OP_1 <32-byte key>]. *)
Definition Script_pkScript (s : Script) : Bytes :=
  x51 :: x20 :: tweakedPublicKey sdk (scripts s).

(** [VtxoScript.address(prefix, serverPubKey)], inherited from the SDK. *)
Definition address (s : Script) (prefix : string) (serverPubKey : Bytes) : ArkAddress :=
  {| pkScript := Script_pkScript s;
     encoded := ArkAddress_encode sdk prefix serverPubKey (tweakedPublicKey sdk (scripts s)) |}.

End WithSDK.

End VEscrow.

(** ** [src/types.ts] *)

Record User := {
  name : string;
  pubkey : string;
  address : string;
  user_timestamp : Z;
}.

(** The [vtxo] field of a partial transaction. *)
Record VtxoRef := {
  txid : string;
  vout : Z;
  value : Z;
}.

Inductive Status := pending_cosign | approved | rejected.

Record PartialTx := {
  vtxo : VtxoRef;
  arkTx : Bytes;
  checkpoints : list Bytes;
  requiredSigners : list string;
  initiatorSigned : bool;
  approvals : list string;
  rejections : list string;
}.

Record PendingTransaction := {
  action : string;
  initiator : string;
  timestamp : Z;
  status : Status;
  partialTx : option PartialTx;
}.

(** The field [arkAddress] is the key under which the object is stored in
    [ContractManager.contracts]: every [this.contracts.set] of the class
    uses [contract.arkAddress] as the key. *)
Record EscrowContract := {
  buyer : User;
  seller : User;
  arbitrator : User;
  description : string;
  contract_timestamp : Z;
  pendingTransaction : option PendingTransaction;
}.

(** [SingleKey.sign(tx, inputIndexes?)], on the PSBT form of [tx]. *)
Record SingleKey := {
  sign : Bytes -> option (list nat) -> Result string Bytes;
}.

Record WalletInfo := {
  wallet_pubkey : string;
  identity : SingleKey;
}.

Inductive NotificationType := success | error | warning | info.

(** ** [src/app.ts]: class [ContractManager] *)

(** A virtual output as the indexer returns it. *)
Record VirtualCoin := {
  vc_txid : string;
  vc_vout : Z;
  vc_value : Z;
  vc_spentBy : option string;
}.

(** The input and the outputs handed to [buildOffchainTx]. *)
Record TxInput := {
  in_txid : string;
  in_vout : Z;
  in_value : Z;
  in_script : Bytes;
  in_tapTree : Bytes;
  in_tapLeafScript : option VEscrow.TapLeafScript;
}.

Record TxOutput := {
  amount : Z;
  script : Bytes;
}.

(** [RestArkProvider]: [submitTx] returns the [arkTxid]. *)
Record ArkProvider := {
  submitTx : Bytes -> list Bytes -> Result string string;
  finalizeTx : string -> list Bytes -> Result string unit;
}.

(** What the collaborators answer during one operation. A transaction
    object is represented by its PSBT bytes, so [Transaction.fromPSBT] and
    [toPSBT] do not appear; a failure to parse is a failure of the signing
    call that follows it. *)
Record Env := {
  sdk : VEscrow.SDK;
  (** [serverManager] *)
  getUnilateralDelay : VEscrow.RelativeTimelock;
  getServerKey : string;
  getAddrPrefix : string;
  getProvider : option ArkProvider;
  (** [serverManager.getIndexerProvider().getVtxos({ scripts: [script] })] *)
  getVtxos : string -> Result string (list VirtualCoin);
  (** [walletManager.getCurrentWallet()] *)
  getCurrentWallet : option WalletInfo;
  (** [ArkAddress.decode(address).pkScript] *)
  ArkAddress_decode : string -> Result string Bytes;
  (** [buildOffchainTx(inputs, outputs, serverUnrollScript)] *)
  buildOffchainTx :
    list TxInput -> list TxOutput -> Bytes -> Result string (Bytes * list Bytes);
}.

(** The calls that leave the class: notifications, the funding transfer of
    [walletManager.sendTransaction], and the two calls to the Ark server. *)
Inductive Event :=
| Notify (type : NotificationType) (message : string)
| SendTransaction (address : string)
| SubmitTx (arkTx : Bytes) (checkpoints : list Bytes)
| FinalizeTx (arkTxid : string) (checkpoints : list Bytes).

(** The callback that [rejectPendingTransaction] hands to [setTimeout]:
    when it is due, and the contract it closes over. *)
Record Timer := {
  due : Z;
  target : string;
}.

(** The state of a tab: the map [contracts], the timers not yet fired, the
    clock read by [Date.now()], and the calls made so far, oldest first.
    The publication of a contract to the transport
    ([communicationProvider.updateContract] and
    [notifyPendingTransaction]) is not recorded: its failure is swallowed by
    [updateContractPendingTransaction] and changes nothing here. *)
Record State := {
  contracts : gmap string EscrowContract;
  timers : list Timer;
  now : Z;
  log : list Event;
}.

Definition set_contracts (f : gmap string EscrowContract -> gmap string EscrowContract)
    (s : State) : State :=
  {| contracts := f (contracts s); timers := timers s; now := now s; log := log s |}.

Definition set_timers (f : list Timer -> list Timer) (s : State) : State :=
  {| contracts := contracts s; timers := f (timers s); now := now s; log := log s |}.

Definition set_now (f : Z -> Z) (s : State) : State :=
  {| contracts := contracts s; timers := timers s; now := f (now s); log := log s |}.

Definition set_log (f : list Event -> list Event) (s : State) : State :=
  {| contracts := contracts s; timers := timers s; now := now s; log := f (log s) |}.

Definition set_pendingTransaction (p : option PendingTransaction) (c : EscrowContract)
    : EscrowContract :=
  {| buyer := buyer c; seller := seller c; arbitrator := arbitrator c;
     description := description c; contract_timestamp := contract_timestamp c;
     pendingTransaction := p |}.

Definition set_status (st : Status) (p : PendingTransaction) : PendingTransaction :=
  {| action := action p; initiator := initiator p; timestamp := timestamp p;
     status := st; partialTx := partialTx p |}.

Definition set_partialTx (x : option PartialTx) (p : PendingTransaction)
    : PendingTransaction :=
  {| action := action p; initiator := initiator p; timestamp := timestamp p;
     status := status p; partialTx := x |}.

Definition set_arkTx (b : Bytes) (x : PartialTx) : PartialTx :=
  {| vtxo := vtxo x; arkTx := b; checkpoints := checkpoints x;
     requiredSigners := requiredSigners x; initiatorSigned := initiatorSigned x;
     approvals := approvals x; rejections := rejections x |}.

Definition set_checkpoints (cps : list Bytes) (x : PartialTx) : PartialTx :=
  {| vtxo := vtxo x; arkTx := arkTx x; checkpoints := cps;
     requiredSigners := requiredSigners x; initiatorSigned := initiatorSigned x;
     approvals := approvals x; rejections := rejections x |}.

Definition push_approval (pk : string) (x : PartialTx) : PartialTx :=
  {| vtxo := vtxo x; arkTx := arkTx x; checkpoints := checkpoints x;
     requiredSigners := requiredSigners x; initiatorSigned := initiatorSigned x;
     approvals := approvals x ++ [pk]; rejections := rejections x |}.

Definition push_rejection (pk : string) (x : PartialTx) : PartialTx :=
  {| vtxo := vtxo x; arkTx := arkTx x; checkpoints := checkpoints x;
     requiredSigners := requiredSigners x; initiatorSigned := initiatorSigned x;
     approvals := approvals x; rejections := rejections x ++ [pk] |}.

(** *** The monad of the methods: state, and exceptions that keep the
    mutations made before the [throw]. *)

Definition M (A : Type) : Type := State -> Result string A * State.

Definition ret {A} (a : A) : M A := fun s => (Ok a, s).

Definition bind {A B} (m : M A) (k : A -> M B) : M B :=
  fun s =>
    match m s with
    | (Ok a, s') => k a s'
    | (Throw e, s') => (Throw e, s')
    end.

Definition throw {A} (msg : string) : M A := fun s => (Throw msg, s).

Definition lift {A} (r : Result string A) : M A := fun s => (r, s).

(** [try { m } catch (error) { h(error.message) }] *)
Definition try_catch {A} (m : M A) (h : string -> M A) : M A :=
  fun s =>
    match m s with
    | (Ok a, s') => (Ok a, s')
    | (Throw e, s') => h e s'
    end.

Definition get : M State := fun s => (Ok s, s).

Definition modify (f : State -> State) : M unit := fun s => (Ok tt, f s).

Notation "'let*' x := m 'in' k" := (bind m (fun x => k))
  (at level 10, x name, m at level 100, k at level 200).
Notation "'let*' ' p := m 'in' k" := (bind m (fun x => match x with p => k end))
  (at level 10, p pattern, m at level 100, k at level 200).
Notation "m ;; k" := (bind m (fun _ => k))
  (at level 100, k at level 200, right associativity).

(** The state a method leaves behind. *)
Definition exec {A} (m : M A) (s : State) : State := snd (m s).

Definition emit (e : Event) : M unit := modify (set_log (fun l => l ++ [e])).

Definition showError (msg : string) : M unit := emit (Notify error msg).
Definition showSuccess (msg : string) : M unit := emit (Notify success msg).
Definition showInfo (msg : string) : M unit := emit (Notify info msg).

(** *** JavaScript helpers *)

Definition lower_ascii (c : ascii) : ascii :=
  let n := N_of_ascii c in
  if ((65 <=? n) && (n <=? 90))%N then ascii_of_N (n + 32) else c.

(** [String.prototype.toLowerCase], on ASCII. *)
Fixpoint toLowerCase (s : string) : string :=
  match s with
  | EmptyString => EmptyString
  | String c rest => String (lower_ascii c) (toLowerCase rest)
  end.

(** [Array.prototype.includes] on an array of strings. *)
Definition includes (l : list string) (x : string) : bool :=
  existsb (String.eqb x) l.

(** [Array.prototype.join] *)
Definition join (sep : string) (l : list string) : string := String.concat sep l.

(** [x || fallback] on strings: the empty string is falsy. *)
Definition or_else (x fallback : string) : string :=
  if String.eqb x "" then fallback else x.

(** [hex.decode] as the callers see it. The wording of a library's error is
    not in the repository. *)
Definition hex_decode (s : string) : Result string Bytes :=
  match hex.decode s with
  | Some bs => Ok bs
  | None => Throw "hex string expected"
  end.

(** A [VEscrow] exception seen as an [Error] with a message. *)
Definition liftE {A} (r : Result VEscrow.Error A) : Result string A :=
  match r with
  | Ok a => Ok a
  | Throw e => Throw (VEscrow.message e)
  end.

(** *** Access to the object behind the [contract] argument

    The callers of the class ([src/app.ts], class [ArkEscrowApp]) take the
    [contract] argument from [getContractsForUser], that is from the values
    of the map [contracts], so the argument is the object stored under its
    own [arkAddress] and is named here by that address. *)

Definition lookupPending (s : State) (arkAddress : string) : option PendingTransaction :=
  match contracts s !! arkAddress with
  | Some c => pendingTransaction c
  | None => None
  end.

Definition lookupPartialTx (s : State) (arkAddress : string) : option PartialTx :=
  match lookupPending s arkAddress with
  | Some p => partialTx p
  | None => None
  end.

(** [contract.pendingTransaction = p] *)
Definition assignPending (arkAddress : string) (p : option PendingTransaction) : M unit :=
  modify (set_contracts (alter (set_pendingTransaction p) arkAddress)).

(** An assignment to a field of [contract.pendingTransaction]. *)
Definition mutatePending (arkAddress : string) (f : PendingTransaction -> PendingTransaction)
    : M unit :=
  modify (set_contracts (alter
    (fun c => set_pendingTransaction (f <$> pendingTransaction c) c) arkAddress)).

(** An assignment to a field of [partialTx], or a [push] on one of its arrays. *)
Definition mutatePartialTx (arkAddress : string) (f : PartialTx -> PartialTx) : M unit :=
  mutatePending arkAddress (fun p => set_partialTx (f <$> partialTx p) p).

(** [private async updateContractPendingTransaction(arkAddress, pendingTransaction)] *)
Definition updateContractPendingTransaction (arkAddress : string)
    (p : option PendingTransaction) : M unit :=
  let* s := get in
  match contracts s !! arkAddress with
  | Some contract =>
      modify (set_contracts (insert arkAddress (set_pendingTransaction p contract)))
  | None => ret tt
  end.

(** [private getUserRole(contract, pubkey)] *)
Definition getUserRole (contract : EscrowContract) (pk : string) : option string :=
  if String.eqb pk (pubkey (buyer contract)) then Some "buyer"
  else if String.eqb pk (pubkey (seller contract)) then Some "seller"
  else if String.eqb pk (pubkey (arbitrator contract)) then Some "arbitrator"
  else None.

Definition role_is (r : option string) (expected : string) : bool :=
  match r with
  | Some x => String.eqb x expected
  | None => false
  end.

(** [private getRequiredSignersForAction(action, contract, currentWallet)] *)
Definition getRequiredSignersForAction (act : string) (contract : EscrowContract)
    (currentWallet : WalletInfo) : list string :=
  let currentUserRole := getUserRole contract (wallet_pubkey currentWallet) in
  let a := toLowerCase act in
  if String.eqb a "fund" then
    if role_is currentUserRole "buyer" then [pubkey (buyer contract)] else []
  else if String.eqb a "release" then
    if role_is currentUserRole "seller" || role_is currentUserRole "arbitrator"
    then [pubkey (seller contract); pubkey (arbitrator contract)] else []
  else if String.eqb a "refund" then
    if role_is currentUserRole "buyer" || role_is currentUserRole "arbitrator"
    then [pubkey (buyer contract); pubkey (arbitrator contract)] else []
  else if String.eqb a "direct settle" then
    if role_is currentUserRole "buyer" || role_is currentUserRole "seller"
    then [pubkey (buyer contract); pubkey (seller contract)] else []
  else [].

(** [private getUserNameByPubkey(pubkey, contract)] *)
Definition getUserNameByPubkey (pk : string) (contract : EscrowContract) : string :=
  if String.eqb pk (pubkey (buyer contract)) then name (buyer contract)
  else if String.eqb pk (pubkey (seller contract)) then name (seller contract)
  else if String.eqb pk (pubkey (arbitrator contract)) then name (arbitrator contract)
  else "Unknown User".

(** [restoreScript(contract)] *)
Definition restoreScript (env : Env) (contract : EscrowContract)
    : Result string VEscrow.Script :=
  let unilateralDelay := getUnilateralDelay env in
  do buyerKey <- hex_decode (pubkey (buyer contract));
  do sellerKey <- hex_decode (pubkey (seller contract));
  do arbitratorKey <- hex_decode (pubkey (arbitrator contract));
  do serverKey <- hex_decode (getServerKey env);
  liftE (VEscrow.new_Script (sdk env)
    {| VEscrow.buyer := buyerKey;
       VEscrow.seller := sellerKey;
       VEscrow.arbitrator := arbitratorKey;
       VEscrow.server := serverKey;
       VEscrow.unilateralDelay := unilateralDelay |}).

(** [private async getWalletForSigner(pubkey, contract)] *)
Definition getWalletForSigner (env : Env) (pk : string) : option WalletInfo :=
  match getCurrentWallet env with
  | Some currentWallet =>
      if String.eqb (wallet_pubkey currentWallet) pk then Some currentWallet else None
  | None => None
  end.

(** [private async signTransactionsForUser(contract, currentWallet)]. The
    assignment to [partialTx.arkTx] comes before the checkpoints are signed. *)
Definition signTransactionsForUser (env : Env) (arkAddress : string)
    (currentWallet : WalletInfo) : M unit :=
  let* s := get in
  match contracts s !! arkAddress, lookupPartialTx s arkAddress with
  | Some contract, Some partialTx0 =>
      match getWalletForSigner env (wallet_pubkey currentWallet) with
      | None =>
          throw ("Wallet " +:+ getUserNameByPubkey (wallet_pubkey currentWallet) contract
                 +:+ " is not authorized to sign this transaction")
      | Some authorizedWallet =>
          try_catch
            (let* signedPSBT :=
               lift (sign (identity authorizedWallet) (arkTx partialTx0) None) in
             mutatePartialTx arkAddress (set_arkTx signedPSBT) ;;
             let* signedCheckpoints :=
               lift (mapR (fun checkpointPSBT =>
                             sign (identity authorizedWallet) checkpointPSBT (Some [0%nat]))
                          (checkpoints partialTx0)) in
             mutatePartialTx arkAddress (set_checkpoints signedCheckpoints))
            (fun msg => throw ("Failed to sign transactions: " +:+ msg))
      end
  | _, _ => throw "No pending transaction to sign"
  end.

(** [private getSpendingPathForAction(escrowScript, action)]; [None] is
    [null]. *)
Definition getSpendingPathForAction (escrowScript : VEscrow.Script) (act : string)
    : Result string (option VEscrow.TapLeafScript) :=
  let a := toLowerCase act in
  if String.eqb a "fund" then Ok None
  else if String.eqb a "release" then
    do leaf <- liftE (VEscrow.release escrowScript); Ok (Some leaf)
  else if String.eqb a "refund" then
    do leaf <- liftE (VEscrow.refund escrowScript); Ok (Some leaf)
  else if String.eqb a "direct settle" then
    do leaf <- liftE (VEscrow.direct escrowScript); Ok (Some leaf)
  else Ok None.

(** [private addressToScript(address)] *)
Definition addressToScript (env : Env) (addr : string) : Result string Bytes :=
  match ArkAddress_decode env addr with
  | Ok pk => Ok pk
  | Throw _ =>
      let failure := Throw ("Cannot convert address to script: " +:+ addr) in
      if Nat.even (String.length addr) then
        match hex.decode addr with
        | Some bs => Ok bs
        | None => failure
        end
      else failure
  end.

(** [private createOutputsForAction(action, contract, amount)]. [amount] is
    a JavaScript number holding an integer; [Math.floor(amount / 2)] is the
    integer quotient. *)
Definition createOutputsForAction (env : Env) (act : string) (contract : EscrowContract)
    (amt : Z) : Result string (list TxOutput) :=
  let a := toLowerCase act in
  if String.eqb a "release" then
    do sellerScript <- addressToScript env (address (seller contract));
    Ok [ {| amount := amt; script := sellerScript |} ]
  else if String.eqb a "refund" then
    do buyerScript <- addressToScript env (address (buyer contract));
    Ok [ {| amount := amt; script := buyerScript |} ]
  else if String.eqb a "direct settle" then
    let halfAmount := amt / 2 in
    do buyerScript <- addressToScript env (address (buyer contract));
    do sellerScript <- addressToScript env (address (seller contract));
    Ok [ {| amount := halfAmount; script := buyerScript |};
         {| amount := amt - halfAmount; script := sellerScript |} ]
  else Throw ("Unknown action: " +:+ act).

(** [private async createEscrowTransaction(contract, action, vtxo)]. The
    checks on the shape of the value returned by [buildOffchainTx] are part
    of the failure of that call. *)
Definition createEscrowTransaction (env : Env) (contract : EscrowContract) (act : string)
    (coin : VirtualCoin) : Result string (Bytes * list Bytes) :=
  do escrowScript <- restoreScript env contract;
  do spendingPath <- getSpendingPathForAction escrowScript act;
  if match spendingPath with None => true | Some _ => false end
     && negb (String.eqb (toLowerCase act) "fund")
  then Throw ("Invalid action: " +:+ act)
  else
    do serverKey <- hex_decode (getServerKey env);
    let serverUnrollScript :=
      VEscrow.CSVMultisigTapscript_encode (sdk env) [serverKey] (getUnilateralDelay env) in
    let input :=
      {| in_txid := vc_txid coin;
         in_vout := vc_vout coin;
         in_value := vc_value coin;
         in_script := VEscrow.Script_pkScript (sdk env) escrowScript;
         in_tapTree := VEscrow.tapTree_encode (sdk env) (VEscrow.scripts escrowScript);
         in_tapLeafScript := spendingPath |} in
    do outputs <- createOutputsForAction env act contract (vc_value coin);
    match buildOffchainTx env [input] outputs serverUnrollScript with
    | Ok result => Ok result
    | Throw msg => Throw ("Failed to build offchain transaction: " +:+ msg)
    end.

(** [private async executeMultiSigTransaction(contract)]. The arguments of
    [submitTx] and [finalizeTx] are the stored bytes in base64. *)
Definition executeMultiSigTransaction (env : Env) (arkAddress : string) : M unit :=
  let* s := get in
  match lookupPending s arkAddress, lookupPartialTx s arkAddress with
  | Some pending, Some partialTx0 =>
      let actionName := action pending in
      try_catch
        (showInfo ("All signatures collected. Executing " +:+ actionName +:+ "...") ;;
         match getProvider env with
         | None => throw "Not connected to Ark server"
         | Some arkProvider =>
             let checkpointData := checkpoints partialTx0 in
             emit (SubmitTx (arkTx partialTx0) checkpointData) ;;
             let* arkTxid :=
               lift (submitTx arkProvider (arkTx partialTx0) checkpointData) in
             showSuccess (actionName +:+ " transaction submitted! ID: " +:+ arkTxid) ;;
             let finalCheckpoints := checkpointData in
             emit (FinalizeTx arkTxid finalCheckpoints) ;;
             lift (finalizeTx arkProvider arkTxid finalCheckpoints) ;;
             showSuccess (actionName +:+ " transaction finalized successfully!") ;;
             assignPending arkAddress None ;;
             updateContractPendingTransaction arkAddress None
         end)
        (fun msg =>
           showError ("Failed to execute " +:+ actionName +:+ ": "
                      +:+ or_else msg "Unknown error"))
  | _, _ => throw "No pending transaction to execute"
  end.

(** [async approvePendingTransaction(contract, currentWallet)] *)
Definition approvePendingTransaction (env : Env) (arkAddress : string)
    (currentWallet : WalletInfo) : M unit :=
  let* s := get in
  match contracts s !! arkAddress, lookupPending s arkAddress, lookupPartialTx s arkAddress with
  | Some contract, Some pending, Some partialTx0 =>
      if negb (includes (requiredSigners partialTx0) (wallet_pubkey currentWallet)) then
        showError "You are not required to sign this transaction"
      else if includes (approvals partialTx0) (wallet_pubkey currentWallet) then
        showError "You have already approved this transaction"
      else
        try_catch
          (let actionName := action pending in
           showInfo ("Signing " +:+ actionName +:+ " transaction...") ;;
           signTransactionsForUser env arkAddress currentWallet ;;
           mutatePartialTx arkAddress (push_approval (wallet_pubkey currentWallet)) ;;
           (* [partialTx.approvals] as the [push] leaves it *)
           let approvals1 := approvals partialTx0 ++ [wallet_pubkey currentWallet] in
           let allRequiredSigners := requiredSigners partialTx0 ++ [initiator pending] in
           let allApproved := forallb (includes approvals1) allRequiredSigners in
           if allApproved then executeMultiSigTransaction env arkAddress
           else
             let remainingSigners :=
               List.filter (fun pk => negb (includes approvals1 pk)) allRequiredSigners in
             let remainingNames :=
               List.map (fun pk => getUserNameByPubkey pk contract) remainingSigners in
             showSuccess ("Transaction signed and approved. Waiting for signatures from: "
                          +:+ join ", " remainingNames +:+ ".") ;;
             let* s1 := get in
             updateContractPendingTransaction arkAddress (lookupPending s1 arkAddress))
          (fun msg =>
             let* s2 := get in
             let actionName :=
               or_else (match lookupPending s2 arkAddress with
                        | Some p => action p
                        | None => ""
                        end) "transaction" in
             showError ("Failed to approve " +:+ actionName +:+ ": "
                        +:+ or_else msg "Unknown error"))
  | _, _, _ => showError "No pending transaction to approve"
  end.

(** The delay of the [setTimeout] of [rejectPendingTransaction], in ms. *)
Definition rejectionDelay : Z := 3000.

(** The body of that callback. *)
Definition rejectedTimeout (arkAddress : string) : M unit :=
  assignPending arkAddress None ;;
  updateContractPendingTransaction arkAddress None ;;
  showInfo "Rejected transaction cleared".

Definition setTimeout (arkAddress : string) (delay : Z) : M unit :=
  modify (fun s =>
    set_timers (fun ts => ts ++ [ {| due := now s + delay; target := arkAddress |} ]) s).

(** [async rejectPendingTransaction(contract, currentWallet)] *)
Definition rejectPendingTransaction (arkAddress : string) (currentWallet : WalletInfo)
    : M unit :=
  let* s := get in
  match contracts s !! arkAddress, lookupPartialTx s arkAddress with
  | Some contract, Some partialTx0 =>
      if negb (includes (requiredSigners partialTx0) (wallet_pubkey currentWallet)) then
        showError "You are not authorized to reject this transaction"
      else
        (if negb (includes (rejections partialTx0) (wallet_pubkey currentWallet))
         then mutatePartialTx arkAddress (push_rejection (wallet_pubkey currentWallet))
         else ret tt) ;;
        mutatePending arkAddress (set_status rejected) ;;
        showSuccess ("Transaction rejected by "
                     +:+ getUserNameByPubkey (wallet_pubkey currentWallet) contract) ;;
        setTimeout arkAddress rejectionDelay ;;
        let* s1 := get in
        updateContractPendingTransaction arkAddress (lookupPending s1 arkAddress)
  | _, _ => showError "No pending transaction to reject"
  end.

(** [async executeContractAction(contract, action, currentWallet)] *)
Definition executeContractAction (env : Env) (arkAddress : string) (act : string)
    (currentWallet : WalletInfo) : M unit :=
  let* s := get in
  match contracts s !! arkAddress with
  | None => ret tt
  | Some contract =>
      try_catch
        (let* escrowScript := lift (restoreScript env contract) in
         let* serverKey := lift (hex_decode (getServerKey env)) in
         let addr :=
           VEscrow.address (sdk env) escrowScript (getAddrPrefix env) serverKey in
         let script := hex.encode (VEscrow.pkScript addr) in
         let* vtxos := lift (getVtxos env script) in
         if String.eqb (toLowerCase act) "fund" then
           match vtxos with
           | _ :: _ => showError "Funds already exist in escrow contract"
           | [] => emit (SendTransaction (VEscrow.encoded addr))
           end
         else
           match vtxos with
           | [] => showError "No funds found in escrow contract"
           | coin :: _ =>
               let required := getRequiredSignersForAction act contract currentWallet in
               match required with
               | [] => showError ("You are not authorized to perform " +:+ act)
               | _ :: _ =>
                   let* '(unsignedArkTx, unsignedCheckpoints) :=
                     lift (createEscrowTransaction env contract act coin) in
                   let* signedArkTx :=
                     lift (sign (identity currentWallet) unsignedArkTx None) in
                   let* signedCheckpoints :=
                     lift (mapR (fun checkpoint =>
                                   sign (identity currentWallet) checkpoint (Some [0%nat]))
                                unsignedCheckpoints) in
                   let* s1 := get in
                   let pending :=
                     {| action := act;
                        initiator := wallet_pubkey currentWallet;
                        timestamp := now s1;
                        status := pending_cosign;
                        partialTx := Some
                          {| vtxo := {| txid := vc_txid coin;
                                        vout := vc_vout coin;
                                        value := vc_value coin |};
                             arkTx := signedArkTx;
                             checkpoints := signedCheckpoints;
                             requiredSigners :=
                               List.filter
                                 (fun pk => negb (String.eqb pk (wallet_pubkey currentWallet)))
                                 required;
                             initiatorSigned := true;
                             approvals := [wallet_pubkey currentWallet];
                             rejections := [] |} |} in
                   updateContractPendingTransaction (VEscrow.encoded addr) (Some pending) ;;
                   let otherSigners :=
                     join ", "
                       (List.map (fun pk => getUserNameByPubkey pk contract)
                          (match partialTx pending with
                           | Some x => requiredSigners x
                           | None => []
                           end)) in
                   showSuccess ("Partial transaction created for " +:+ act +:+ ". "
                     +:+ (if String.eqb otherSigners "" then "Ready to execute!"
                          else "Waiting for cosignature from: " +:+ otherSigners +:+ "."))
               end
           end)
        (fun msg =>
           showError ("Failed to create transaction for " +:+ act +:+ ": "
                      +:+ or_else msg "Unknown error"))
  end.

(** *** The event loop: calls of the three public methods, the passing of
    time, and the firing of a timer that is due. *)

Definition fireTimer (i : nat) : M unit :=
  let* s := get in
  match timers s !! i with
  | Some t =>
      if due t <=? now s then
        modify (set_timers (delete i)) ;; rejectedTimeout (target t)
      else ret tt
  | None => ret tt
  end.

Inductive Op :=
| ExecuteContractAction (arkAddress act : string) (currentWallet : WalletInfo)
| ApprovePendingTransaction (arkAddress : string) (currentWallet : WalletInfo)
| RejectPendingTransaction (arkAddress : string) (currentWallet : WalletInfo)
| Elapse (ms : nat)
| FireTimer (i : nat).

Definition step (env : Env) (op : Op) (s : State) : State :=
  match op with
  | ExecuteContractAction a act w => exec (executeContractAction env a act w) s
  | ApprovePendingTransaction a w => exec (approvePendingTransaction env a w) s
  | RejectPendingTransaction a w => exec (rejectPendingTransaction a w) s
  | Elapse ms => set_now (fun t => t + Z.of_nat ms) s
  | FireTimer i => exec (fireTimer i) s
  end.

(** A run: each operation with what the collaborators answer during it. *)
Fixpoint run (ops : list (Env * Op)) (s : State) : State :=
  match ops with
  | [] => s
  | (env, op) :: rest => run rest (step env op s)
  end.

(** ** [src/escrow.ts]: [Script.getSpendingPaths] *)

Inductive PathType := collaborative | unilateral.

Record SpendingPath := {
  path_name : string;
  path_type : PathType;
  path_description : string;
  path_script : string;
  path_signers : list string;
}.

(** [getSpendingPaths()] *)
Definition getSpendingPaths (s : VEscrow.Script) : list SpendingPath :=
  [ {| path_name := "release";
       path_type := collaborative;
       path_description := "Release funds to seller (goods delivered)";
       path_script := VEscrow.releaseScript s;
       path_signers := ["seller"; "arbitrator"; "server"] |};
    {| path_name := "refund";
       path_type := collaborative;
       path_description := "Refund funds to buyer (dispute resolved)";
       path_script := VEscrow.refundScript s;
       path_signers := ["buyer"; "arbitrator"; "server"] |};
    {| path_name := "direct";
       path_type := collaborative;
       path_description := "Direct settlement between parties";
       path_script := VEscrow.directScript s;
       path_signers := ["buyer"; "seller"; "server"] |};
    {| path_name := "unilateralRelease";
       path_type := unilateral;
       path_description := "Release funds after timelock";
       path_script := VEscrow.unilateralReleaseScript s;
       path_signers := ["seller"; "arbitrator"] |};
    {| path_name := "unilateralRefund";
       path_type := unilateral;
       path_description := "Refund funds after timelock";
       path_script := VEscrow.unilateralRefundScript s;
       path_signers := ["buyer"; "arbitrator"] |};
    {| path_name := "unilateralDirect";
       path_type := unilateral;
       path_description := "Direct settlement after timelock";
       path_script := VEscrow.unilateralDirectScript s;
       path_signers := ["buyer"; "seller"] |} ].

(** ** [src/types.ts]: [EscrowState] *)

Inductive EscrowStatus := created | funded | executed.

Record EscrowState := {
  state_status : EscrowStatus;
  balance : Z;
  vtxoExists : bool;
}.

(** ** [src/app.ts]: the queries of [ContractManager] and the creation of a
    contract *)

(** The truth value of an optional string: [undefined] and the empty string
    are falsy. *)
Definition truthy (x : option string) : bool :=
  match x with
  | Some s => negb (String.eqb s "")
  | None => false
  end.

(** [getContracts()]: the values of the map. The array of the source is in
    the insertion order of the [Map]; the order of this list is that of the
    keys. *)
Definition getContracts (s : State) : list EscrowContract :=
  (map_to_list (contracts s)).*2.

(** [getContractsForUser(userPubkey)] *)
Definition getContractsForUser (s : State) (userPubkey : string) : list EscrowContract :=
  let allContracts := getContracts s in
  List.filter
    (fun contract =>
       String.eqb (pubkey (buyer contract)) userPubkey
       || String.eqb (pubkey (seller contract)) userPubkey
       || String.eqb (pubkey (arbitrator contract)) userPubkey)
    allContracts.

(** [async getEscrowState(contract)]. The script and the address are
    derived before the [try]; the test [!address] is on an object and never
    holds. A missing indexer is a failure of [getVtxos]. *)
Definition getEscrowState (env : Env) (contract : EscrowContract)
    : Result string EscrowState :=
  do escrowScript <- restoreScript env contract;
  do serverKey <- hex_decode (getServerKey env);
  let addr := VEscrow.address (sdk env) escrowScript (getAddrPrefix env) serverKey in
  let script := hex.encode (VEscrow.pkScript addr) in
  match getVtxos env script with
  | Ok vtxos =>
      let vtxoExists := (0 <? length vtxos)%nat in
      let vtxoSum :=
        fold_left
          (fun total vtxo => total + (if truthy (vc_spentBy vtxo) then 0 else vc_value vtxo))
          vtxos 0 in
      let allVtxosSpent :=
        vtxoExists && forallb (fun vtxo => truthy (vc_spentBy vtxo)) vtxos in
      let status :=
        if negb vtxoExists then created
        else if allVtxosSpent then executed
        else funded in
      Ok {| state_status := status; balance := vtxoSum; vtxoExists := vtxoExists |}
  | Throw _ =>
      Ok {| state_status := created; balance := 0; vtxoExists := false |}
  end.

(** [getAvailableActions(state, userRole)] *)
Definition getAvailableActions (state : EscrowState) (userRole : option string)
    : list string :=
  if negb (truthy userRole) then []
  else
    match state_status state with
    | created => if role_is userRole "seller" then ["Fund"] else []
    | _ =>
        if role_is userRole "buyer" then ["Refund"; "Direct Settle"]
        else if role_is userRole "seller" then ["Release"; "Direct Settle"]
        else if role_is userRole "arbitrator" then ["Release"; "Refund"]
        else []
    end.

Definition is_space (c : ascii) : bool :=
  let n := N_of_ascii c in
  (((9 <=? n) && (n <=? 13)) || (n =? 32))%N.

Fixpoint trimStart (s : string) : string :=
  match s with
  | EmptyString => EmptyString
  | String c rest => if is_space c then trimStart rest else s
  end.

Fixpoint trimEnd (s : string) : string :=
  match s with
  | EmptyString => EmptyString
  | String c rest =>
      let rest' := trimEnd rest in
      if is_space c && String.eqb rest' "" then EmptyString else String c rest'
  end.

(** [String.prototype.trim], on ASCII. *)
Definition trim (s : string) : string := trimEnd (trimStart s).

(** [async createEscrowContract(buyerId, sellerId, arbitratorId, description,
    currentWallet, unilateralDelay)]. [getUserById] is the method of
    [UserManager]; [published] is the outcome of
    [communicationProvider.publishContract(contract)]. The argument
    [unilateralDelay] is not read: the delay of the script is the one of
    [serverManager], through [restoreScript]. *)
Definition createEscrowContract (env : Env) (getUserById : string -> option User)
    (published : Result string unit)
    (buyerId sellerId arbitratorId description : string)
    (currentWallet : option WalletInfo) (unilateralDelay : VEscrow.RelativeTimelock)
    : M unit :=
  match currentWallet with
  | None => showError "No wallet available"
  | Some _ =>
      if String.eqb buyerId "" || String.eqb sellerId "" || String.eqb arbitratorId ""
      then showError "Please select all parties"
      else
        let parties := [buyerId; sellerId; arbitratorId] in
        if negb (bool_decide (size (list_to_set parties : gset string) = length parties))
        then showError "All parties must be different users"
        else
          try_catch
            (let buyer := getUserById buyerId in
             let seller := getUserById sellerId in
             let arbitrator := getUserById arbitratorId in
             let server := getServerKey env in
             let addrPrefix := getAddrPrefix env in
             match buyer, seller, arbitrator with
             | Some buyer, Some seller, Some arbitrator =>
                 let* s := get in
                 let contract :=
                   {| buyer := buyer;
                      seller := seller;
                      arbitrator := arbitrator;
                      description := trim description;
                      contract_timestamp := now s;
                      pendingTransaction := None |} in
                 let* escrowScript := lift (restoreScript env contract) in
                 let* serverKey := lift (hex_decode server) in
                 let arkAddress :=
                   VEscrow.address (sdk env) escrowScript addrPrefix serverKey in
                 modify (set_contracts (insert (VEscrow.encoded arkAddress) contract)) ;;
                 lift published ;;
                 showSuccess "Escrow contract created successfully!"
             | _, _, _ => showError "One or more selected users not found"
             end)
            (fun _ => showError "Failed to create contract")
  end.

(** [private updateContractsFromProvider(contracts)]: an element of the
    array is a contract with its [arkAddress]. *)
Definition updateContractsFromProvider (cs : list (string * EscrowContract)) : M unit :=
  modify (set_contracts (fun _ =>
    fold_left (fun m contract => <[ contract.1 := contract.2 ]> m) cs ∅)).

(** ** [src/user-manager.ts]: [getCurrentUserRole] and the test of
    [updateContractsUI] that shows the approve and reject buttons *)

(** [getCurrentUserRole(contract, currentWallet)] *)
Definition getCurrentUserRole (contract : EscrowContract)
    (currentWallet : option WalletInfo) : option string :=
  match currentWallet with
  | None => None
  | Some w =>
      let currentPubkey := wallet_pubkey w in
      if String.eqb (pubkey (buyer contract)) currentPubkey then Some "buyer"
      else if String.eqb (pubkey (seller contract)) currentPubkey then Some "seller"
      else if String.eqb (pubkey (arbitrator contract)) currentPubkey then Some "arbitrator"
      else None
  end.

(** [needsApproval] *)
Definition needsApproval (currentWallet : option WalletInfo)
    (pending : PendingTransaction) (x : PartialTx) : bool :=
  match currentWallet with
  | None => false
  | Some w =>
      includes (requiredSigners x) (wallet_pubkey w)
      && negb (includes (approvals x) (wallet_pubkey w))
      && negb (includes (rejections x) (wallet_pubkey w))
      && match status pending with pending_cosign => true | _ => false end
  end.

(** ** [src/localstorage-communication.ts]: the arrays kept in
    [localStorage]

    [JSON.parse(JSON.stringify(x))] gives back the users and the contracts
    as they are, so an item of [localStorage] is the array itself. *)
Module LocalStorageCommunication.

(** [Array.prototype.findIndex]; [None] is [-1]. *)
Fixpoint findIndex {A} (f : A -> bool) (xs : list A) : option nat :=
  match xs with
  | [] => None
  | x :: rest => if f x then Some 0%nat else S <$> findIndex f rest
  end.


(** [publishContract(contract)], on the item ['arkContracts']; also
    [updateContract]. *)
Definition publishContract (contracts : list (string * EscrowContract))
    (contract : string * EscrowContract) : list (string * EscrowContract) :=
  match findIndex (fun c => String.eqb c.1 contract.1) contracts with
  | Some existingIndex => <[ existingIndex := contract ]> contracts
  | None => contracts ++ [contract]
  end.

End LocalStorageCommunication.

(** ** [src/user-manager.ts]: class [UserManager] *)
Module UserManager.

(** The map [users], as the list of its values in insertion order (the key
    of a user is its [pubkey]), the set [usedNames], the item of the
    transport that [saveUsers] writes, and the notifications shown.

    A method is followed to its end. The callback by which the transport
    hands its array back after a publication is
    [updateUsersFromProvider], an operation of its own here. *)
Record State := {
  users : list User;
  usedNames : gset string;
  stored : list User;
  shown : list (NotificationType * string);
}.

Definition friendlyNames : list string :=
  [ "Alice"; "Bob"; "Carol"; "Dave"; "Eve"; "Frank"; "Grace"; "Heidi";
    "Ivan"; "Judy"; "Mallory"; "Oscar"; "Peggy"; "Quentin"; "Rupert";
    "Sybil"; "Trent"; "Ursula"; "Victor"; "Walter"; "Xavier"; "Yvonne"; "Zeke" ].


Definition Map_get (pk : string) (us : list User) : option User :=
  List.find (fun u => String.eqb (pubkey u) pk) us.

Fixpoint Map_set (user : User) (us : list User) : list User :=
  match us with
  | [] => [user]
  | u :: rest =>
      if String.eqb (pubkey u) (pubkey user) then user :: rest
      else u :: Map_set user rest
  end.


(** [getUserById(id)] *)
Definition getUserById (s : State) (id : string) : option User := Map_get id (users s).

(** [private buildUsedNamesSet()] *)
Definition buildUsedNamesSet (s : State) : State :=
  {| users := users s;
     usedNames := list_to_set (name <$> users s);
     stored := stored s;
     shown := shown s |}.

(** [private updateUsersFromProvider(users)] *)
Definition updateUsersFromProvider (us : list User) (s : State) : State :=
  buildUsedNamesSet
    {| users := fold_left (fun m user => Map_set user m) us [];
       usedNames := usedNames s;
       stored := stored s;
       shown := shown s |}.


(** The first loop of [assignFriendlyName]. *)
Fixpoint firstUnused (names : list string) (used : gset string) : option string :=
  match names with
  | [] => None
  | name :: rest =>
      if bool_decide (name ∈ used) then firstUnused rest used else Some name
  end.

(** Its second loop, [while (true)], run for at most [fuel] increments of
    the counter. *)
Fixpoint numbered (fuel : nat) (counter : nat) (used : gset string) : option string :=
  let candidateName := default "" (head friendlyNames) +:+ " " +:+ pretty counter in
  if bool_decide (candidateName ∈ used) then
    match fuel with
    | O => None
    | S fuel' => numbered fuel' (S counter) used
    end
  else Some candidateName.

Definition set_usedNames (f : gset string -> gset string) (s : State) : State :=
  {| users := users s; usedNames := f (usedNames s); stored := stored s; shown := shown s |}.



(** [private assignFriendlyName()]; [None] when the second loop has not
    ended within [fuel] increments. *)
Definition assignFriendlyName (fuel : nat) (s : State) : option (string * State) :=
  let found := 
    match firstUnused friendlyNames (usedNames s) with
    | Some name => Some name
    | None => numbered fuel 1 (usedNames s)
    end in
  (fun name => (name, set_usedNames (fun used => {[ name ]} ∪ used) s)) <$> found.



End UserManager.

(** ** A reference implementation of the library functions, and a scenario

    The encoders follow the layout of the SDK's tapscripts: a 32-byte push
    per key, [OP_CHECKSIGVERIFY] between keys and [OP_CHECKSIG] after the
    last; the timelocked form puts the sequence number,
    [OP_CHECKSEQUENCEVERIFY] and [OP_DROP] in front. They serve as an
    instance of [VEscrow.SDK] on which the statements below are run. *)
Module Reference.

Fixpoint multisig (pubkeys : list Bytes) : Bytes :=
  match pubkeys with
  | [] => []
  | [k] => x20 :: k ++ [xac]
  | k :: rest => x20 :: k ++ xad :: multisig rest
  end.

(** The sequence number, pushed as four little-endian bytes; bit 22 marks a
    delay in units of 512 seconds. *)
Definition sequence (t : VEscrow.RelativeTimelock) : Z :=
  match VEscrow.tl_type t with
  | VEscrow.blocks => VEscrow.tl_value t
  | VEscrow.seconds => Z.lor (Z.shiftl 1 22) (VEscrow.tl_value t / 512)
  end.

Definition byte_of_Z (z : Z) : byte :=
  match of_N (Z.to_N (z mod 256)) with
  | Some b => b
  | None => x00
  end.

Definition push_sequence (t : VEscrow.RelativeTimelock) : Bytes :=
  let n := sequence t in
  [ x04; byte_of_Z n; byte_of_Z (Z.shiftr n 8);
    byte_of_Z (Z.shiftr n 16); byte_of_Z (Z.shiftr n 24) ].

Definition csv_multisig (pubkeys : list Bytes) (t : VEscrow.RelativeTimelock) : Bytes :=
  push_sequence t ++ xb2 :: x75 :: multisig pubkeys.

(** A stand-in for the taproot commitment: the leaves, folded into 32 bytes. *)
Definition xor_byte (a b : byte) : byte :=
  byte_of_Z (Z.lxor (Z.of_N (to_N a)) (Z.of_N (to_N b))).

Fixpoint xor_into (acc : Bytes) (data : Bytes) : Bytes :=
  match acc, data with
  | a :: acc', d :: data' => xor_byte a d :: xor_into acc' data'
  | _, _ => acc
  end.

Definition commitment (leaves : list Bytes) : Bytes :=
  fold_left (fun acc leaf => xor_into acc (drop 1 leaf)) leaves (repeat x00 32).

Definition sdk : VEscrow.SDK :=
  {| VEscrow.MultisigTapscript_encode := multisig;
     VEscrow.CSVMultisigTapscript_encode := csv_multisig;
     VEscrow.tweakedPublicKey := commitment;
     VEscrow.tapTree_encode := fun leaves => concat leaves;
     VEscrow.ArkAddress_encode := fun prefix serverKey key =>
       prefix +:+ "1" +:+ hex.encode serverKey +:+ hex.encode key |}.

End Reference.

Module Scenario.

Definition buyerKey : Bytes := repeat x0b 32.
Definition sellerKey : Bytes := repeat x05 32.
Definition arbitratorKey : Bytes := repeat x0a 32.
Definition serverKey : Bytes := repeat x0e 32.

Definition delay : VEscrow.RelativeTimelock :=
  {| VEscrow.tl_type := VEscrow.blocks; VEscrow.tl_value := 144 |}.

Definition options : VEscrow.Options :=
  {| VEscrow.buyer := buyerKey;
     VEscrow.seller := sellerKey;
     VEscrow.arbitrator := arbitratorKey;
     VEscrow.server := serverKey;
     VEscrow.unilateralDelay := delay |}.

(** The buyer's key is one byte short. *)
Definition shortKeyOptions : VEscrow.Options :=
  {| VEscrow.buyer := repeat x0b 31;
     VEscrow.seller := sellerKey;
     VEscrow.arbitrator := arbitratorKey;
     VEscrow.server := serverKey;
     VEscrow.unilateralDelay := delay |}.

(** The arbitrator is the seller. *)
Definition duplicateKeyOptions : VEscrow.Options :=
  {| VEscrow.buyer := buyerKey;
     VEscrow.seller := sellerKey;
     VEscrow.arbitrator := sellerKey;
     VEscrow.server := serverKey;
     VEscrow.unilateralDelay := delay |}.

(** The three parties. Their pubkeys are the hex form of the keys above;
    their own addresses are written as hex output scripts. *)
Definition buyerPubkey : string := Eval vm_compute in hex.encode buyerKey.
Definition sellerPubkey : string := Eval vm_compute in hex.encode sellerKey.
Definition arbitratorPubkey : string := Eval vm_compute in hex.encode arbitratorKey.
Definition serverPubkey : string := Eval vm_compute in hex.encode serverKey.

Definition carol : User :=
  {| name := "Carol"; pubkey := buyerPubkey; address := "5120" +:+ buyerPubkey;
     user_timestamp := 1 |}.
Definition bob : User :=
  {| name := "Bob"; pubkey := sellerPubkey; address := "5120" +:+ sellerPubkey;
     user_timestamp := 2 |}.
Definition alice : User :=
  {| name := "Alice"; pubkey := arbitratorPubkey; address := "5120" +:+ arbitratorPubkey;
     user_timestamp := 3 |}.

Definition contract : EscrowContract :=
  {| buyer := carol; seller := bob; arbitrator := alice;
     description := "bicycle"; contract_timestamp := 10;
     pendingTransaction := None |}.

(** A key that signs by appending a byte, and one that signs the spend
    transaction but fails on a checkpoint. *)
Definition signer (tag : byte) : SingleKey :=
  {| sign := fun tx _ => Ok (tx ++ [tag]) |}.

Definition spendOnlySigner (tag : byte) : SingleKey :=
  {| sign := fun tx inputIndexes =>
       match inputIndexes with
       | None => Ok (tx ++ [tag])
       | Some _ => Throw "checkpoint input cannot be signed"
       end |}.

Definition carolWallet : WalletInfo := {| wallet_pubkey := buyerPubkey; identity := signer x0b |}.
Definition bobWallet : WalletInfo := {| wallet_pubkey := sellerPubkey; identity := signer x05 |}.
Definition aliceWallet : WalletInfo :=
  {| wallet_pubkey := arbitratorPubkey; identity := signer x0a |}.
Definition aliceFaultyWallet : WalletInfo :=
  {| wallet_pubkey := arbitratorPubkey; identity := spendOnlySigner x0a |}.

Definition coin (v : Z) : VirtualCoin :=
  {| vc_txid := "f00d"; vc_vout := 0; vc_value := v; vc_spentBy := None |}.

Definition provider : ArkProvider :=
  {| submitTx := fun _ _ => Ok "a1b2"; finalizeTx := fun _ _ => Ok tt |}.

Definition failingProvider : ArkProvider :=
  {| submitTx := fun _ _ => Throw "server unreachable"; finalizeTx := fun _ _ => Ok tt |}.

(** The collaborators: the wallet open in the tab, the Ark server, and the
    outputs the indexer reports at the contract address. A party's address
    is not an Ark address here, so [addressToScript] takes its hex branch. *)
Definition env (current : option WalletInfo) (server : option ArkProvider)
    (coins : list VirtualCoin) : Env :=
  {| sdk := Reference.sdk;
     getUnilateralDelay := delay;
     getServerKey := serverPubkey;
     getAddrPrefix := "tark";
     getProvider := server;
     getVtxos := fun _ => Ok coins;
     getCurrentWallet := current;
     ArkAddress_decode := fun _ => Throw "not an Ark address";
     buildOffchainTx := fun inputs outputs _ =>
       Ok ([x70; x73; x62; x74], [[xc0]]) |}.

(** The address [createEscrowContract] derives for [contract]. *)
Definition arkAddress : string :=
  Eval vm_compute in
    match restoreScript (env None None []) contract with
    | Ok sc => VEscrow.encoded (VEscrow.address Reference.sdk sc "tark" serverKey)
    | Throw _ => ""
    end.

(** The script object [restoreScript] builds for [contract]. *)
Definition script : VEscrow.Script :=
  Eval vm_compute in
    match VEscrow.new_Script Reference.sdk options with
    | Ok sc => sc
    | Throw _ =>
        {| VEscrow.options := options; VEscrow.scripts := [];
           VEscrow.releaseScript := ""; VEscrow.refundScript := "";
           VEscrow.directScript := ""; VEscrow.unilateralReleaseScript := "";
           VEscrow.unilateralRefundScript := ""; VEscrow.unilateralDirectScript := "" |}
    end.

Definition initial : State :=
  {| contracts := {[ arkAddress := contract ]}; timers := []; now := 1000; log := [] |}.

(** Bob, the seller, asks for a release of 101 sats. *)
Definition released : State :=
  step (env (Some bobWallet) (Some provider) [coin 101])
       (ExecuteContractAction arkAddress "Release" bobWallet) initial.

(** The pending transaction of [released]. *)
Definition releasePartialTx : PartialTx :=
  {| vtxo := {| txid := "f00d"; vout := 0; value := 101 |};
     arkTx := [x70; x73; x62; x74; x05];
     checkpoints := [[xc0; x05]];
     requiredSigners := [arbitratorPubkey];
     initiatorSigned := true;
     approvals := [sellerPubkey];
     rejections := [] |}.

Definition releasePending : PendingTransaction :=
  {| action := "Release"; initiator := sellerPubkey; timestamp := 1000;
     status := pending_cosign; partialTx := Some releasePartialTx |}.

Definition releasedContract : EscrowContract :=
  set_pendingTransaction (Some releasePending) contract.

(** Alice, the arbitrator, approves. *)
Definition aliceEnv (server : option ArkProvider) : Env :=
  env (Some aliceWallet) server [coin 101].

Definition aliceFaultyEnv : Env := env (Some aliceFaultyWallet) (Some provider) [coin 101].

(** Alice approves while the Ark server is unreachable: the execution
    fails and the pending transaction stays, with her approval. *)
Definition approvedUnsent : State :=
  step (aliceEnv (Some failingProvider))
       (ApprovePendingTransaction arkAddress aliceWallet) released.

Definition unsentPartialTx : PartialTx :=
  push_approval arbitratorPubkey
    (set_checkpoints [[xc0; x05; x0a]]
       (set_arkTx [x70; x73; x62; x74; x05; x0a] releasePartialTx)).

Definition unsentPending : PendingTransaction :=
  set_partialTx (Some unsentPartialTx) releasePending.

(** Alice rejects the release instead. *)
Definition rejectedByAlice : State :=
  step (aliceEnv (Some provider)) (RejectPendingTransaction arkAddress aliceWallet) released.

Definition rejectedPartialTx : PartialTx := push_rejection arbitratorPubkey releasePartialTx.

Definition rejectedPending : PendingTransaction :=
  set_status rejected (set_partialTx (Some rejectedPartialTx) releasePending).

(** Carol, the buyer, asks for a refund while the release is pending. *)
Definition carolEnv : Env := env (Some carolWallet) (Some provider) [coin 101].

Definition refundPending : PendingTransaction :=
  {| action := "Refund"; initiator := buyerPubkey; timestamp := 1000;
     status := pending_cosign;
     partialTx := Some
       {| vtxo := {| txid := "f00d"; vout := 0; value := 101 |};
          arkTx := [x70; x73; x62; x74; x0b];
          checkpoints := [[xc0; x0b]];
          requiredSigners := [arbitratorPubkey];
          initiatorSigned := true;
          approvals := [buyerPubkey];
          rejections := [] |} |}.

(** A rejection, a new action during the grace delay, and a second
    rejection: Alice rejects the release at 1000; at 2000 Carol asks for a
    refund; at 3000 Alice rejects the refund. *)
Definition idle : Env := env None None [].

Definition refundAsked : State :=
  run [ (aliceEnv (Some provider), RejectPendingTransaction arkAddress aliceWallet);
        (idle, Elapse 1000);
        (carolEnv, ExecuteContractAction arkAddress "Refund" carolWallet) ]
      released.

Definition refundRejected : State :=
  run [ (idle, Elapse 1000);
        (aliceEnv (Some provider), RejectPendingTransaction arkAddress aliceWallet) ]
      refundAsked.

End Scenario.

(** ** A directory of users *)
Module Directory.

(** The identifiers of the scenario's users are their keys. *)
Definition users : list User := [Scenario.carol; Scenario.bob; Scenario.alice].


(** Every friendly name is taken, and "Alice 1" too. *)
Definition crowded : UserManager.State :=
  {| UserManager.users := [];
     UserManager.usedNames := list_to_set (UserManager.friendlyNames ++ ["Alice 1"]);
     UserManager.stored := [];
     UserManager.shown := [] |}.


End Directory.

(** ** Vocabulary of the statements *)

(** The four keys of an [Options] record, in the order of [validateOptions]. *)
Definition namedKeys (o : VEscrow.Options) : list (string * Bytes) :=
  [ ("buyer", VEscrow.buyer o); ("seller", VEscrow.seller o);
    ("arbitrator", VEscrow.arbitrator o); ("server", VEscrow.server o) ].

Definition fourKeys (o : VEscrow.Options) : list Bytes :=
  [ VEscrow.buyer o; VEscrow.seller o; VEscrow.arbitrator o; VEscrow.server o ].


(** What the distinctness of the six scripts needs of the two encoders, on
    keys of 32 bytes: each is injective in the list of keys, and a script
    without timelock is never a script with one. *)
Definition keys32 (ks : list Bytes) : Prop := Forall (fun k => length k = 32%nat) ks.

Record encoders_distinguish (sdk : VEscrow.SDK) : Prop := {
  multisig_inj : forall ks ks',
    keys32 ks -> keys32 ks' ->
    VEscrow.MultisigTapscript_encode sdk ks = VEscrow.MultisigTapscript_encode sdk ks' ->
    ks = ks';
  csv_inj : forall ks ks' t,
    keys32 ks -> keys32 ks' ->
    VEscrow.CSVMultisigTapscript_encode sdk ks t
      = VEscrow.CSVMultisigTapscript_encode sdk ks' t ->
    ks = ks';
  multisig_not_csv : forall ks ks' t,
    keys32 ks -> keys32 ks' ->
    VEscrow.MultisigTapscript_encode sdk ks
      <> VEscrow.CSVMultisigTapscript_encode sdk ks' t;
}.

(** Every assignment to [contract.pendingTransaction], to one of its fields
    or to a field of its [partialTx] is an update of the slot of one
    contract. *)
Definition updPending (arkAddress : string)
    (g : option PendingTransaction -> option PendingTransaction) (s : State) : State :=
  set_contracts
    (alter (fun c => set_pendingTransaction (g (pendingTransaction c)) c) arkAddress) s.

(** The slot of [arkAddress] holds [v]. *)
Definition setSlot (arkAddress : string) (v : option PendingTransaction) (s : State) : State :=
  updPending arkAddress (fun _ => v) s.

(** The calls [evs] were made, in that order. *)
Definition logged (evs : list Event) (s : State) : State :=
  set_log (fun l => l ++ evs) s.

(** The contract stored under [a] has a pending transaction [p] with the
    partial transaction [x]: the state in which [approve] and [reject]
    pass their first guard. *)
Record pendingAt (s : State) (a : string) (c : EscrowContract)
    (p : PendingTransaction) (x : PartialTx) : Prop := {
  at_contract : contracts s !! a = Some c;
  at_pending : pendingTransaction c = Some p;
  at_partialTx : partialTx p = Some x;
}.

(** The calls to the Ark server among [evs]. *)
Definition chainCalls (evs : list Event) : list Event :=
  List.filter
    (fun e => match e with SubmitTx _ _ | FinalizeTx _ _ => true | _ => false end) evs.

Definition transfers (evs : list Event) : list Event :=
  List.filter (fun e => match e with SendTransaction _ => true | _ => false end) evs.

(** What the parties see of the pending transaction of a contract: its
    status, who approved and who rejected. *)
Definition observe (s : State) (a : string)
    : option Status * option (list string) * option (list string) :=
  (status <$> lookupPending s a,
   approvals <$> lookupPartialTx s a,
   rejections <$> lookupPartialTx s a).

(** The bytes stored in the pending transaction of a contract. *)
Definition storedBytes (s : State) (a : string) : option (Bytes * list Bytes) :=
  (fun x => (arkTx x, checkpoints x)) <$> lookupPartialTx s a.

(** The pending transaction [executeContractAction] stores: the initiator
    is its only approval and is not among the required signers, nobody has
    rejected, and it waits for co-signatures. *)
Record fresh (p : PendingTransaction) : Prop := {
  fresh_status : status p = pending_cosign;
  fresh_partialTx : exists x,
    partialTx p = Some x /\
    approvals x = [initiator p] /\
    rejections x = [] /\
    initiator p ∉ requiredSigners x;
}.

(** How [approve] and [reject] change a pending transaction [p] into [p']:
    the action, the initiator, the spent output and the required signers
    stay; approvals and rejections only grow at the end, by required
    signers; the status stays or becomes [rejected]. *)
Definition grows (required old new : list string) : Prop :=
  old `prefix_of` new /\ forall k, k ∈ new -> k ∈ old \/ k ∈ required.

Record evolves (p p' : PendingTransaction) : Prop := {
  ev_action : action p' = action p;
  ev_initiator : initiator p' = initiator p;
  ev_timestamp : timestamp p' = timestamp p;
  ev_status : status p' = status p \/ status p' = rejected;
  ev_partialTx :
    match partialTx p, partialTx p' with
    | Some x, Some x' =>
        vtxo x' = vtxo x /\
        requiredSigners x' = requiredSigners x /\
        grows (requiredSigners x) (approvals x) (approvals x') /\
        grows (requiredSigners x) (rejections x) (rejections x')
    | None, None => True
    | _, _ => False
    end;
}.

(** What one operation can do to the slot of a contract: clear it, store a
    fresh pending transaction, or let the one in place evolve. *)
Inductive slot_step (old : option PendingTransaction) : option PendingTransaction -> Prop :=
| slot_cleared : slot_step old None
| slot_created p : fresh p -> slot_step old (Some p)
| slot_evolved p p' : old = Some p -> evolves p p' -> slot_step old (Some p').

(** The invariant of section 3: every approval is by a required signer or
    by the initiator. *)
Definition approvals_within (p : PendingTransaction) : Prop :=
  forall x, partialTx p = Some x ->
  forall k, k ∈ approvals x -> k ∈ requiredSigners x \/ k = initiator p.

(** Only time passes: no method of the class is called. *)
Definition time_passes (op : Op) : Prop :=
  match op with
  | Elapse _ | FireTimer _ => True
  | _ => False
  end.

(** ** Vocabulary of the further statements *)

(** The key of [options] that a signer name of [getSpendingPaths] stands
    for. *)
Definition keyOf (o : VEscrow.Options) (signer : string) : option Bytes :=
  if String.eqb signer "buyer" then Some (VEscrow.buyer o)
  else if String.eqb signer "seller" then Some (VEscrow.seller o)
  else if String.eqb signer "arbitrator" then Some (VEscrow.arbitrator o)
  else if String.eqb signer "server" then Some (VEscrow.server o)
  else None.

(** The script that the type and the signers of a listed path describe. *)
Definition describedScript (sdk : VEscrow.SDK) (o : VEscrow.Options) (p : SpendingPath)
    : option Bytes :=
  keys ← mapM (keyOf o) (path_signers p);
  Some (match path_type p with
        | collaborative => VEscrow.MultisigTapscript_encode sdk keys
        | unilateral =>
            VEscrow.CSVMultisigTapscript_encode sdk keys (VEscrow.unilateralDelay o)
        end).

(** The three parties of a contract have three different keys. *)
Definition distinctParties (c : EscrowContract) : Prop :=
  NoDup [pubkey (buyer c); pubkey (seller c); pubkey (arbitrator c)].

(** The co-signers that [executeContractAction] records for an initiator:
    the signers the authorizer names, without the initiator. *)
Definition cosigners (act : string) (c : EscrowContract) (w : WalletInfo) : list string :=
  List.filter (fun pk => negb (String.eqb pk (wallet_pubkey w)))
    (getRequiredSignersForAction act c w).

(** An output of the indexer that is spent. *)
Definition spent (v : VirtualCoin) : Prop := truthy (vc_spentBy v) = true.

(** The sum of the values of the unspent outputs. *)
Definition unspentValue (vtxos : list VirtualCoin) : Z :=
  foldr Z.add 0 (vc_value <$> List.filter (fun v => negb (truthy (vc_spentBy v))) vtxos).

Definition totalAmount (outputs : list TxOutput) : Z :=
  foldr Z.add 0 (amount <$> outputs).

(** The three actions that spend the output of a contract. *)
Definition spendAction (act : string) : Prop :=
  toLowerCase act ∈ ["release"; "refund"; "direct settle"].

(** What does not depend on the pending transaction of a contract. *)
Definition terms (c : EscrowContract) : EscrowContract := set_pendingTransaction None c.

(** The last contract of an array of the transport that has the address
    [a]. *)
Definition lastWith (a : string) (cs : list (string * EscrowContract))
    : option EscrowContract :=
  snd <$> last (List.filter (fun c => String.eqb c.1 a) cs).

(** The changes that [approve] and [reject] make to a pending transaction:
    none; the signed spend transaction stored alone (a checkpoint could not
    be signed); the signatures and the approval of a required signer who had
    not approved; the rejection of a required signer. *)
Inductive moves (p : PendingTransaction) : PendingTransaction -> Prop :=
| move_none : moves p p
| move_signed x tx :
    partialTx p = Some x ->
    moves p (set_partialTx (Some (set_arkTx tx x)) p)
| move_approved x tx cps pk :
    partialTx p = Some x ->
    pk ∈ requiredSigners x -> pk ∉ approvals x ->
    moves p (set_partialTx (Some (push_approval pk (set_checkpoints cps (set_arkTx tx x)))) p)
| move_rejected x pk :
    partialTx p = Some x ->
    pk ∈ requiredSigners x ->
    moves p
      (set_status rejected
         (set_partialTx
            (Some (if includes (rejections x) pk then x else push_rejection pk x)) p)).

Inductive slot_moves (old : option PendingTransaction) : option PendingTransaction -> Prop :=
| slot_moves_cleared : slot_moves old None
| slot_moves_created p : fresh p -> slot_moves old (Some p)
| slot_moves_moved p p' : old = Some p -> moves p p' -> slot_moves old (Some p').

(** A pending transaction as the coordinator keeps it: it has its partial
    transaction and its status is never [approved]; nobody is twice among
    the approvals or the rejections; an approval is by a required signer or
    by the initiator and a rejection by a required signer; and the status
    is [rejected] exactly when somebody has rejected. *)
Record sound (p : PendingTransaction) : Prop := {
  sound_status : status p <> approved;
  sound_partialTx : exists x,
    partialTx p = Some x /\
    NoDup (approvals x) /\
    NoDup (rejections x) /\
    (forall k, k ∈ approvals x -> k ∈ requiredSigners x \/ k = initiator p) /\
    (forall k, k ∈ rejections x -> k ∈ requiredSigners x) /\
    (status p = rejected <-> rejections x <> []);
}.

(** Replacing the first element of a list that has the key of [y], or
    adding [y] at the end: what [Map.prototype.set] does to the entries of
    a map, and what [publishUser] and [publishContract] do to their
    arrays. *)
Fixpoint upsert {A} (key : A -> string) (y : A) (xs : list A) : list A :=
  match xs with
  | [] => [y]
  | x :: rest =>
      if String.eqb (key x) (key y) then y :: rest else x :: upsert key y rest
  end.

(** The first element of a list with the key [k]. *)
Definition firstWith {A} (key : A -> string) (k : string) (xs : list A) : option A :=
  List.find (fun x => String.eqb (key x) k) xs.

(** The name that the second loop of [assignFriendlyName] tries at
    [counter]. *)
Definition candidate (counter : nat) : string := "Alice " +:+ pretty counter.


(** * Properties of [VEscrow] *)

(** A closed statement settled by running the definitions. *)
Ltac evaluate := vm_compute; reflexivity.

(** ** [hex] *)

Lemma hex_decode_encode_byte (b : byte) (rest : string) :
  hex.decode (hex.encode_byte b rest) =
  match hex.decode rest with Some bs => Some (b :: bs) | None => None end.
Proof. destruct b; cbn; destruct (hex.decode rest); reflexivity. Qed.

Lemma hex_decode_encode (bs : Bytes) : hex.decode (hex.encode bs) = Some bs.
Proof.
  induction bs as [|b bs IH]; [reflexivity|].
  cbn [hex.encode]. rewrite hex_decode_encode_byte, IH. reflexivity.
Qed.

Lemma hex_encode_inj (a b : Bytes) : hex.encode a = hex.encode b -> a = b.
Proof.
  intros H. apply (f_equal hex.decode) in H.
  rewrite !hex_decode_encode in H. congruence.
Qed.

(** ** The size of [new Set(list)] *)

Lemma size_list_to_set_le (l : list string) :
  (size (list_to_set l : gset string) <= length l)%nat.
Proof.
  induction l as [|x l IH]; cbn [list_to_set length].
  - rewrite size_empty. lia.
  - rewrite size_union_alt, size_singleton.
    assert (size (list_to_set l ∖ {[x]} : gset string) <= size (list_to_set l : gset string))%nat
      as Hdiff.
    { apply subseteq_size. apply subseteq_difference_l. reflexivity. }
    lia.
Qed.

Lemma size_list_to_set_NoDup (l : list string) :
  size (list_to_set l : gset string) = length l <-> NoDup l.
Proof.
  split; [|apply size_list_to_set].
  induction l as [|x l IH]; intros Hsize; [constructor|].
  cbn [list_to_set length] in Hsize.
  pose proof (size_list_to_set_le l) as Hle.
  destruct (decide (x ∈ l)) as [Hin|Hnin].
  - assert (({[x]} ∪ list_to_set l : gset string) = list_to_set l) as Heq.
    { apply leibniz_equiv, subseteq_union_1, singleton_subseteq_l, elem_of_list_to_set, Hin. }
    rewrite Heq in Hsize. lia.
  - rewrite size_union in Hsize.
    2: { apply disjoint_singleton_l. rewrite elem_of_list_to_set. exact Hnin. }
    rewrite size_singleton in Hsize.
    constructor; [exact Hnin|]. apply IH. lia.
Qed.

(** ** [validateOptions] *)

Lemma checkKeyLengths_ok (keys : list (string * Bytes)) :
  keys32 (keys.*2) -> VEscrow.checkKeyLengths keys = Ok tt.
Proof.
  induction keys as [|[n k] keys IH]; cbn; intros H; [reflexivity|].
  inversion H as [|? ? Hk Hrest]; subst.
  destruct (decide (length k = 32%nat)); [auto|contradiction].
Qed.

Lemma checkKeyLengths_throw (keys : list (string * Bytes)) :
  ~ keys32 (keys.*2) ->
  exists n k, (n, k) ∈ keys /\ length k <> 32%nat /\
    VEscrow.checkKeyLengths keys = Throw (VEscrow.InvalidKeyLength n (length k)).
Proof.
  induction keys as [|[n k] keys IH]; cbn; intros H.
  - exfalso. apply H. constructor.
  - destruct (decide (length k = 32%nat)) as [Hk|Hk].
    + destruct IH as (n' & k' & Hin & Hlen & Hthrow).
      { intros Hrest. apply H. constructor; assumption. }
      exists n', k'. split; [right; exact Hin|]. split; assumption.
    + exists n, k. split; [left|]. split; [exact Hk|reflexivity].
Qed.

Lemma validateOptions_eq (o : VEscrow.Options) :
  VEscrow.validateOptions o =
  do _ <- VEscrow.checkKeyLengths (namedKeys o);
  if decide (size (list_to_set (hex.encode <$> fourKeys o) : gset string) = 4%nat)
  then Ok tt else Throw VEscrow.DuplicateKey.
Proof. reflexivity. Qed.

Lemma validateOptions_ok (o : VEscrow.Options) :
  keys32 (fourKeys o) -> NoDup (fourKeys o) -> VEscrow.validateOptions o = Ok tt.
Proof.
  intros Hlen Hnd. rewrite validateOptions_eq.
  rewrite (checkKeyLengths_ok (namedKeys o) Hlen). cbn [rbind].
  destruct (decide _) as [|Hsize]; [reflexivity|].
  exfalso. apply Hsize.
  change 4%nat with (length (hex.encode <$> fourKeys o)).
  apply (size_list_to_set_NoDup (hex.encode <$> fourKeys o)).
  apply NoDup_fmap_2; [intros a b; apply hex_encode_inj|exact Hnd].
Qed.

Lemma validateOptions_duplicate (o : VEscrow.Options) :
  keys32 (fourKeys o) -> ~ NoDup (fourKeys o) ->
  VEscrow.validateOptions o = Throw VEscrow.DuplicateKey.
Proof.
  intros Hlen Hdup. rewrite validateOptions_eq.
  rewrite (checkKeyLengths_ok (namedKeys o) Hlen). cbn [rbind].
  destruct (decide _) as [Hsize|]; [|reflexivity].
  exfalso. apply Hdup.
  apply (NoDup_fmap_1 hex.encode).
  apply size_list_to_set_NoDup. exact Hsize.
Qed.

(** C7. Constructing the escrow script fails with [InvalidKeyLength] as soon
    as one of the four keys is not 32 bytes long (the error names the first
    such key, in the order buyer, seller, arbitrator, server, and its
    length), and with [DuplicateKey] when the four keys have 32 bytes and two
    of them are equal; in both cases the constructor returns the exception
    and no [Script] object. *)
Theorem invalid_options_rejected (sdk : VEscrow.SDK) (o : VEscrow.Options) :
  (~ keys32 (fourKeys o) ->
     exists n k, (n, k) ∈ namedKeys o /\ length k <> 32%nat /\
       VEscrow.validateOptions o = Throw (VEscrow.InvalidKeyLength n (length k)) /\
       VEscrow.new_Script sdk o = Throw (VEscrow.InvalidKeyLength n (length k)))
  /\
  (keys32 (fourKeys o) -> ~ NoDup (fourKeys o) ->
     VEscrow.validateOptions o = Throw VEscrow.DuplicateKey /\
     VEscrow.new_Script sdk o = Throw VEscrow.DuplicateKey).
Proof.
  split.
  - intros Hlen.
    destruct (checkKeyLengths_throw (namedKeys o) Hlen) as (n & k & Hin & Hk & Hthrow).
    exists n, k. split; [exact Hin|]. split; [exact Hk|].
    assert (VEscrow.validateOptions o = Throw (VEscrow.InvalidKeyLength n (length k))) as Hv.
    { rewrite validateOptions_eq, Hthrow. reflexivity. }
    split; [exact Hv|]. unfold VEscrow.new_Script. rewrite Hv. reflexivity.
  - intros Hlen Hdup.
    pose proof (validateOptions_duplicate o Hlen Hdup) as Hv.
    split; [exact Hv|]. unfold VEscrow.new_Script. rewrite Hv. reflexivity.
Qed.

Lemma invalid_options_rejected_witness :
  (exists n k, (n, k) ∈ namedKeys Scenario.shortKeyOptions /\ length k <> 32%nat /\
     VEscrow.validateOptions Scenario.shortKeyOptions
       = Throw (VEscrow.InvalidKeyLength n (length k)) /\
     VEscrow.new_Script Reference.sdk Scenario.shortKeyOptions
       = Throw (VEscrow.InvalidKeyLength n (length k)))
  /\ (VEscrow.validateOptions Scenario.duplicateKeyOptions = Throw VEscrow.DuplicateKey /\
      VEscrow.new_Script Reference.sdk Scenario.duplicateKeyOptions
        = Throw VEscrow.DuplicateKey).
Proof.
  split.
  - apply (invalid_options_rejected Reference.sdk Scenario.shortKeyOptions).
    intros Hlen. inversion Hlen as [|? ? Hb _]. vm_compute in Hb. discriminate.
  - apply (invalid_options_rejected Reference.sdk Scenario.duplicateKeyOptions).
    + repeat constructor.
    + intros Hnd. inversion Hnd as [|? ? _ Hnd']. inversion Hnd' as [|? ? Hnin _].
      apply Hnin. left.
Defined.

Example short_key_error :
  VEscrow.new_Script Reference.sdk Scenario.shortKeyOptions
    = Throw (VEscrow.InvalidKeyLength "buyer" 31).
Proof. evaluate. Qed.

Example duplicate_key_error :
  VEscrow.new_Script Reference.sdk Scenario.duplicateKeyOptions
    = Throw VEscrow.DuplicateKey.
Proof. evaluate. Qed.

Example short_key_message :
  VEscrow.message (VEscrow.InvalidKeyLength "buyer" 31)
    = "Invalid buyer public key length: expected 32, got 31".
Proof. evaluate. Qed.

(** ** The six spending paths *)

Lemma new_Script_ok (sdk : VEscrow.SDK) (o : VEscrow.Options) :
  keys32 (fourKeys o) -> NoDup (fourKeys o) ->
  exists sc, VEscrow.new_Script sdk o = Ok sc /\
    VEscrow.options sc = o /\
    VEscrow.scripts sc =
      [ VEscrow.MultisigTapscript_encode sdk
          [VEscrow.seller o; VEscrow.arbitrator o; VEscrow.server o];
        VEscrow.MultisigTapscript_encode sdk
          [VEscrow.buyer o; VEscrow.arbitrator o; VEscrow.server o];
        VEscrow.MultisigTapscript_encode sdk
          [VEscrow.buyer o; VEscrow.seller o; VEscrow.server o];
        VEscrow.CSVMultisigTapscript_encode sdk
          [VEscrow.seller o; VEscrow.arbitrator o] (VEscrow.unilateralDelay o);
        VEscrow.CSVMultisigTapscript_encode sdk
          [VEscrow.buyer o; VEscrow.arbitrator o] (VEscrow.unilateralDelay o);
        VEscrow.CSVMultisigTapscript_encode sdk
          [VEscrow.buyer o; VEscrow.seller o] (VEscrow.unilateralDelay o) ] /\
    [ VEscrow.releaseScript sc; VEscrow.refundScript sc; VEscrow.directScript sc;
      VEscrow.unilateralReleaseScript sc; VEscrow.unilateralRefundScript sc;
      VEscrow.unilateralDirectScript sc ] = hex.encode <$> VEscrow.scripts sc.
Proof.
  intros Hlen Hnd. unfold VEscrow.new_Script.
  rewrite (validateOptions_ok o Hlen Hnd). cbn [rbind].
  eexists. split; [reflexivity|]. cbn. auto.
Qed.

Lemma four_distinct (b s a v : Bytes) :
  NoDup [b; s; a; v] -> b <> s /\ b <> a /\ b <> v /\ s <> a /\ s <> v /\ a <> v.
Proof.
  intros H.
  apply NoDup_cons in H as [Hb H].
  apply NoDup_cons in H as [Hs H].
  apply NoDup_cons in H as [Ha _].
  apply not_elem_of_cons in Hb as [Hbs Hb].
  apply not_elem_of_cons in Hb as [Hba Hb].
  apply not_elem_of_cons in Hb as [Hbv _].
  apply not_elem_of_cons in Hs as [Hsa Hs].
  apply not_elem_of_cons in Hs as [Hsv _].
  apply not_elem_of_cons in Ha as [Hav _].
  tauto.
Qed.

Lemma keys32_four (b s a v : Bytes) :
  keys32 [b; s; a; v] ->
  keys32 [s; a; v] /\ keys32 [b; a; v] /\ keys32 [b; s; v] /\
  keys32 [s; a] /\ keys32 [b; a] /\ keys32 [b; s].
Proof.
  unfold keys32. rewrite !Forall_cons. intros (Hb & Hs & Ha & Hv & Hnil).
  repeat split; repeat (apply Forall_cons; split); auto.
Qed.

(** C8. For four pairwise distinct keys of 32 bytes and any timelock, the
    constructor succeeds; a second construction from options with the same
    four keys and the same timelock succeeds too and derives the same
    address, whatever the prefix and server key handed to [address]; and the
    six scripts handed to [VtxoScript] (release, refund, direct and their
    three unilateral forms), as well as their six hex strings kept by the
    class, are pairwise distinct. The two encoders of the SDK are assumed
    injective in the keys and to have disjoint images
    ([encoders_distinguish]). *)
Theorem script_factory_deterministic_and_distinct
    (sdk : VEscrow.SDK) (o : VEscrow.Options) :
  encoders_distinguish sdk ->
  keys32 (fourKeys o) ->
  NoDup (fourKeys o) ->
  exists sc,
    VEscrow.new_Script sdk o = Ok sc /\
    (forall o',
       VEscrow.buyer o' = VEscrow.buyer o ->
       VEscrow.seller o' = VEscrow.seller o ->
       VEscrow.arbitrator o' = VEscrow.arbitrator o ->
       VEscrow.server o' = VEscrow.server o ->
       VEscrow.unilateralDelay o' = VEscrow.unilateralDelay o ->
       exists sc', VEscrow.new_Script sdk o' = Ok sc' /\
         forall prefix serverPubKey,
           VEscrow.address sdk sc' prefix serverPubKey
             = VEscrow.address sdk sc prefix serverPubKey) /\
    length (VEscrow.scripts sc) = 6%nat /\
    NoDup (VEscrow.scripts sc) /\
    NoDup [ VEscrow.releaseScript sc; VEscrow.refundScript sc; VEscrow.directScript sc;
            VEscrow.unilateralReleaseScript sc; VEscrow.unilateralRefundScript sc;
            VEscrow.unilateralDirectScript sc ].
Proof.
  intros Henc Hlen Hnd.
  destruct (new_Script_ok sdk o Hlen Hnd) as (sc & Hnew & _ & Hscripts & Hhex).
  exists sc. split; [exact Hnew|].
  assert (NoDup (VEscrow.scripts sc)) as Hdistinct.
  { rewrite Hscripts.
    destruct (four_distinct _ _ _ _ Hnd) as (Hbs & Hba & Hbv & Hsa & Hsv & Hav).
    destruct (keys32_four _ _ _ _ Hlen) as (K1 & K2 & K3 & K4 & K5 & K6).
    destruct Henc as [Hm Hc Hmc].
    repeat (apply NoDup_cons; split); try apply NoDup_nil_2;
      rewrite ?elem_of_cons, elem_of_nil;
      intros Hin; destruct_or?;
      repeat match goal with
      | H : False |- _ => destruct H
      | H : VEscrow.MultisigTapscript_encode _ _ = VEscrow.CSVMultisigTapscript_encode _ _ _
          |- _ => apply Hmc in H; [destruct H|assumption|assumption]
      | H : VEscrow.MultisigTapscript_encode _ _ = VEscrow.MultisigTapscript_encode _ _
          |- _ => apply Hm in H; [|assumption|assumption]
      | H : VEscrow.CSVMultisigTapscript_encode _ _ _ = VEscrow.CSVMultisigTapscript_encode _ _ _
          |- _ => apply Hc in H; [|assumption|assumption]
      end; congruence. }
  split; [|split; [rewrite Hscripts; reflexivity|split; [exact Hdistinct|]]].
  - intros [b' s' a' v' t'] Eb Es Ea Ev Et. cbn in Eb, Es, Ea, Ev, Et. subst.
    exists sc. split; [destruct o; exact Hnew|reflexivity].
  - rewrite Hhex. apply NoDup_fmap_2; [intros x y; apply hex_encode_inj|exact Hdistinct].
Qed.

(** The reference encoders have the assumed properties. *)

Lemma multisig_head (k : Bytes) (rest : list Bytes) :
  exists tail, Reference.multisig (k :: rest) = x20 :: k ++ tail /\
    match rest with
    | [] => tail = [xac]
    | _ :: _ => tail = xad :: Reference.multisig rest
    end.
Proof. destruct rest; eexists; split; reflexivity. Qed.

Lemma reference_multisig_inj (ks ks' : list Bytes) :
  keys32 ks -> keys32 ks' -> Reference.multisig ks = Reference.multisig ks' -> ks = ks'.
Proof.
  revert ks'. induction ks as [|k ks IH]; intros [|k' ks'] H1 H2 Heq;
    try reflexivity; try (destruct ks; discriminate); try (destruct ks'; discriminate).
  inversion H1 as [|? ? Hk Hks]; inversion H2 as [|? ? Hk' Hks']; subst.
  destruct (multisig_head k ks) as (t & Et & Ht).
  destruct (multisig_head k' ks') as (t' & Et' & Ht').
  rewrite Et, Et' in Heq. injection Heq as Heq.
  apply app_inj_1 in Heq as [-> Htail]; [|congruence].
  f_equal. destruct ks, ks'; rewrite Ht, Ht' in Htail; try discriminate; [reflexivity|].
  injection Htail as Htail. apply IH; assumption.
Qed.

Lemma reference_encoders_distinguish : encoders_distinguish Reference.sdk.
Proof.
  split; cbn.
  - apply reference_multisig_inj.
  - intros ks ks' t H1 H2 Heq. injection Heq as Heq.
    apply reference_multisig_inj; assumption.
  - intros [|k ks] ks' t _ _; [discriminate|].
    destruct (multisig_head k ks) as (tl & -> & _). discriminate.
Qed.

Lemma script_factory_deterministic_and_distinct_witness :
  exists sc,
    VEscrow.new_Script Reference.sdk Scenario.options = Ok sc /\
    (forall o',
       VEscrow.buyer o' = VEscrow.buyer Scenario.options ->
       VEscrow.seller o' = VEscrow.seller Scenario.options ->
       VEscrow.arbitrator o' = VEscrow.arbitrator Scenario.options ->
       VEscrow.server o' = VEscrow.server Scenario.options ->
       VEscrow.unilateralDelay o' = VEscrow.unilateralDelay Scenario.options ->
       exists sc', VEscrow.new_Script Reference.sdk o' = Ok sc' /\
         forall prefix serverPubKey,
           VEscrow.address Reference.sdk sc' prefix serverPubKey
             = VEscrow.address Reference.sdk sc prefix serverPubKey) /\
    length (VEscrow.scripts sc) = 6%nat /\
    NoDup (VEscrow.scripts sc) /\
    NoDup [ VEscrow.releaseScript sc; VEscrow.refundScript sc; VEscrow.directScript sc;
            VEscrow.unilateralReleaseScript sc; VEscrow.unilateralRefundScript sc;
            VEscrow.unilateralDirectScript sc ].
Proof.
  apply (script_factory_deterministic_and_distinct Reference.sdk Scenario.options).
  - exact reference_encoders_distinguish.
  - repeat constructor.
  - repeat (apply NoDup_cons; split); try apply NoDup_nil_2;
      rewrite ?elem_of_cons, elem_of_nil; vm_compute; intuition discriminate.
Defined.

(** * Properties of [ContractManager] *)

(** ** JavaScript helpers *)

Lemma includes_elem_of (l : list string) (x : string) : includes l x = true <-> x ∈ l.
Proof.
  unfold includes. rewrite existsb_exists, list_elem_of_In. split.
  - intros (y & Hin & Heq). apply String.eqb_eq in Heq. subst. exact Hin.
  - intros Hin. exists x. split; [exact Hin|apply String.eqb_refl].
Qed.

Lemma includes_false (l : list string) (x : string) : includes l x = false <-> x ∉ l.
Proof.
  rewrite <- includes_elem_of. destruct (includes l x); split; congruence.
Qed.

(** ** The slot of a contract *)

Lemma assignPending_eq (a : string) (p : option PendingTransaction) (s : State) :
  assignPending a p s = (Ok tt, setSlot a p s).
Proof. reflexivity. Qed.

Lemma mutatePending_eq (a : string) (f : PendingTransaction -> PendingTransaction)
    (s : State) :
  mutatePending a f s = (Ok tt, updPending a (fmap f) s).
Proof. reflexivity. Qed.

Lemma mutatePartialTx_eq (a : string) (f : PartialTx -> PartialTx) (s : State) :
  mutatePartialTx a f s
  = (Ok tt, updPending a (fmap (fun p => set_partialTx (f <$> partialTx p) p)) s).
Proof. reflexivity. Qed.

Lemma updateContractPendingTransaction_eq (a : string) (p : option PendingTransaction)
    (s : State) :
  updateContractPendingTransaction a p s = (Ok tt, setSlot a p s).
Proof.
  unfold updateContractPendingTransaction, bind, get, modify, ret, setSlot, updPending,
    set_contracts.
  destruct (contracts s !! a) as [c|] eqn:Hc; cbn; do 2 f_equal.
  - destruct s as [m ts t l]; cbn in *. f_equal.
    apply map_eq. intros k. destruct (decide (a = k)) as [<-|Hne].
    + rewrite lookup_insert_eq, lookup_alter_eq, Hc. reflexivity.
    + rewrite lookup_insert_ne, lookup_alter_ne by exact Hne. reflexivity.
  - destruct s as [m ts t l]; cbn in *. f_equal.
    apply map_eq. intros k. destruct (decide (a = k)) as [<-|Hne].
    + rewrite lookup_alter_eq, Hc. reflexivity.
    + rewrite lookup_alter_ne by exact Hne. reflexivity.
Qed.

Lemma lookupPending_updPending (a a' : string)
    (g : option PendingTransaction -> option PendingTransaction) (s : State) :
  lookupPending (updPending a g s) a' =
  if decide (a = a') then
    match contracts s !! a with
    | Some _ => g (lookupPending s a)
    | None => None
    end
  else lookupPending s a'.
Proof.
  unfold lookupPending, updPending, set_contracts; cbn.
  destruct (decide (a = a')) as [<-|Hne].
  - rewrite lookup_alter_eq. destruct (contracts s !! a); reflexivity.
  - rewrite lookup_alter_ne by exact Hne. reflexivity.
Qed.

Lemma pendingAt_lookup (s : State) (a : string) (c : EscrowContract)
    (p : PendingTransaction) (x : PartialTx) :
  pendingAt s a c p x -> lookupPending s a = Some p /\ lookupPartialTx s a = Some x.
Proof.
  intros [Hc Hp Hx]. unfold lookupPartialTx, lookupPending. rewrite Hc, Hp, Hx. auto.
Qed.

Lemma updPending_setSlot (a : string)
    (g : option PendingTransaction -> option PendingTransaction) (s : State)
    (old : option PendingTransaction) :
  lookupPending s a = old -> updPending a g s = setSlot a (g old) s.
Proof.
  intros Hold. unfold setSlot, updPending, set_contracts. f_equal.
  apply map_eq. intros k. destruct (decide (a = k)) as [<-|Hne].
  - rewrite !lookup_alter_eq. unfold lookupPending in Hold.
    destruct (contracts s !! a) as [c|]; cbn; [rewrite Hold|]; reflexivity.
  - rewrite !lookup_alter_ne by exact Hne. reflexivity.
Qed.

Lemma lookupPending_setSlot (a a' : string) (v : option PendingTransaction) (s : State) :
  lookupPending (setSlot a v s) a' =
  if decide (a = a') then
    match contracts s !! a with Some _ => v | None => None end
  else lookupPending s a'.
Proof. apply lookupPending_updPending. Qed.

Lemma lookupPending_setSlot_eq (a : string) (v : option PendingTransaction) (s : State)
    (c : EscrowContract) :
  contracts s !! a = Some c -> lookupPending (setSlot a v s) a = v.
Proof.
  intros Hc. rewrite lookupPending_setSlot, Hc. destruct (decide (a = a)); congruence.
Qed.

Lemma contracts_setSlot_eq (a : string) (v : option PendingTransaction) (s : State)
    (c : EscrowContract) :
  contracts s !! a = Some c ->
  contracts (setSlot a v s) !! a = Some (set_pendingTransaction v c).
Proof. intros Hc. cbn. rewrite lookup_alter_eq, Hc. reflexivity. Qed.

Lemma setSlot_setSlot (a : string) (v1 v2 : option PendingTransaction) (s : State) :
  setSlot a v2 (setSlot a v1 s) = setSlot a v2 s.
Proof.
  unfold setSlot, updPending, set_contracts; cbn. f_equal.
  apply map_eq. intros k. destruct (decide (a = k)) as [<-|Hne].
  - rewrite !lookup_alter_eq. destruct (contracts s !! a); reflexivity.
  - rewrite !lookup_alter_ne by exact Hne. reflexivity.
Qed.

Lemma pendingAt_setSlot (a : string) (s : State) (c : EscrowContract)
    (p p' : PendingTransaction) (x x' : PartialTx) :
  pendingAt s a c p x -> partialTx p' = Some x' ->
  pendingAt (setSlot a (Some p') s) a (set_pendingTransaction (Some p') c) p' x'.
Proof.
  intros [Hc _ _] Hx'. split; [|reflexivity|exact Hx'].
  apply contracts_setSlot_eq, Hc.
Qed.

Lemma pendingAt_logged (evs : list Event) (a : string) (s : State) (c : EscrowContract)
    (p : PendingTransaction) (x : PartialTx) :
  pendingAt s a c p x -> pendingAt (logged evs s) a c p x.
Proof. intros [Hc Hp Hx]. split; assumption. Qed.

Lemma setSlot_logged (a : string) (v : option PendingTransaction) (evs : list Event)
    (s : State) :
  setSlot a v (logged evs s) = logged evs (setSlot a v s).
Proof. reflexivity. Qed.

Lemma contracts_logged (evs : list Event) (s : State) :
  contracts (logged evs s) = contracts s.
Proof. reflexivity. Qed.

Lemma logged_logged (e1 e2 : list Event) (s : State) :
  logged e2 (logged e1 s) = logged (e1 ++ e2) s.
Proof. unfold logged, set_log; cbn. f_equal. symmetry. apply app_assoc. Qed.

(** ** [signTransactionsForUser] *)

Lemma signTransactionsForUser_eq (env : Env) (s : State) (a : string) (w : WalletInfo)
    (c : EscrowContract) (p : PendingTransaction) (x : PartialTx) :
  pendingAt s a c p x ->
  signTransactionsForUser env a w s =
  match getWalletForSigner env (wallet_pubkey w) with
  | None =>
      (Throw ("Wallet " +:+ getUserNameByPubkey (wallet_pubkey w) c
              +:+ " is not authorized to sign this transaction"), s)
  | Some authorizedWallet =>
      match sign (identity authorizedWallet) (arkTx x) None with
      | Throw e => (Throw ("Failed to sign transactions: " +:+ e), s)
      | Ok signedPSBT =>
          let s1 := setSlot a (Some (set_partialTx (Some (set_arkTx signedPSBT x)) p)) s in
          match mapR (fun cp => sign (identity authorizedWallet) cp (Some [0%nat]))
                     (checkpoints x) with
          | Throw e => (Throw ("Failed to sign transactions: " +:+ e), s1)
          | Ok signedCheckpoints =>
              (Ok tt,
               setSlot a
                 (Some (set_partialTx
                    (Some (set_checkpoints signedCheckpoints (set_arkTx signedPSBT x))) p)) s)
          end
      end
  end.
Proof.
  intros Hat. destruct (pendingAt_lookup _ _ _ _ _ Hat) as [Hlp Hlx].
  destruct Hat as [Hc Hp Hx].
  unfold signTransactionsForUser, bind, get. rewrite Hc, Hlx.
  destruct (getWalletForSigner env (wallet_pubkey w)) as [aw|]; [|reflexivity].
  unfold try_catch, lift, throw.
  destruct (sign (identity aw) (arkTx x) None) as [tx'|e]; [|reflexivity].
  rewrite mutatePartialTx_eq.
  rewrite (updPending_setSlot a _ s (Some p) Hlp). cbn [fmap option_fmap option_map].
  rewrite Hx. cbn [fmap option_fmap option_map].
  destruct (mapR _ (checkpoints x)) as [cps'|e]; [|reflexivity].
  rewrite mutatePartialTx_eq.
  erewrite updPending_setSlot; [|apply (lookupPending_setSlot_eq _ _ _ _ Hc)].
  rewrite setSlot_setSlot. reflexivity.
Qed.

(** ** [executeMultiSigTransaction] *)

Lemma executeMultiSigTransaction_eq (env : Env) (s : State) (a : string)
    (c : EscrowContract) (p : PendingTransaction) (x : PartialTx) :
  pendingAt s a c p x ->
  executeMultiSigTransaction env a s =
  (Ok tt,
   let failed e :=
     Notify error ("Failed to execute " +:+ action p +:+ ": " +:+ or_else e "Unknown error") in
   let s0 :=
     logged [Notify info ("All signatures collected. Executing " +:+ action p +:+ "...")] s in
   match getProvider env with
   | None => logged [failed "Not connected to Ark server"] s0
   | Some arkProvider =>
       let s1 := logged [SubmitTx (arkTx x) (checkpoints x)] s0 in
       match submitTx arkProvider (arkTx x) (checkpoints x) with
       | Throw e => logged [failed e] s1
       | Ok arkTxid =>
           let s2 :=
             logged [FinalizeTx arkTxid (checkpoints x)]
               (logged [Notify success
                          (action p +:+ " transaction submitted! ID: " +:+ arkTxid)] s1) in
           match finalizeTx arkProvider arkTxid (checkpoints x) with
           | Throw e => logged [failed e] s2
           | Ok _ =>
               setSlot a None
                 (logged [Notify success
                            (action p +:+ " transaction finalized successfully!")] s2)
           end
       end
   end).
Proof.
  intros Hat. destruct (pendingAt_lookup _ _ _ _ _ Hat) as [Hlp Hlx].
  unfold executeMultiSigTransaction, bind, get. rewrite Hlp, Hlx.
  unfold try_catch, lift, throw, showInfo, showSuccess, showError, emit, modify.
  destruct (getProvider env) as [pr|]; [|reflexivity].
  destruct (submitTx pr (arkTx x) (checkpoints x)) as [arkTxid|e]; [|reflexivity].
  destruct (finalizeTx pr arkTxid (checkpoints x)) as [[]|e]; [|reflexivity].
  rewrite assignPending_eq, updateContractPendingTransaction_eq.
  rewrite setSlot_setSlot. reflexivity.
Qed.

(** ** [approvePendingTransaction] *)

(** The partial transaction once [pk] has signed and approved. *)
Lemma approve_signed_eq (env : Env) (s : State) (a : string) (w authorizedWallet : WalletInfo)
    (c : EscrowContract) (p : PendingTransaction) (x : PartialTx)
    (signedPSBT : Bytes) (signedCheckpoints : list Bytes) :
  pendingAt s a c p x ->
  wallet_pubkey w ∈ requiredSigners x ->
  wallet_pubkey w ∉ approvals x ->
  getWalletForSigner env (wallet_pubkey w) = Some authorizedWallet ->
  sign (identity authorizedWallet) (arkTx x) None = Ok signedPSBT ->
  mapR (fun cp => sign (identity authorizedWallet) cp (Some [0%nat])) (checkpoints x)
    = Ok signedCheckpoints ->
  let x1 :=
    push_approval (wallet_pubkey w)
      (set_checkpoints signedCheckpoints (set_arkTx signedPSBT x)) in
  let p1 := set_partialTx (Some x1) p in
  let s1 :=
    setSlot a (Some p1)
      (logged [Notify info ("Signing " +:+ action p +:+ " transaction...")] s) in
  let allRequiredSigners := requiredSigners x ++ [initiator p] in
  pendingAt s1 a (set_pendingTransaction (Some p1) c) p1 x1 /\
  approvePendingTransaction env a w s =
  if forallb (includes (approvals x1)) allRequiredSigners
  then executeMultiSigTransaction env a s1
  else
    (Ok tt,
     logged
       [Notify success
          ("Transaction signed and approved. Waiting for signatures from: "
           +:+ join ", "
                 (List.map (fun pk => getUserNameByPubkey pk c)
                    (List.filter (fun pk => negb (includes (approvals x1) pk))
                       allRequiredSigners))
           +:+ ".")] s1).
Proof.
  intros Hat Hreq Happ Hw Hsign Hcps x1 p1 s1 allRequiredSigners.
  assert (pendingAt s1 a (set_pendingTransaction (Some p1) c) p1 x1) as Hat1.
  { apply pendingAt_setSlot with (p := p) (x := x); [|reflexivity].
    apply pendingAt_logged, Hat. }
  split; [exact Hat1|].
  destruct (pendingAt_lookup _ _ _ _ _ Hat) as [Hlp Hlx].
  apply includes_elem_of in Hreq. apply includes_false in Happ.
  unfold approvePendingTransaction, bind at 1, get.
  rewrite (at_contract _ _ _ _ _ Hat), Hlp, Hlx, Hreq, Happ. cbn [negb].
  unfold try_catch, bind, showInfo, showSuccess, emit, modify, get.
  rewrite (signTransactionsForUser_eq env _ a w c p x) by (apply pendingAt_logged, Hat).
  rewrite Hw, Hsign, Hcps. cbv beta iota zeta.
  rewrite mutatePartialTx_eq.
  erewrite updPending_setSlot;
    [|apply (lookupPending_setSlot_eq _ _ _ c), (at_contract _ _ _ _ _ Hat)].
  rewrite setSlot_setSlot. cbn [fmap option_fmap option_map partialTx set_partialTx].
  cbv beta iota zeta.
  fold x1.
  match goal with
  | |- context [setSlot a ?v (set_log ?f s)] =>
      change (setSlot a v (set_log f s)) with s1
  end.
  change (approvals x ++ [wallet_pubkey w]) with (approvals x1).
  fold allRequiredSigners.
  destruct (forallb (includes (approvals x1)) allRequiredSigners).
  - rewrite (executeMultiSigTransaction_eq env s1 a _ p1 x1 Hat1). reflexivity.
  - rewrite updateContractPendingTransaction_eq.
    assert (lookupPending s1 a = Some p1) as Hl1 by apply (pendingAt_lookup _ _ _ _ _ Hat1).
    change (lookupPending (set_log ?f s1) a) with (lookupPending s1 a). rewrite Hl1.
    change (setSlot a (Some p1) (set_log ?f s1)) with (set_log f (setSlot a (Some p1) s1)).
    unfold s1 at 1. rewrite setSlot_setSlot. reflexivity.
Qed.

Lemma forallb_includes (l req : list string) :
  forallb (includes l) req = true <-> req ⊆ l.
Proof.
  rewrite forallb_forall. split.
  - intros H k Hk. apply includes_elem_of, H, list_elem_of_In, Hk.
  - intros H k Hk. apply includes_elem_of, H, list_elem_of_In, Hk.
Qed.

(** The completion test depends on the approvals as a set only. *)
Lemma allApproved_order (l l' req : list string) :
  l ≡ₚ l' -> forallb (includes l) req = forallb (includes l') req.
Proof.
  intros Hperm. apply eq_true_iff_eq. rewrite !forallb_includes.
  split; intros H k Hk; [rewrite <- Hperm|rewrite Hperm]; auto.
Qed.

(** C3. After a signer of [requiredSigners] who had not approved has signed
    the spend transaction and every checkpoint, the approval is recorded and
    completion is tested by membership: every key of [requiredSigners] and
    the initiator must occur in [approvals]. When the test holds and the
    Ark server answers, [submitTx] is called once with the signed bytes and,
    once it has returned an id, [finalizeTx] is called once with that id and
    the same checkpoints; when both succeed the pending transaction is
    cleared. When the server is not connected, or [submitTx] or [finalizeTx]
    fails, no further call is made and the pending transaction stays, with
    the new signatures and the new approval. When the test fails there is no
    call to the server and the pending transaction stays likewise. *)
Theorem approve_completion (env : Env) (s : State) (a : string)
    (w authorizedWallet : WalletInfo) (c : EscrowContract) (p : PendingTransaction)
    (x : PartialTx) (signedPSBT : Bytes) (signedCheckpoints : list Bytes) :
  pendingAt s a c p x ->
  wallet_pubkey w ∈ requiredSigners x ->
  wallet_pubkey w ∉ approvals x ->
  getWalletForSigner env (wallet_pubkey w) = Some authorizedWallet ->
  sign (identity authorizedWallet) (arkTx x) None = Ok signedPSBT ->
  mapR (fun cp => sign (identity authorizedWallet) cp (Some [0%nat])) (checkpoints x)
    = Ok signedCheckpoints ->
  let x1 :=
    push_approval (wallet_pubkey w)
      (set_checkpoints signedCheckpoints (set_arkTx signedPSBT x)) in
  let p1 := set_partialTx (Some x1) p in
  let s' := exec (approvePendingTransaction env a w) s in
  let submit := SubmitTx signedPSBT signedCheckpoints in
  exists evs,
    log s' = log s ++ evs /\
    (requiredSigners x ++ [initiator p] ⊆ approvals x1 ->
       match getProvider env with
       | None => chainCalls evs = [] /\ lookupPending s' a = Some p1
       | Some arkProvider =>
           match submitTx arkProvider signedPSBT signedCheckpoints with
           | Throw _ => chainCalls evs = [submit] /\ lookupPending s' a = Some p1
           | Ok arkTxid =>
               chainCalls evs = [submit; FinalizeTx arkTxid signedCheckpoints] /\
               match finalizeTx arkProvider arkTxid signedCheckpoints with
               | Throw _ => lookupPending s' a = Some p1
               | Ok _ => lookupPending s' a = None
               end
           end
       end) /\
    (~ requiredSigners x ++ [initiator p] ⊆ approvals x1 ->
       chainCalls evs = [] /\ lookupPending s' a = Some p1).
Proof.
  intros Hat Hreq Happ Hw Hsign Hcps x1 p1 s' submit.
  destruct (approve_signed_eq env s a w authorizedWallet c p x signedPSBT signedCheckpoints
              Hat Hreq Happ Hw Hsign Hcps) as [Hat1 Heq].
  fold x1 p1 in Hat1, Heq.
  set (s1 := setSlot a (Some p1) (logged _ s)) in Hat1, Heq.
  assert (lookupPending s1 a = Some p1) as Hl1 by apply (pendingAt_lookup _ _ _ _ _ Hat1).
  assert (forall evs st, lookupPending (logged evs st) a = lookupPending st a) as Hlog
    by reflexivity.
  unfold s', exec. rewrite Heq. clear Heq.
  destruct (forallb (includes (approvals x1)) (requiredSigners x ++ [initiator p]))
    eqn:Hall.
  - apply forallb_includes in Hall.
    rewrite (executeMultiSigTransaction_eq env s1 a _ p1 x1 Hat1). cbn [snd].
    cbv zeta.
    destruct (getProvider env) as [pr|].
    + change (arkTx x1) with signedPSBT. change (checkpoints x1) with signedCheckpoints.
      destruct (submitTx pr signedPSBT signedCheckpoints) as [arkTxid|e].
      * destruct (finalizeTx pr arkTxid signedCheckpoints) as [[]|e].
        -- eexists. split; [cbn; rewrite <- !app_assoc; reflexivity|].
           split; [intros _|intros Hn; contradiction].
           split; [reflexivity|].
           rewrite lookupPending_setSlot.
           destruct (decide (a = a)); [|congruence].
           destruct (contracts _ !! a); reflexivity.
        -- eexists. split; [cbn; rewrite <- !app_assoc; reflexivity|].
           split; [intros _|intros Hn; contradiction].
           split; [reflexivity|]. rewrite !Hlog. exact Hl1.
      * eexists. split; [cbn; rewrite <- !app_assoc; reflexivity|].
        split; [intros _|intros Hn; contradiction].
        split; [reflexivity|]. rewrite !Hlog. exact Hl1.
    + eexists. split; [cbn; rewrite <- !app_assoc; reflexivity|].
      split; [intros _|intros Hn; contradiction].
      split; [reflexivity|]. rewrite !Hlog. exact Hl1.
  - assert (~ requiredSigners x ++ [initiator p] ⊆ approvals x1) as Hnot.
    { intros Hsub. apply forallb_includes in Hsub. congruence. }
    cbn [snd]. eexists. split; [cbn; rewrite <- !app_assoc; reflexivity|].
    split; [intros Hsub; contradiction|intros _].
    split; [reflexivity|]. rewrite !Hlog. exact Hl1.
Qed.

Lemma approve_completion_witness :
  let s' :=
    exec (approvePendingTransaction (Scenario.aliceEnv (Some Scenario.provider))
            Scenario.arkAddress Scenario.aliceWallet) Scenario.released in
  exists evs,
    log s' = log Scenario.released ++ evs /\
    chainCalls evs =
      [ SubmitTx [x70; x73; x62; x74; x05; x0a] [[xc0; x05; x0a]];
        FinalizeTx "a1b2" [[xc0; x05; x0a]] ] /\
    lookupPending s' Scenario.arkAddress = None.
Proof.
  destruct (approve_completion (Scenario.aliceEnv (Some Scenario.provider))
              Scenario.released Scenario.arkAddress Scenario.aliceWallet Scenario.aliceWallet
              Scenario.releasedContract Scenario.releasePending Scenario.releasePartialTx
              [x70; x73; x62; x74; x05; x0a] [[xc0; x05; x0a]])
    as (evs & Hlog & Hyes & _).
  - split; vm_compute; reflexivity.
  - apply includes_elem_of. evaluate.
  - apply includes_false. evaluate.
  - evaluate.
  - evaluate.
  - evaluate.
  - exists evs. split; [exact Hlog|].
    apply Hyes. apply forallb_includes. evaluate.
Defined.

(** ** [rejectPendingTransaction] *)

Lemma reject_eq (s : State) (a : string) (w : WalletInfo)
    (c : EscrowContract) (p : PendingTransaction) (x : PartialTx) :
  pendingAt s a c p x ->
  wallet_pubkey w ∈ requiredSigners x ->
  let x1 :=
    if includes (rejections x) (wallet_pubkey w) then x
    else push_rejection (wallet_pubkey w) x in
  let p1 := set_status rejected (set_partialTx (Some x1) p) in
  rejectPendingTransaction a w s =
  (Ok tt,
   set_timers (fun ts => ts ++ [ {| due := now s + rejectionDelay; target := a |} ])
     (logged [Notify success
                ("Transaction rejected by " +:+ getUserNameByPubkey (wallet_pubkey w) c)]
        (setSlot a (Some p1) s))).
Proof.
  intros Hat Hreq x1 p1.
  destruct (pendingAt_lookup _ _ _ _ _ Hat) as [Hlp Hlx].
  pose proof (at_contract _ _ _ _ _ Hat) as Hc.
  apply includes_elem_of in Hreq.
  unfold rejectPendingTransaction, bind at 1, get.
  rewrite Hc, Hlx, Hreq. cbn [negb].
  assert (forall st v evs f,
            lookupPending (set_timers f (logged evs (setSlot a v st))) a
            = lookupPending (setSlot a v st) a) as Hframe by reflexivity.
  unfold bind, showSuccess, emit, setTimeout, modify, get, ret.
  subst x1 p1.
  destruct (includes (rejections x) (wallet_pubkey w)); cbn [negb].
  - cbv beta iota zeta.
    rewrite mutatePending_eq, (updPending_setSlot a _ s (Some p) Hlp).
    cbv beta iota zeta. cbn [fmap option_fmap option_map].
    rewrite updateContractPendingTransaction_eq.
    change (lookupPending (set_timers ?f (set_log ?g (setSlot a ?v s))) a)
      with (lookupPending (setSlot a v s) a).
    rewrite (lookupPending_setSlot_eq _ _ _ _ Hc).
    change (setSlot a ?v (set_timers ?f (set_log ?g (setSlot a ?v' s))))
      with (set_timers f (set_log g (setSlot a v (setSlot a v' s)))).
    rewrite setSlot_setSlot. rewrite <- (at_partialTx _ _ _ _ _ Hat).
    destruct p; reflexivity.
  - rewrite mutatePartialTx_eq, (updPending_setSlot a _ s (Some p) Hlp).
    cbv beta iota zeta. cbn [fmap option_fmap option_map].
    rewrite mutatePending_eq.
    erewrite updPending_setSlot; [|apply (lookupPending_setSlot_eq _ _ _ _ Hc)].
    rewrite setSlot_setSlot.
    cbv beta iota zeta. cbn [fmap option_fmap option_map].
    rewrite updateContractPendingTransaction_eq.
    change (lookupPending (set_timers ?f (set_log ?g (setSlot a ?v s))) a)
      with (lookupPending (setSlot a v s) a).
    rewrite (lookupPending_setSlot_eq _ _ _ _ Hc).
    change (setSlot a ?v (set_timers ?f (set_log ?g (setSlot a ?v' s))))
      with (set_timers f (set_log g (setSlot a v (setSlot a v' s)))).
    rewrite setSlot_setSlot. rewrite (at_partialTx _ _ _ _ _ Hat). reflexivity.
Qed.

(** ** The guards of [approve] and [reject] *)

Lemma approve_not_required (env : Env) (s : State) (a : string) (w : WalletInfo)
    (c : EscrowContract) (p : PendingTransaction) (x : PartialTx) :
  pendingAt s a c p x ->
  wallet_pubkey w ∉ requiredSigners x ->
  approvePendingTransaction env a w s
  = (Ok tt, logged [Notify error "You are not required to sign this transaction"] s).
Proof.
  intros Hat Hreq. destruct (pendingAt_lookup _ _ _ _ _ Hat) as [Hlp Hlx].
  apply includes_false in Hreq.
  unfold approvePendingTransaction, bind, get.
  rewrite (at_contract _ _ _ _ _ Hat), Hlp, Hlx, Hreq. reflexivity.
Qed.

Lemma approve_already_approved (env : Env) (s : State) (a : string) (w : WalletInfo)
    (c : EscrowContract) (p : PendingTransaction) (x : PartialTx) :
  pendingAt s a c p x ->
  wallet_pubkey w ∈ requiredSigners x ->
  wallet_pubkey w ∈ approvals x ->
  approvePendingTransaction env a w s
  = (Ok tt, logged [Notify error "You have already approved this transaction"] s).
Proof.
  intros Hat Hreq Happ. destruct (pendingAt_lookup _ _ _ _ _ Hat) as [Hlp Hlx].
  apply includes_elem_of in Hreq. apply includes_elem_of in Happ.
  unfold approvePendingTransaction, bind, get.
  rewrite (at_contract _ _ _ _ _ Hat), Hlp, Hlx, Hreq, Happ. reflexivity.
Qed.

Lemma reject_not_required (s : State) (a : string) (w : WalletInfo)
    (c : EscrowContract) (p : PendingTransaction) (x : PartialTx) :
  pendingAt s a c p x ->
  wallet_pubkey w ∉ requiredSigners x ->
  rejectPendingTransaction a w s
  = (Ok tt, logged [Notify error "You are not authorized to reject this transaction"] s).
Proof.
  intros Hat Hreq. destruct (pendingAt_lookup _ _ _ _ _ Hat) as [Hlp Hlx].
  apply includes_false in Hreq.
  unfold rejectPendingTransaction, bind, get.
  rewrite (at_contract _ _ _ _ _ Hat), Hlx, Hreq. reflexivity.
Qed.

(** C1, as the code has it. With a pending transaction in place, [approve]
    by a key outside [requiredSigners] only reports "not required", and
    [approve] by a required signer who is already in [approvals] only
    reports "already approved"; [reject] by a key outside [requiredSigners]
    only reports "not authorized". In these three cases the resulting state
    is the initial one with the error notification appended to the calls:
    the map of contracts, hence approvals, rejections, status and
    transaction bytes, is the same. A [reject] by a required signer who is
    already in [rejections] is not refused: it leaves [rejections] as it is
    (no second entry) and the status is [rejected]. *)
Theorem guards_leave_pending_unchanged (env : Env) (s : State) (a : string)
    (w : WalletInfo) (c : EscrowContract) (p : PendingTransaction) (x : PartialTx) :
  pendingAt s a c p x ->
  (wallet_pubkey w ∉ requiredSigners x ->
     let s1 := exec (approvePendingTransaction env a w) s in
     let s2 := exec (rejectPendingTransaction a w) s in
     s1 = logged [Notify error "You are not required to sign this transaction"] s /\
     s2 = logged [Notify error "You are not authorized to reject this transaction"] s /\
     contracts s1 = contracts s /\ contracts s2 = contracts s)
  /\
  (wallet_pubkey w ∈ requiredSigners x -> wallet_pubkey w ∈ approvals x ->
     let s1 := exec (approvePendingTransaction env a w) s in
     s1 = logged [Notify error "You have already approved this transaction"] s /\
     contracts s1 = contracts s)
  /\
  (wallet_pubkey w ∈ requiredSigners x -> wallet_pubkey w ∈ rejections x ->
     observe (exec (rejectPendingTransaction a w) s) a
     = (Some rejected, Some (approvals x), Some (rejections x))).
Proof.
  intros Hat. split; [|split].
  - intros Hreq. unfold exec.
    rewrite (approve_not_required env s a w c p x Hat Hreq).
    rewrite (reject_not_required s a w c p x Hat Hreq). cbn [snd]. auto.
  - intros Hreq Happ. unfold exec.
    rewrite (approve_already_approved env s a w c p x Hat Hreq Happ). cbn [snd]. auto.
  - intros Hreq Hrej. unfold exec.
    rewrite (reject_eq s a w c p x Hat Hreq). cbn [snd].
    apply includes_elem_of in Hrej. rewrite Hrej.
    unfold observe, lookupPartialTx.
    change (lookupPending (set_timers ?f (logged ?e ?st)) a) with (lookupPending st a).
    rewrite (lookupPending_setSlot_eq _ _ _ _ (at_contract _ _ _ _ _ Hat)).
    reflexivity.
Qed.

Lemma guards_leave_pending_unchanged_witness :
  (let s1 :=
     exec (approvePendingTransaction (Scenario.env (Some Scenario.carolWallet) None [])
             Scenario.arkAddress Scenario.carolWallet) Scenario.released in
   let s2 :=
     exec (rejectPendingTransaction Scenario.arkAddress Scenario.carolWallet)
       Scenario.released in
   s1 = logged [Notify error "You are not required to sign this transaction"]
          Scenario.released /\
   s2 = logged [Notify error "You are not authorized to reject this transaction"]
          Scenario.released /\
   contracts s1 = contracts Scenario.released /\
   contracts s2 = contracts Scenario.released)
  /\
  (let s1 :=
     exec (approvePendingTransaction (Scenario.aliceEnv None) Scenario.arkAddress
             Scenario.aliceWallet) Scenario.approvedUnsent in
   s1 = logged [Notify error "You have already approved this transaction"]
          Scenario.approvedUnsent /\
   contracts s1 = contracts Scenario.approvedUnsent)
  /\
  observe (exec (rejectPendingTransaction Scenario.arkAddress Scenario.aliceWallet)
             Scenario.rejectedByAlice) Scenario.arkAddress
  = (Some rejected, Some [Scenario.sellerPubkey], Some [Scenario.arbitratorPubkey]).
Proof.
  split; [|split].
  - apply (guards_leave_pending_unchanged
             (Scenario.env (Some Scenario.carolWallet) None [])
             Scenario.released Scenario.arkAddress Scenario.carolWallet
             Scenario.releasedContract Scenario.releasePending Scenario.releasePartialTx).
    + split; vm_compute; reflexivity.
    + apply includes_false. evaluate.
  - apply (guards_leave_pending_unchanged (Scenario.aliceEnv None)
             Scenario.approvedUnsent Scenario.arkAddress Scenario.aliceWallet
             (set_pendingTransaction (Some Scenario.unsentPending) Scenario.contract)
             Scenario.unsentPending Scenario.unsentPartialTx).
    + split; vm_compute; reflexivity.
    + apply includes_elem_of. evaluate.
    + apply includes_elem_of. evaluate.
  - apply (guards_leave_pending_unchanged (Scenario.aliceEnv None)
             Scenario.rejectedByAlice Scenario.arkAddress Scenario.aliceWallet
             (set_pendingTransaction (Some Scenario.rejectedPending) Scenario.contract)
             Scenario.rejectedPending Scenario.rejectedPartialTx).
    + split; vm_compute; reflexivity.
    + apply includes_elem_of. evaluate.
    + apply includes_elem_of. evaluate.
Defined.

(** C1, as the specification words it, fails on the code. In
    [Scenario.approvedUnsent] the pending release still waits for
    co-signatures and Alice is in [approvals]; her [reject] is not refused
    as "already approved": it is reported as a success, the status becomes
    [rejected] and she is added to [rejections]. In
    [Scenario.rejectedByAlice] Alice is in [rejections]; her [approve] is not
    refused as "already rejected": she signs, is added to [approvals], and
    the transaction is submitted, finalized and cleared. *)
Lemma duplicate_guards_missing :
  observe Scenario.approvedUnsent Scenario.arkAddress
    = (Some pending_cosign,
       Some [Scenario.sellerPubkey; Scenario.arbitratorPubkey], Some [])
  /\ (let s' :=
        exec (rejectPendingTransaction Scenario.arkAddress Scenario.aliceWallet)
          Scenario.approvedUnsent in
      observe s' Scenario.arkAddress
        = (Some rejected,
           Some [Scenario.sellerPubkey; Scenario.arbitratorPubkey],
           Some [Scenario.arbitratorPubkey])
      /\ log s' = log Scenario.approvedUnsent
                    ++ [Notify success "Transaction rejected by Alice"])
  /\ observe Scenario.rejectedByAlice Scenario.arkAddress
       = (Some rejected, Some [Scenario.sellerPubkey], Some [Scenario.arbitratorPubkey])
  /\ (let s' :=
        exec (approvePendingTransaction (Scenario.aliceEnv (Some Scenario.provider))
                Scenario.arkAddress Scenario.aliceWallet) Scenario.rejectedByAlice in
      lookupPending s' Scenario.arkAddress = None
      /\ chainCalls (log s') =
           [ SubmitTx [x70; x73; x62; x74; x05; x0a] [[xc0; x05; x0a]];
             FinalizeTx "a1b2" [[xc0; x05; x0a]] ]).
Proof. vm_compute. repeat split; reflexivity. Qed.

(** ** A failure while signing *)

(** When the wallet is not the signer's, or the spend transaction cannot be
    signed, [approve] leaves the contracts as they are; when a checkpoint
    cannot be signed, the signed spend transaction has already been stored. *)
Lemma approve_signing_failure (env : Env) (s : State) (a : string) (w : WalletInfo)
    (c : EscrowContract) (p : PendingTransaction) (x : PartialTx) :
  pendingAt s a c p x ->
  wallet_pubkey w ∈ requiredSigners x ->
  wallet_pubkey w ∉ approvals x ->
  let s' := exec (approvePendingTransaction env a w) s in
  match getWalletForSigner env (wallet_pubkey w) with
  | None => contracts s' = contracts s
  | Some authorizedWallet =>
      match sign (identity authorizedWallet) (arkTx x) None with
      | Throw _ => contracts s' = contracts s
      | Ok signedPSBT =>
          match mapR (fun cp => sign (identity authorizedWallet) cp (Some [0%nat]))
                     (checkpoints x) with
          | Throw _ =>
              lookupPending s' a
              = Some (set_partialTx (Some (set_arkTx signedPSBT x)) p)
          | Ok _ => True
          end
      end
  end.
Proof.
  intros Hat Hreq Happ s'. subst s'.
  destruct (pendingAt_lookup _ _ _ _ _ Hat) as [Hlp Hlx].
  pose proof (at_contract _ _ _ _ _ Hat) as Hc.
  apply includes_elem_of in Hreq. apply includes_false in Happ.
  assert (forall st, signTransactionsForUser env a w (logged
            [Notify info ("Signing " +:+ action p +:+ " transaction...")] s) = st ->
          exec (approvePendingTransaction env a w) s =
          match st with
          | (Ok _, s1) => exec (approvePendingTransaction env a w) s
          | (Throw e, s1) =>
              logged [Notify error ("Failed to approve "
                +:+ or_else (match lookupPending s1 a with
                             | Some p => action p | None => "" end) "transaction"
                +:+ ": " +:+ or_else e "Unknown error")] s1
          end) as Hstep.
  { intros [[[]|e] s1] Hst; [reflexivity|].
    unfold exec, approvePendingTransaction, bind at 1, get.
    rewrite Hc, Hlp, Hlx, Hreq, Happ. cbn [negb].
    unfold try_catch, bind, showInfo, showError, emit, modify, get.
    unfold logged in Hst. rewrite Hst. reflexivity. }
  rewrite (signTransactionsForUser_eq env _ a w c p x) in Hstep
    by (apply pendingAt_logged, Hat).
  destruct (getWalletForSigner env (wallet_pubkey w)) as [aw|].
  2: { rewrite (Hstep _ eq_refl). reflexivity. }
  destruct (sign (identity aw) (arkTx x) None) as [tx'|e].
  2: { rewrite (Hstep _ eq_refl). reflexivity. }
  cbv zeta in Hstep.
  destruct (mapR _ (checkpoints x)) as [cps'|e]; [exact I|].
  rewrite (Hstep _ eq_refl).
  change (lookupPending (logged ?e (setSlot a ?v (logged ?g s))) a)
    with (lookupPending (setSlot a v s) a).
  apply (lookupPending_setSlot_eq _ _ _ _ Hc).
Qed.

(** C2 fails on the code. Alice's key signs the spend transaction of the
    pending release but not its checkpoint. Her [approve] reports the
    failure, her approval is not recorded and the checkpoint is the stored
    one, but the stored spend transaction now carries her signature:
    [signTransactionsForUser] assigns [partialTx.arkTx] before it signs the
    checkpoints. *)
Theorem checkpoint_failure_keeps_spend_signature :
  let s := Scenario.released in
  let s' :=
    exec (approvePendingTransaction Scenario.aliceFaultyEnv Scenario.arkAddress
            Scenario.aliceFaultyWallet) s in
  storedBytes s Scenario.arkAddress = Some ([x70; x73; x62; x74; x05], [[xc0; x05]])
  /\ storedBytes s' Scenario.arkAddress
       = Some ([x70; x73; x62; x74; x05; x0a], [[xc0; x05]])
  /\ observe s' Scenario.arkAddress = observe s Scenario.arkAddress
  /\ log s' = log s ++
       [ Notify info "Signing Release transaction...";
         Notify error
           "Failed to approve Release: Failed to sign transactions: checkpoint input cannot be signed" ].
Proof. vm_compute. repeat split; reflexivity. Qed.

(** ** Funding *)

(** [fund] never reaches [getRequiredSignersForAction]: with no output at
    the contract address, the transfer is made whoever asks. *)
Lemma fund_ignores_role (env : Env) (s : State) (a act : string) (w : WalletInfo)
    (c : EscrowContract) (sc : VEscrow.Script) (serverKey : Bytes) :
  contracts s !! a = Some c ->
  toLowerCase act = "fund" ->
  restoreScript env c = Ok sc ->
  hex_decode (getServerKey env) = Ok serverKey ->
  let addr := VEscrow.address (sdk env) sc (getAddrPrefix env) serverKey in
  getVtxos env (hex.encode (VEscrow.pkScript addr)) = Ok [] ->
  exec (executeContractAction env a act w) s
  = logged [SendTransaction (VEscrow.encoded addr)] s.
Proof.
  intros Hc Hact Hsc Hkey addr Hv.
  unfold exec, executeContractAction, bind at 1, get. rewrite Hc.
  unfold try_catch, bind, lift. rewrite Hsc, Hkey. fold addr. rewrite Hv, Hact.
  reflexivity.
Qed.

(** The authorizer itself refuses a fund by anyone but the buyer. *)
Lemma fund_requires_buyer (act : string) (c : EscrowContract) (w : WalletInfo) :
  toLowerCase act = "fund" ->
  getUserRole c (wallet_pubkey w) <> Some "buyer" ->
  getRequiredSignersForAction act c w = [].
Proof.
  intros Hact Hrole. unfold getRequiredSignersForAction. rewrite Hact. cbn [String.eqb].
  change (("fund" =? "fund")%string) with true. cbv iota.
  destruct (getUserRole c (wallet_pubkey w)) as [r|]; [|reflexivity].
  cbn [role_is]. destruct (String.eqb_spec r "buyer") as [->|]; [congruence|reflexivity].
Qed.

(** C4 fails on the code. Bob is the seller of the contract, and the
    authorizer gives him no signer for [Fund]; yet, the contract address
    holding no output, [executeContractAction] makes the funding transfer to
    the contract address and reports no error. *)
Theorem fund_by_seller_is_transferred :
  let env := Scenario.env (Some Scenario.bobWallet) (Some Scenario.provider) [] in
  let s' :=
    exec (executeContractAction env Scenario.arkAddress "Fund" Scenario.bobWallet)
      Scenario.initial in
  getUserRole Scenario.contract (wallet_pubkey Scenario.bobWallet) = Some "seller"
  /\ getRequiredSignersForAction "Fund" Scenario.contract Scenario.bobWallet = []
  /\ log s' = [SendTransaction Scenario.arkAddress]
  /\ transfers (log s') = [SendTransaction Scenario.arkAddress].
Proof. vm_compute. repeat split; reflexivity. Qed.

(** ** The outputs of a spend *)

(** C6. For a non-negative amount, when the addresses of the buyer and of
    the seller convert to scripts, the outputs of a direct settle are exactly
    two: the integer half of the amount (its floor) to the buyer and the rest
    to the seller. The two amounts add up to the input amount; for 101 they
    are 50 and 51. *)
Theorem direct_settle_split (env : Env) (act : string) (c : EscrowContract) (amt : Z)
    (buyerScript sellerScript : Bytes) :
  0 <= amt ->
  toLowerCase act = "direct settle" ->
  addressToScript env (address (buyer c)) = Ok buyerScript ->
  addressToScript env (address (seller c)) = Ok sellerScript ->
  let half := amt / 2 in
  createOutputsForAction env act c amt
    = Ok [ {| amount := half; script := buyerScript |};
           {| amount := amt - half; script := sellerScript |} ]
  /\ 2 * half <= amt < 2 * half + 2
  /\ half + (amt - half) = amt
  /\ (amt = 101 -> half = 50 /\ amt - half = 51).
Proof.
  intros Hamt Hact Hb Hs half.
  split; [|split; [|split]].
  - unfold createOutputsForAction. rewrite Hact, Hb, Hs. reflexivity.
  - subst half. pose proof (Z.div_mod amt 2 ltac:(lia)) as Hdm.
    pose proof (Z.mod_pos_bound amt 2 ltac:(lia)). lia.
  - lia.
  - intros ->. subst half. split; reflexivity.
Qed.

Lemma direct_settle_split_witness :
  createOutputsForAction (Scenario.env None None []) "Direct Settle" Scenario.contract 101
  = Ok [ {| amount := 50; script := x51 :: x20 :: Scenario.buyerKey |};
         {| amount := 51; script := x51 :: x20 :: Scenario.sellerKey |} ].
Proof.
  apply (direct_settle_split (Scenario.env None None []) "Direct Settle" Scenario.contract 101
           (x51 :: x20 :: Scenario.buyerKey) (x51 :: x20 :: Scenario.sellerKey)).
  - lia.
  - reflexivity.
  - evaluate.
  - evaluate.
Defined.

(** ** [executeContractAction] *)

(** The pending transaction stored by a successful call. *)
Lemma executeContractAction_creates (env : Env) (s : State) (a act : string)
    (w : WalletInfo) (c : EscrowContract) (sc : VEscrow.Script) (serverKey : Bytes)
    (coin : VirtualCoin) (coins : list VirtualCoin) (r : string) (rs : list string)
    (unsignedArkTx signedArkTx : Bytes) (unsignedCheckpoints signedCheckpoints : list Bytes) :
  contracts s !! a = Some c ->
  toLowerCase act <> "fund" ->
  restoreScript env c = Ok sc ->
  hex_decode (getServerKey env) = Ok serverKey ->
  let addr := VEscrow.address (sdk env) sc (getAddrPrefix env) serverKey in
  getVtxos env (hex.encode (VEscrow.pkScript addr)) = Ok (coin :: coins) ->
  getRequiredSignersForAction act c w = r :: rs ->
  createEscrowTransaction env c act coin = Ok (unsignedArkTx, unsignedCheckpoints) ->
  sign (identity w) unsignedArkTx None = Ok signedArkTx ->
  mapR (fun cp => sign (identity w) cp (Some [0%nat])) unsignedCheckpoints
    = Ok signedCheckpoints ->
  let required :=
    List.filter (fun pk => negb (String.eqb pk (wallet_pubkey w))) (r :: rs) in
  let pending :=
    {| action := act;
       initiator := wallet_pubkey w;
       timestamp := now s;
       status := pending_cosign;
       partialTx := Some
         {| vtxo := {| txid := vc_txid coin; vout := vc_vout coin; value := vc_value coin |};
            arkTx := signedArkTx;
            checkpoints := signedCheckpoints;
            requiredSigners := required;
            initiatorSigned := true;
            approvals := [wallet_pubkey w];
            rejections := [] |} |} in
  let otherSigners := join ", " (List.map (fun pk => getUserNameByPubkey pk c) required) in
  exec (executeContractAction env a act w) s =
  logged
    [Notify success
       ("Partial transaction created for " +:+ act +:+ ". "
        +:+ (if String.eqb otherSigners "" then "Ready to execute!"
             else "Waiting for cosignature from: " +:+ otherSigners +:+ "."))]
    (setSlot (VEscrow.encoded addr) (Some pending) s).
Proof.
  intros Hc Hact Hsc Hkey addr Hv Hreq Htx Hsign Hcps required pending otherSigners.
  unfold exec, executeContractAction, bind at 1, get. rewrite Hc.
  unfold try_catch, bind, lift, get. rewrite Hsc, Hkey. fold addr. rewrite Hv.
  destruct (String.eqb_spec (toLowerCase act) "fund") as [Heq|_]; [contradiction|].
  rewrite Hreq, Htx, Hsign, Hcps.
  rewrite updateContractPendingTransaction_eq. reflexivity.
Qed.

Lemma filter_not_initiator (pk : string) (l : list string) :
  pk ∉ List.filter (fun k => negb (String.eqb k pk)) l.
Proof.
  rewrite list_elem_of_In, filter_In. intros [_ H].
  rewrite String.eqb_refl in H. discriminate.
Qed.

(** C10. A contract stored under the address derived from its keys has a
    pending transaction. A call of [executeContractAction] with an action
    other than fund, an output at the contract address, an initiator for
    whom the authorizer names signers, and a transaction that is built and
    signed, reports a success and nothing else: the slot of the contract
    then holds the new pending transaction, with the initiator as only
    approval, no rejection, and the newly signed bytes. Nothing of the
    previous one is kept. *)
Theorem create_overwrites_pending (env : Env) (s : State) (a act : string)
    (w : WalletInfo) (c : EscrowContract) (previous : PendingTransaction)
    (sc : VEscrow.Script) (serverKey : Bytes)
    (coin : VirtualCoin) (coins : list VirtualCoin) (r : string) (rs : list string)
    (unsignedArkTx signedArkTx : Bytes) (unsignedCheckpoints signedCheckpoints : list Bytes) :
  contracts s !! a = Some c ->
  pendingTransaction c = Some previous ->
  toLowerCase act <> "fund" ->
  restoreScript env c = Ok sc ->
  hex_decode (getServerKey env) = Ok serverKey ->
  let addr := VEscrow.address (sdk env) sc (getAddrPrefix env) serverKey in
  VEscrow.encoded addr = a ->
  getVtxos env (hex.encode (VEscrow.pkScript addr)) = Ok (coin :: coins) ->
  getRequiredSignersForAction act c w = r :: rs ->
  createEscrowTransaction env c act coin = Ok (unsignedArkTx, unsignedCheckpoints) ->
  sign (identity w) unsignedArkTx None = Ok signedArkTx ->
  mapR (fun cp => sign (identity w) cp (Some [0%nat])) unsignedCheckpoints
    = Ok signedCheckpoints ->
  let s' := exec (executeContractAction env a act w) s in
  lookupPending s a = Some previous /\
  lookupPending s' a =
    Some {| action := act;
            initiator := wallet_pubkey w;
            timestamp := now s;
            status := pending_cosign;
            partialTx := Some
              {| vtxo := {| txid := vc_txid coin; vout := vc_vout coin;
                            value := vc_value coin |};
                 arkTx := signedArkTx;
                 checkpoints := signedCheckpoints;
                 requiredSigners :=
                   List.filter (fun pk => negb (String.eqb pk (wallet_pubkey w))) (r :: rs);
                 initiatorSigned := true;
                 approvals := [wallet_pubkey w];
                 rejections := [] |} |} /\
  (exists msg, log s' = log s ++ [Notify success msg]) /\
  timers s' = timers s.
Proof.
  intros Hc Hprev Hact Hsc Hkey addr Ha Hv Hreq Htx Hsign Hcps s'.
  subst s'.
  rewrite (executeContractAction_creates env s a act w c sc serverKey coin coins r rs
             unsignedArkTx signedArkTx unsignedCheckpoints signedCheckpoints
             Hc Hact Hsc Hkey Hv Hreq Htx Hsign Hcps).
  fold addr. rewrite Ha.
  split; [unfold lookupPending; rewrite Hc; exact Hprev|].
  split; [|split; [eexists; reflexivity|reflexivity]].
  change (lookupPending (logged ?e ?st) a) with (lookupPending st a).
  apply (lookupPending_setSlot_eq _ _ _ _ Hc).
Qed.

Lemma create_overwrites_pending_witness :
  let s' :=
    exec (executeContractAction Scenario.carolEnv Scenario.arkAddress "Refund"
            Scenario.carolWallet) Scenario.released in
  lookupPending Scenario.released Scenario.arkAddress = Some Scenario.releasePending /\
  lookupPending s' Scenario.arkAddress = Some Scenario.refundPending /\
  (exists msg, log s' = log Scenario.released ++ [Notify success msg]) /\
  timers s' = timers Scenario.released.
Proof.
  apply (create_overwrites_pending Scenario.carolEnv Scenario.released Scenario.arkAddress
           "Refund" Scenario.carolWallet Scenario.releasedContract Scenario.releasePending
           Scenario.script Scenario.serverKey (Scenario.coin 101) []
           Scenario.buyerPubkey [Scenario.arbitratorPubkey]
           [x70; x73; x62; x74] [x70; x73; x62; x74; x0b] [[xc0]] [[xc0; x0b]]).
  - evaluate.
  - reflexivity.
  - vm_compute. discriminate.
  - evaluate.
  - evaluate.
  - evaluate.
  - reflexivity.
  - evaluate.
  - evaluate.
  - reflexivity.
  - reflexivity.
Defined.

(** ** One operation, seen from the slot of a contract *)

Lemma grows_refl (required l : list string) : grows required l l.
Proof. split; [reflexivity|auto]. Qed.

Lemma grows_push (required l : list string) (pk : string) :
  pk ∈ required -> grows required l (l ++ [pk]).
Proof.
  intros Hpk. split; [apply prefix_app_r; reflexivity|].
  intros k Hk. apply elem_of_app in Hk as [Hk|Hk]; [auto|].
  apply list_elem_of_singleton in Hk. subst. auto.
Qed.

Lemma evolves_refl (p : PendingTransaction) : evolves p p.
Proof.
  split; auto. destruct (partialTx p); [|exact I].
  split_and!; auto; apply grows_refl.
Qed.

Lemma slot_step_refl (old : option PendingTransaction) : slot_step old old.
Proof.
  destruct old as [p|]; [|constructor].
  apply slot_evolved with (p := p); [reflexivity|apply evolves_refl].
Qed.

Lemma evolves_signed (p : PendingTransaction) (x : PartialTx) (tx : Bytes) :
  partialTx p = Some x -> evolves p (set_partialTx (Some (set_arkTx tx x)) p).
Proof.
  intros Hx. split; cbn; auto. rewrite Hx. cbn.
  split_and!; auto; apply grows_refl.
Qed.

Lemma evolves_approved (p : PendingTransaction) (x : PartialTx) (tx : Bytes)
    (cps : list Bytes) (pk : string) :
  partialTx p = Some x -> pk ∈ requiredSigners x ->
  evolves p
    (set_partialTx (Some (push_approval pk (set_checkpoints cps (set_arkTx tx x)))) p).
Proof.
  intros Hx Hpk. split; cbn; auto. rewrite Hx. cbn.
  split_and!; auto; try apply grows_refl. apply grows_push, Hpk.
Qed.

Lemma evolves_rejected (p : PendingTransaction) (x : PartialTx) (pk : string) :
  partialTx p = Some x -> pk ∈ requiredSigners x ->
  evolves p
    (set_status rejected
       (set_partialTx
          (Some (if includes (rejections x) pk then x else push_rejection pk x)) p)).
Proof.
  intros Hx Hpk. split; cbn; auto. rewrite Hx.
  destruct (includes (rejections x) pk); cbn;
    split_and!; auto; try apply grows_refl. apply grows_push, Hpk.
Qed.

Lemma evolves_status_rejected (p p' : PendingTransaction) :
  evolves p p' -> status p = rejected -> status p' = rejected.
Proof. intros [_ _ _ [Hs|Hs] _] Hr; congruence. Qed.

Lemma evolves_within (p p' : PendingTransaction) :
  evolves p p' -> approvals_within p -> approvals_within p'.
Proof.
  intros [_ Hi _ _ Hx] Hin x' Hx' k Hk. rewrite Hx' in Hx.
  destruct (partialTx p) as [x|] eqn:Hpx; [|contradiction].
  destruct Hx as (_ & Hreq & [_ Happ] & _).
  rewrite Hreq, Hi. destruct (Happ k Hk) as [Hold|Hnew]; [|auto].
  apply (Hin x Hpx k Hold).
Qed.

Lemma fresh_within (p : PendingTransaction) : fresh p -> approvals_within p.
Proof.
  intros [_ (x & Hx & Happ & _ & _)] x' Hx' k Hk.
  assert (x' = x) as -> by congruence.
  rewrite Happ in Hk. apply list_elem_of_singleton in Hk. auto.
Qed.

Lemma slot_step_within (old new : option PendingTransaction) :
  slot_step old new ->
  (forall p, old = Some p -> approvals_within p) ->
  forall p', new = Some p' -> approvals_within p'.
Proof.
  intros Hstep Hold p' Hnew. destruct Hstep as [|q Hq|q q' Hq Hev].
  - discriminate.
  - injection Hnew as <-. apply fresh_within, Hq.
  - injection Hnew as <-. apply (evolves_within q q' Hev), Hold, Hq.
Qed.

Lemma logged_nil (s : State) : logged [] s = s.
Proof. destruct s. unfold logged, set_log; cbn. rewrite app_nil_r. reflexivity. Qed.

Lemma pendingAt_of_lookups (s : State) (a : string) (c : EscrowContract)
    (p : PendingTransaction) (x : PartialTx) :
  contracts s !! a = Some c -> lookupPending s a = Some p -> lookupPartialTx s a = Some x ->
  pendingAt s a c p x.
Proof.
  intros Hc Hp Hx. unfold lookupPartialTx in Hx. rewrite Hp in Hx.
  unfold lookupPending in Hp. rewrite Hc in Hp. split; assumption.
Qed.

(** What a call of [approve] leaves in the map of contracts. *)
Lemma approve_contracts (env : Env) (a : string) (w : WalletInfo) (s : State) :
  let s' := exec (approvePendingTransaction env a w) s in
  contracts s' = contracts s \/
  exists v, contracts s' = contracts (setSlot a v s) /\ slot_step (lookupPending s a) v.
Proof.
  intros s'. subst s'.
  destruct (contracts s !! a) as [c|] eqn:Hc;
    [destruct (lookupPending s a) as [p|] eqn:Hlp;
       [destruct (lookupPartialTx s a) as [x|] eqn:Hlx|]|].
  2-4: left; unfold exec, approvePendingTransaction, bind, get;
       rewrite Hc, ?Hlp, ?Hlx; reflexivity.
  pose proof (pendingAt_of_lookups s a c p x Hc Hlp Hlx) as Hat.
  destruct (decide (wallet_pubkey w ∈ requiredSigners x)) as [Hreq|Hreq].
  2: { left. unfold exec. rewrite (approve_not_required env s a w c p x Hat Hreq).
       reflexivity. }
  destruct (decide (wallet_pubkey w ∈ approvals x)) as [Happ|Happ].
  { left. unfold exec. rewrite (approve_already_approved env s a w c p x Hat Hreq Happ).
    reflexivity. }
  pose proof Hreq as Hreqb. pose proof Happ as Happb.
  apply includes_elem_of in Hreqb. apply includes_false in Happb.
  set (s0 := logged [Notify info ("Signing " +:+ action p +:+ " transaction...")] s).
  assert (forall e s1, signTransactionsForUser env a w s0 = (Throw e, s1) ->
          contracts (exec (approvePendingTransaction env a w) s) = contracts s1) as Hthrow.
  { intros e s1 Hst.
    unfold exec, approvePendingTransaction, bind at 1, get.
    rewrite Hc, Hlp, Hlx, Hreqb, Happb. cbn [negb].
    unfold try_catch, bind, showInfo, showError, emit, modify, get.
    fold (logged [Notify info ("Signing " +:+ action p +:+ " transaction...")] s).
    fold s0. rewrite Hst. reflexivity. }
  rewrite (signTransactionsForUser_eq env s0 a w c p x) in Hthrow
    by (apply pendingAt_logged, Hat).
  destruct (getWalletForSigner env (wallet_pubkey w)) as [aw|] eqn:Hw.
  2: { left. apply (Hthrow _ _ eq_refl). }
  destruct (sign (identity aw) (arkTx x) None) as [tx'|e] eqn:Hsign.
  2: { left. apply (Hthrow _ _ eq_refl). }
  cbv zeta in Hthrow.
  destruct (mapR (fun cp => sign (identity aw) cp (Some [0%nat])) (checkpoints x))
    as [cps'|e] eqn:Hcps.
  2: { right. eexists. split; [apply (Hthrow _ _ eq_refl)|].
       apply slot_evolved with (p := p); [reflexivity|].
       apply evolves_signed, (at_partialTx _ _ _ _ _ Hat). }
  clear Hthrow.
  destruct (approve_signed_eq env s a w aw c p x tx' cps' Hat Hreq Happ Hw Hsign Hcps)
    as [Hat1 Heq].
  set (x1 := push_approval _ _) in Hat1, Heq.
  set (p1 := set_partialTx (Some x1) p) in Hat1, Heq.
  fold s0 in Hat1, Heq.
  set (s1 := setSlot a (Some p1) s0) in Hat1, Heq.
  assert (slot_step (Some p) (Some p1)) as Hev.
  { apply slot_evolved with (p := p); [reflexivity|].
    apply evolves_approved; [apply (at_partialTx _ _ _ _ _ Hat)|exact Hreq]. }
  unfold exec. rewrite Heq. clear Heq.
  destruct (forallb _ _).
  - rewrite (executeMultiSigTransaction_eq env s1 a _ p1 x1 Hat1). cbn [snd]. cbv zeta.
    destruct (getProvider env) as [pr|];
      [destruct (submitTx pr (arkTx x1) (checkpoints x1)) as [arkTxid|e];
         [destruct (finalizeTx pr arkTxid (checkpoints x1)) as [[]|e]|]|].
    2-4: right; exists (Some p1); split; [reflexivity|exact Hev].
    right. exists None. split; [|constructor].
    rewrite !setSlot_logged, !contracts_logged. unfold s1, s0.
    rewrite !setSlot_logged, !contracts_logged, setSlot_setSlot. reflexivity.
  - right. exists (Some p1). split; [reflexivity|exact Hev].
Qed.

Lemma reject_contracts (a : string) (w : WalletInfo) (s : State) :
  let s' := exec (rejectPendingTransaction a w) s in
  contracts s' = contracts s \/
  exists v, contracts s' = contracts (setSlot a v s) /\ slot_step (lookupPending s a) v.
Proof.
  intros s'. subst s'.
  destruct (contracts s !! a) as [c|] eqn:Hc;
    [destruct (lookupPartialTx s a) as [x|] eqn:Hlx|].
  2-3: left; unfold exec, rejectPendingTransaction, bind, get;
       rewrite Hc, ?Hlx; reflexivity.
  destruct (lookupPending s a) as [p|] eqn:Hlp.
  2: { unfold lookupPartialTx in Hlx. rewrite Hlp in Hlx. discriminate. }
  pose proof (pendingAt_of_lookups s a c p x Hc Hlp Hlx) as Hat.
  destruct (decide (wallet_pubkey w ∈ requiredSigners x)) as [Hreq|Hreq].
  - right. unfold exec. rewrite (reject_eq s a w c p x Hat Hreq). cbn [snd].
    eexists. split; [reflexivity|].
    apply slot_evolved with (p := p); [reflexivity|].
    apply evolves_rejected; [apply (at_partialTx _ _ _ _ _ Hat)|exact Hreq].
  - left. unfold exec. rewrite (reject_not_required s a w c p x Hat Hreq). reflexivity.
Qed.

Lemma executeContractAction_contracts (env : Env) (a act : string) (w : WalletInfo)
    (s : State) :
  let s' := exec (executeContractAction env a act w) s in
  contracts s' = contracts s \/
  exists a' p, contracts s' = contracts (setSlot a' (Some p) s) /\ fresh p.
Proof.
  intros s'. assert (s' = exec (executeContractAction env a act w) s) as Hs' by reflexivity.
  clearbody s'.
  unfold exec, executeContractAction, bind at 1, get in Hs'.
  destruct (contracts s !! a) as [c|]; [|left; subst s'; reflexivity].
  unfold try_catch, bind, lift, get, showError, showSuccess, emit, modify in Hs'.
  destruct (restoreScript env c) as [sc|e]; [|left; subst s'; reflexivity].
  destruct (hex_decode (getServerKey env)) as [serverKey|e]; [|left; subst s'; reflexivity].
  destruct (getVtxos env _) as [vtxos|e]; [|left; subst s'; reflexivity].
  destruct (String.eqb (toLowerCase act) "fund").
  { destruct vtxos; left; subst s'; reflexivity. }
  destruct vtxos as [|coin coins]; [left; subst s'; reflexivity|].
  destruct (getRequiredSignersForAction act c w) as [|r rs]; [left; subst s'; reflexivity|].
  destruct (createEscrowTransaction env c act coin) as [[utx ucps]|e];
    [|left; subst s'; reflexivity].
  destruct (sign (identity w) utx None) as [tx|e]; [|left; subst s'; reflexivity].
  destruct (mapR _ ucps) as [cps|e]; [|left; subst s'; reflexivity].
  right. cbv beta iota zeta in Hs'.
  rewrite updateContractPendingTransaction_eq in Hs'. cbn [snd] in Hs'. subst s'.
  eexists _, _. split; [reflexivity|].
  split; [reflexivity|]. eexists. split; [reflexivity|].
  split; [reflexivity|]. split; [reflexivity|]. apply filter_not_initiator.
Qed.

Lemma fireTimer_eq (i : nat) (s : State) :
  exec (fireTimer i) s =
  match timers s !! i with
  | Some t =>
      if due t <=? now s then
        logged [Notify info "Rejected transaction cleared"]
          (setSlot (target t) None (set_timers (delete i) s))
      else s
  | None => s
  end.
Proof.
  unfold exec, fireTimer, bind, get.
  destruct (timers s !! i) as [t|]; [|reflexivity].
  destruct (due t <=? now s); [|reflexivity].
  unfold modify, rejectedTimeout, bind, showInfo, emit, modify.
  rewrite assignPending_eq, updateContractPendingTransaction_eq, setSlot_setSlot.
  reflexivity.
Qed.

(** Every operation either leaves the map of contracts as it is or changes
    the slot of one contract, by a [slot_step]. *)
Lemma step_contracts (env : Env) (op : Op) (s : State) :
  contracts (step env op s) = contracts s \/
  exists a v, contracts (step env op s) = contracts (setSlot a v s) /\
              slot_step (lookupPending s a) v.
Proof.
  destruct op as [a act w|a w|a w|ms|i]; cbn [step].
  - destruct (executeContractAction_contracts env a act w s) as [H|(a' & p & H & Hp)];
      [left; exact H|right]. exists a', (Some p). split; [exact H|constructor; exact Hp].
  - destruct (approve_contracts env a w s) as [H|(v & H & Hv)];
      [left; exact H|right]. exists a, v. split; assumption.
  - destruct (reject_contracts a w s) as [H|(v & H & Hv)];
      [left; exact H|right]. exists a, v. split; assumption.
  - left. reflexivity.
  - rewrite fireTimer_eq. destruct (timers s !! i) as [t|]; [|left; reflexivity].
    destruct (due t <=? now s); [|left; reflexivity].
    right. exists (target t), None. split; [reflexivity|constructor].
Qed.

Lemma lookupPending_contracts (s1 s2 : State) (a : string) :
  contracts s1 = contracts s2 -> lookupPending s1 a = lookupPending s2 a.
Proof. unfold lookupPending. intros ->. reflexivity. Qed.

(** The same, read at one address. *)
Lemma step_slot (env : Env) (op : Op) (s : State) (a : string) :
  slot_step (lookupPending s a) (lookupPending (step env op s) a).
Proof.
  destruct (step_contracts env op s) as [H|(a' & v & H & Hv)].
  - rewrite (lookupPending_contracts _ _ a H). apply slot_step_refl.
  - rewrite (lookupPending_contracts _ _ a H), lookupPending_setSlot.
    destruct (decide (a' = a)) as [->|_]; [|apply slot_step_refl].
    destruct (contracts s !! a); [exact Hv|constructor].
Qed.

(** ** The invariant on approvals *)

Lemma run_within (ops : list (Env * Op)) (s : State) (a : string) :
  (forall p, lookupPending s a = Some p -> approvals_within p) ->
  forall p, lookupPending (run ops s) a = Some p -> approvals_within p.
Proof.
  revert s. induction ops as [|[env op] ops IH]; intros s Hs; [exact Hs|].
  cbn [run]. apply IH.
  apply (slot_step_within _ _ (step_slot env op s a) Hs).
Qed.

(** C5. A successful [executeContractAction] on a contract stored under the
    address derived from its keys stores a pending transaction whose only
    approval is the initiator, whose required signers do not contain the
    initiator (no required signer has approved yet) and whose rejections are
    empty. After any further sequence of operations, with any answers of
    the collaborators ([approve], [reject], and also new actions, the
    passing of time and timers), every approval of the pending transaction of
    that contract, if there is one, is by a required signer or by the
    initiator. *)
Theorem approvals_stay_within (env : Env) (s : State) (a act : string)
    (w : WalletInfo) (c : EscrowContract) (sc : VEscrow.Script) (serverKey : Bytes)
    (coin : VirtualCoin) (coins : list VirtualCoin) (r : string) (rs : list string)
    (unsignedArkTx signedArkTx : Bytes) (unsignedCheckpoints signedCheckpoints : list Bytes) :
  contracts s !! a = Some c ->
  toLowerCase act <> "fund" ->
  restoreScript env c = Ok sc ->
  hex_decode (getServerKey env) = Ok serverKey ->
  let addr := VEscrow.address (sdk env) sc (getAddrPrefix env) serverKey in
  VEscrow.encoded addr = a ->
  getVtxos env (hex.encode (VEscrow.pkScript addr)) = Ok (coin :: coins) ->
  getRequiredSignersForAction act c w = r :: rs ->
  createEscrowTransaction env c act coin = Ok (unsignedArkTx, unsignedCheckpoints) ->
  sign (identity w) unsignedArkTx None = Ok signedArkTx ->
  mapR (fun cp => sign (identity w) cp (Some [0%nat])) unsignedCheckpoints
    = Ok signedCheckpoints ->
  let created := exec (executeContractAction env a act w) s in
  (exists p x,
     lookupPending created a = Some p /\ partialTx p = Some x /\
     initiator p = wallet_pubkey w /\
     approvals x = [initiator p] /\
     requiredSigners x
       = List.filter (fun pk => negb (String.eqb pk (initiator p))) (r :: rs) /\
     rejections x = [] /\
     (forall k, k ∈ requiredSigners x -> k ∉ approvals x)) /\
  (forall ops p x,
     lookupPending (run ops created) a = Some p -> partialTx p = Some x ->
     forall k, k ∈ approvals x -> k ∈ requiredSigners x \/ k = initiator p).
Proof.
  intros Hc Hact Hsc Hkey addr Ha Hv Hreq Htx Hsign Hcps created.
  assert (exists p, lookupPending created a = Some p /\ fresh p /\
            initiator p = wallet_pubkey w /\
            (forall x, partialTx p = Some x ->
               requiredSigners x
               = List.filter (fun pk => negb (String.eqb pk (initiator p))) (r :: rs)))
    as (p & Hp & Hfresh & Hini & Hrequired).
  { subst created.
    rewrite (executeContractAction_creates env s a act w c sc serverKey coin coins r rs
               unsignedArkTx signedArkTx unsignedCheckpoints signedCheckpoints
               Hc Hact Hsc Hkey Hv Hreq Htx Hsign Hcps).
    fold addr. rewrite Ha. eexists. split.
    { change (lookupPending (logged ?e ?st) a) with (lookupPending st a).
      apply (lookupPending_setSlot_eq _ _ _ _ Hc). }
    split; [|split; [reflexivity|intros x Hx; injection Hx as <-; reflexivity]].
    split; [reflexivity|]. eexists. split; [reflexivity|].
    split; [reflexivity|]. split; [reflexivity|]. apply filter_not_initiator. }
  split.
  - destruct Hfresh as [_ (x & Hx & Happ & Hrej & Hnot)].
    exists p, x. split_and!; auto.
    intros k Hk. rewrite Happ. intros Hin%list_elem_of_singleton. subst. contradiction.
  - intros ops q y Hq Hy. apply (run_within ops created a) with (p := q); auto.
    intros p' Hp'. assert (p' = p) as -> by congruence. apply fresh_within, Hfresh.
Qed.

Lemma approvals_stay_within_witness :
  (exists p x,
     lookupPending Scenario.released Scenario.arkAddress = Some p /\
     partialTx p = Some x /\
     initiator p = wallet_pubkey Scenario.bobWallet /\
     approvals x = [initiator p] /\
     requiredSigners x
       = List.filter (fun pk => negb (String.eqb pk (initiator p)))
           [Scenario.sellerPubkey; Scenario.arbitratorPubkey] /\
     rejections x = [] /\
     (forall k, k ∈ requiredSigners x -> k ∉ approvals x)) /\
  (forall ops p x,
     lookupPending (run ops Scenario.released) Scenario.arkAddress = Some p ->
     partialTx p = Some x ->
     forall k, k ∈ approvals x -> k ∈ requiredSigners x \/ k = initiator p).
Proof.
  apply (approvals_stay_within
           (Scenario.env (Some Scenario.bobWallet) (Some Scenario.provider) [Scenario.coin 101])
           Scenario.initial Scenario.arkAddress "Release" Scenario.bobWallet
           Scenario.contract Scenario.script Scenario.serverKey (Scenario.coin 101) []
           Scenario.sellerPubkey [Scenario.arbitratorPubkey]
           [x70; x73; x62; x74] [x70; x73; x62; x74; x05] [[xc0]] [[xc0; x05]]).
  - evaluate.
  - vm_compute. discriminate.
  - evaluate.
  - evaluate.
  - evaluate.
  - reflexivity.
  - evaluate.
  - evaluate.
  - reflexivity.
  - reflexivity.
Defined.

(** ** Rejection and the grace delay *)

Lemma grace_invariant (a : string) (deadline : Z) (ops : list (Env * Op)) (st : State) :
  Forall (fun eo => time_passes eo.2) ops ->
  (forall t, t ∈ timers st -> target t = a -> deadline <= due t) ->
  (lookupPending st a = None -> deadline <= now st) ->
  (forall q, lookupPending st a = Some q -> status q = rejected) ->
  (lookupPending (run ops st) a = None -> deadline <= now (run ops st)) /\
  (forall q, lookupPending (run ops st) a = Some q -> status q = rejected).
Proof.
  revert st. induction ops as [|[env op] ops IH]; intros st Hops Htimers Hnone Hsome;
    [split; assumption|].
  apply Forall_cons in Hops as [Hop Hops]. cbn [run].
  destruct op as [? ? ?|? ?|? ?|ms|i]; try contradiction; cbn [step].
  - apply IH; [exact Hops|exact Htimers| |exact Hsome].
    intros Hn. cbn. specialize (Hnone Hn). lia.
  - rewrite fireTimer_eq.
    destruct (timers st !! i) as [t|] eqn:Ht; [|apply IH; assumption].
    destruct (Z.leb_spec (due t) (now st)) as [Hdue|_]; [|apply IH; assumption].
    assert (t ∈ timers st) as Hin by (apply list_elem_of_lookup; eauto).
    apply IH; [exact Hops| | |].
    + intros t' Ht'. apply Htimers. cbn in Ht'.
      apply list_elem_of_delete_inv in Ht'. exact Ht'.
    + change (lookupPending (logged ?e ?s0) a) with (lookupPending s0 a).
      change (now (logged ?e (setSlot ?t0 ?v (set_timers ?f st)))) with (now st).
      rewrite lookupPending_setSlot.
      destruct (decide (target t = a)) as [Hta|Hta].
      * intros _. specialize (Htimers t Hin Hta). lia.
      * exact Hnone.
    + intros q.
      change (lookupPending (logged ?e ?s0) a) with (lookupPending s0 a).
      rewrite lookupPending_setSlot.
      destruct (decide (target t = a)) as [Hta|Hta].
      * destruct (contracts _ !! target t); discriminate.
      * apply Hsome.
Qed.

(** C9, as the code has it. A [reject] by a required signer sets the status
    of the pending transaction to [rejected] at once: the clock has not
    moved, the transaction is still there with that status, and a timer is
    queued that is due [rejectionDelay] (3000 ms) later. That timer cannot
    fire before its deadline. While only time passes (the clock advances,
    timers that are due fire) and no clearing of an earlier rejection is
    still queued for the contract, the pending transaction is present and
    rejected at every instant before that deadline, and it is absent only
    once the deadline is reached. No operation of the class
    turns a rejected pending transaction back into one that waits for
    co-signatures: after any step the slot is empty, or still rejected, or
    holds the new pending transaction that an [executeContractAction] has
    stored in its place. *)
Theorem reject_is_immediate_and_final (s : State) (a : string) (w : WalletInfo)
    (c : EscrowContract) (p : PendingTransaction) (x : PartialTx) :
  pendingAt s a c p x ->
  wallet_pubkey w ∈ requiredSigners x ->
  let s1 := exec (rejectPendingTransaction a w) s in
  let deadline := now s + rejectionDelay in
  (now s1 = now s /\
   (exists p1, lookupPending s1 a = Some p1 /\ status p1 = rejected /\ evolves p p1) /\
   timers s1 = timers s ++ [ {| due := deadline; target := a |} ])
  /\
  (forall st i,
     timers st !! i = Some {| due := deadline; target := a |} ->
     now st < deadline -> exec (fireTimer i) st = st)
  /\
  ((forall t, t ∈ timers s -> target t <> a) ->
   forall ops, Forall (fun eo => time_passes eo.2) ops ->
     (lookupPending (run ops s1) a = None -> deadline <= now (run ops s1)) /\
     (now (run ops s1) < deadline ->
        exists q, lookupPending (run ops s1) a = Some q /\ status q = rejected))
  /\
  (forall env op st q,
     lookupPending st a = Some q -> status q = rejected ->
     match lookupPending (step env op st) a with
     | None => True
     | Some q' => status q' = rejected \/ fresh q'
     end).
Proof.
  intros Hat Hreq s1 deadline.
  assert (now s1 = now s /\
          (exists p1, lookupPending s1 a = Some p1 /\ status p1 = rejected /\ evolves p p1) /\
          timers s1 = timers s ++ [ {| due := deadline; target := a |} ]) as Hnow.
  { subst s1. unfold exec. rewrite (reject_eq s a w c p x Hat Hreq). cbn [snd].
    split; [reflexivity|]. split; [|reflexivity].
    eexists. split.
    - change (lookupPending (set_timers ?f (logged ?e ?st)) a) with (lookupPending st a).
      apply (lookupPending_setSlot_eq _ _ _ _ (at_contract _ _ _ _ _ Hat)).
    - split; [reflexivity|].
      apply evolves_rejected; [apply (at_partialTx _ _ _ _ _ Hat)|exact Hreq]. }
  split; [exact Hnow|]. destruct Hnow as (Hclock & (p1 & Hp1 & Hst1 & _) & Htimers).
  split; [|split].
  - intros st i Hi Hbefore. rewrite fireTimer_eq, Hi. cbn [due].
    destruct (Z.leb_spec deadline (now st)); [lia|reflexivity].
  - intros Hold ops Hops.
    destruct (grace_invariant a deadline ops s1 Hops) as [Hnone Hsome].
    + intros t Ht Hta. rewrite Htimers in Ht. apply elem_of_app in Ht as [Ht|Ht].
      * destruct (Hold t Ht Hta).
      * apply list_elem_of_singleton in Ht. subst t. cbn. lia.
    + rewrite Hp1. discriminate.
    + intros q Hq. rewrite Hp1 in Hq. injection Hq as <-. exact Hst1.
    + split; [exact Hnone|]. intros Hbefore.
      destruct (lookupPending (run ops s1) a) as [q|] eqn:Hq.
      * exists q. split; [reflexivity|apply Hsome; reflexivity].
      * specialize (Hnone eq_refl). lia.
  - intros env op st q Hq Hrej.
    pose proof (step_slot env op st a) as Hstep. rewrite Hq in Hstep.
    destruct Hstep as [|q' Hfresh|q0 q' Hq0 Hev]; [exact I|right; exact Hfresh|left].
    injection Hq0 as <-. apply (evolves_status_rejected q q' Hev Hrej).
Qed.

Lemma reject_is_immediate_and_final_witness :
  let s := Scenario.released in
  let a := Scenario.arkAddress in
  let s1 := exec (rejectPendingTransaction a Scenario.aliceWallet) s in
  let later := run [ (Scenario.idle, Elapse 2999); (Scenario.idle, FireTimer 0) ] s1 in
  (now s1 = now s /\
   (exists p1, lookupPending s1 a = Some p1 /\ status p1 = rejected /\
               evolves Scenario.releasePending p1) /\
   timers s1 = timers s ++ [ {| due := 4000; target := a |} ])
  /\ exec (fireTimer 0) s1 = s1
  /\ (exists q, lookupPending later a = Some q /\ status q = rejected).
Proof.
  destruct (reject_is_immediate_and_final Scenario.released Scenario.arkAddress
              Scenario.aliceWallet Scenario.releasedContract Scenario.releasePending
              Scenario.releasePartialTx) as (Hnow & Htimer & Hgrace & _).
  - split; vm_compute; reflexivity.
  - apply includes_elem_of. evaluate.
  - split; [exact Hnow|]. split.
    + apply Htimer; vm_compute; reflexivity.
    + apply (Hgrace ltac:(intros t Ht; vm_compute in Ht; inversion Ht)
               [ (Scenario.idle, Elapse 2999); (Scenario.idle, FireTimer 0) ]).
      * repeat constructor.
      * evaluate.
Defined.

(** After Alice's rejection at 1000 the release is still there one
    millisecond before the deadline, and gone once the timer fires at it. *)
Example grace_delay_elapses :
  lookupPending
    (run [ (Scenario.idle, Elapse 2999); (Scenario.idle, FireTimer 0) ]
       Scenario.rejectedByAlice) Scenario.arkAddress
  = Some Scenario.rejectedPending
  /\ lookupPending
       (run [ (Scenario.idle, Elapse 3000); (Scenario.idle, FireTimer 0) ]
          Scenario.rejectedByAlice) Scenario.arkAddress
     = None.
Proof. vm_compute. split; reflexivity. Qed.

(** C9, as the specification words it, fails on the code. Alice rejects the
    release at 1000, which queues a clearing for 4000. At 2000 Carol asks
    for a refund, which [executeContractAction] stores in place of the
    rejected release: the slot waits for co-signatures again. At 3000 Alice
    rejects the refund, which queues a clearing for 6000. At 4000 the first
    timer fires and clears the slot, whatever it holds: the refund is absent
    1000 ms after its rejection. *)
Lemma stale_timer_clears_early :
  observe Scenario.refundAsked Scenario.arkAddress
    = (Some pending_cosign, Some [Scenario.buyerPubkey], Some [])
  /\ observe Scenario.refundRejected Scenario.arkAddress
       = (Some rejected, Some [Scenario.buyerPubkey], Some [Scenario.arbitratorPubkey])
  /\ now Scenario.refundRejected = 3000
  /\ timers Scenario.refundRejected
       = [ {| due := 4000; target := Scenario.arkAddress |};
           {| due := 6000; target := Scenario.arkAddress |} ]
  /\ (let s := run [ (Scenario.idle, Elapse 1000); (Scenario.idle, FireTimer 0) ]
                 Scenario.refundRejected in
      now s = 4000 /\ lookupPending s Scenario.arkAddress = None).
Proof. vm_compute. repeat split; reflexivity. Qed.

(** * Further properties *)

(** ** The spending paths of a constructed script *)

(** Membership in a list that is written out. *)
Ltac listed := rewrite ?elem_of_cons; auto 10.

Lemma findLeaf_hex (sc : VEscrow.Script) (leaf : Bytes) :
  leaf ∈ VEscrow.scripts sc -> VEscrow.findLeaf sc (hex.encode leaf) = Ok leaf.
Proof.
  unfold VEscrow.findLeaf. induction (VEscrow.scripts sc) as [|l ls IH]; intros Hin.
  - apply elem_of_nil in Hin. destruct Hin.
  - cbn [List.find]. destruct (bool_decide_reflect (hex.encode l = hex.encode leaf)) as [He|Hne].
    + apply hex_encode_inj in He. rewrite He. reflexivity.
    + apply elem_of_cons in Hin as [->|Hin]; [congruence|]. apply IH, Hin.
Qed.

Lemma new_Script_inv (sdk : VEscrow.SDK) (o : VEscrow.Options) (sc : VEscrow.Script) :
  VEscrow.new_Script sdk o = Ok sc ->
  VEscrow.validateOptions o = Ok tt /\
  VEscrow.options sc = o /\
  VEscrow.scripts sc =
    [ VEscrow.MultisigTapscript_encode sdk
        [VEscrow.seller o; VEscrow.arbitrator o; VEscrow.server o];
      VEscrow.MultisigTapscript_encode sdk
        [VEscrow.buyer o; VEscrow.arbitrator o; VEscrow.server o];
      VEscrow.MultisigTapscript_encode sdk
        [VEscrow.buyer o; VEscrow.seller o; VEscrow.server o];
      VEscrow.CSVMultisigTapscript_encode sdk
        [VEscrow.seller o; VEscrow.arbitrator o] (VEscrow.unilateralDelay o);
      VEscrow.CSVMultisigTapscript_encode sdk
        [VEscrow.buyer o; VEscrow.arbitrator o] (VEscrow.unilateralDelay o);
      VEscrow.CSVMultisigTapscript_encode sdk
        [VEscrow.buyer o; VEscrow.seller o] (VEscrow.unilateralDelay o) ] /\
  [ VEscrow.releaseScript sc; VEscrow.refundScript sc; VEscrow.directScript sc;
    VEscrow.unilateralReleaseScript sc; VEscrow.unilateralRefundScript sc;
    VEscrow.unilateralDirectScript sc ] = hex.encode <$> VEscrow.scripts sc.
Proof.
  unfold VEscrow.new_Script.
  destruct (VEscrow.validateOptions o) as [[]|e]; cbn [rbind]; [|discriminate].
  intros [= <-]. cbn. auto.
Qed.

(** The three leaves that [getSpendingPathForAction] asks for. *)
Lemma collaborative_leaves (sdk : VEscrow.SDK) (o : VEscrow.Options)
    (sc : VEscrow.Script) :
  VEscrow.new_Script sdk o = Ok sc ->
  VEscrow.release sc
    = Ok (VEscrow.MultisigTapscript_encode sdk
            [VEscrow.seller o; VEscrow.arbitrator o; VEscrow.server o]) /\
  VEscrow.refund sc
    = Ok (VEscrow.MultisigTapscript_encode sdk
            [VEscrow.buyer o; VEscrow.arbitrator o; VEscrow.server o]) /\
  VEscrow.direct sc
    = Ok (VEscrow.MultisigTapscript_encode sdk
            [VEscrow.buyer o; VEscrow.seller o; VEscrow.server o]).
Proof.
  intros Hnew.
  destruct (new_Script_inv sdk o sc Hnew) as (_ & _ & Hscripts & Hhex).
  rewrite Hscripts in Hhex. injection Hhex as H1 H2 H3 _ _ _.
  unfold VEscrow.release, VEscrow.refund, VEscrow.direct. rewrite H1, H2, H3.
  split_and!; apply findLeaf_hex; rewrite Hscripts; listed.
Qed.

(** X1. On a script object that the constructor has returned, none of the
    six accessors throws: each finds its leaf in the tree, and the leaf is
    the script encoded for the keys of its path (release: seller,
    arbitrator, server; refund: buyer, arbitrator, server; direct: buyer,
    seller, server; the unilateral forms: the same two parties under the
    timelock, without the server). *)
Theorem accessors_find_their_leaf (sdk : VEscrow.SDK) (o : VEscrow.Options)
    (sc : VEscrow.Script) :
  VEscrow.new_Script sdk o = Ok sc ->
  let b := VEscrow.buyer o in
  let s := VEscrow.seller o in
  let a := VEscrow.arbitrator o in
  let v := VEscrow.server o in
  let t := VEscrow.unilateralDelay o in
  VEscrow.release sc = Ok (VEscrow.MultisigTapscript_encode sdk [s; a; v]) /\
  VEscrow.refund sc = Ok (VEscrow.MultisigTapscript_encode sdk [b; a; v]) /\
  VEscrow.direct sc = Ok (VEscrow.MultisigTapscript_encode sdk [b; s; v]) /\
  VEscrow.unilateralRelease sc = Ok (VEscrow.CSVMultisigTapscript_encode sdk [s; a] t) /\
  VEscrow.unilateralRefund sc = Ok (VEscrow.CSVMultisigTapscript_encode sdk [b; a] t) /\
  VEscrow.unilateralDirect sc = Ok (VEscrow.CSVMultisigTapscript_encode sdk [b; s] t).
Proof.
  intros Hnew b s a v t.
  destruct (new_Script_inv sdk o sc Hnew) as (_ & _ & Hscripts & Hhex).
  rewrite Hscripts in Hhex. injection Hhex as H1 H2 H3 H4 H5 H6.
  unfold VEscrow.release, VEscrow.refund, VEscrow.direct, VEscrow.unilateralRelease,
    VEscrow.unilateralRefund, VEscrow.unilateralDirect.
  rewrite H1, H2, H3, H4, H5, H6.
  split_and!; apply findLeaf_hex; rewrite Hscripts; listed.
Qed.

Lemma accessors_find_their_leaf_witness :
  VEscrow.release Scenario.script
    = Ok (Reference.multisig [Scenario.sellerKey; Scenario.arbitratorKey; Scenario.serverKey]) /\
  VEscrow.refund Scenario.script
    = Ok (Reference.multisig [Scenario.buyerKey; Scenario.arbitratorKey; Scenario.serverKey]) /\
  VEscrow.direct Scenario.script
    = Ok (Reference.multisig [Scenario.buyerKey; Scenario.sellerKey; Scenario.serverKey]) /\
  VEscrow.unilateralRelease Scenario.script
    = Ok (Reference.csv_multisig [Scenario.sellerKey; Scenario.arbitratorKey] Scenario.delay) /\
  VEscrow.unilateralRefund Scenario.script
    = Ok (Reference.csv_multisig [Scenario.buyerKey; Scenario.arbitratorKey] Scenario.delay) /\
  VEscrow.unilateralDirect Scenario.script
    = Ok (Reference.csv_multisig [Scenario.buyerKey; Scenario.sellerKey] Scenario.delay).
Proof.
  apply (accessors_find_their_leaf Reference.sdk Scenario.options Scenario.script).
  evaluate.
Defined.

(** X2. The list returned by [getSpendingPaths] on a constructed script
    describes the tap tree: its six entries carry, in the order of the
    tree, the hex forms of the six leaves; the script of each entry is the
    one encoded for the keys its [signers] name, as a plain multisig when
    its type is collaborative and under the timelock of the options when it
    is unilateral, and [findLeaf] finds it; and an entry is collaborative
    exactly when the server is among its signers. *)
Theorem spending_paths_describe_the_tree (sdk : VEscrow.SDK) (o : VEscrow.Options)
    (sc : VEscrow.Script) :
  VEscrow.new_Script sdk o = Ok sc ->
  path_script <$> getSpendingPaths sc = hex.encode <$> VEscrow.scripts sc /\
  Forall
    (fun p =>
       exists leaf,
         describedScript sdk o p = Some leaf /\
         path_script p = hex.encode leaf /\
         VEscrow.findLeaf sc (path_script p) = Ok leaf /\
         (path_type p = collaborative <-> "server" ∈ path_signers p))
    (getSpendingPaths sc).
Proof.
  intros Hnew.
  destruct (new_Script_inv sdk o sc Hnew) as (_ & _ & Hscripts & Hhex).
  split; [exact Hhex|].
  rewrite Hscripts in Hhex. injection Hhex as H1 H2 H3 H4 H5 H6.
  unfold getSpendingPaths. rewrite H1, H2, H3, H4, H5, H6.
  repeat (apply Forall_cons; split); try apply Forall_nil_2;
    (eexists; split; [reflexivity|]; split; [reflexivity|];
     split; [apply findLeaf_hex; rewrite Hscripts; listed|]);
    cbn [path_type path_signers]; split; intros H; try reflexivity; try discriminate;
    try (rewrite !elem_of_cons, elem_of_nil in H; intuition discriminate); listed.
Qed.

Lemma spending_paths_describe_the_tree_witness :
  path_script <$> getSpendingPaths Scenario.script
    = hex.encode <$> VEscrow.scripts Scenario.script /\
  Forall
    (fun p =>
       exists leaf,
         describedScript Reference.sdk Scenario.options p = Some leaf /\
         path_script p = hex.encode leaf /\
         VEscrow.findLeaf Scenario.script (path_script p) = Ok leaf /\
         (path_type p = collaborative <-> "server" ∈ path_signers p))
    (getSpendingPaths Scenario.script).
Proof.
  apply (spending_paths_describe_the_tree Reference.sdk Scenario.options Scenario.script).
  evaluate.
Defined.

(** ** Roles, the authorizer and the actions offered *)

Lemma getUserRole_cases (c : EscrowContract) (pk : string) :
  (pk = pubkey (buyer c) /\ getUserRole c pk = Some "buyer") \/
  (pk <> pubkey (buyer c) /\ pk = pubkey (seller c) /\ getUserRole c pk = Some "seller") \/
  (pk <> pubkey (buyer c) /\ pk <> pubkey (seller c) /\ pk = pubkey (arbitrator c) /\
     getUserRole c pk = Some "arbitrator") \/
  (pk <> pubkey (buyer c) /\ pk <> pubkey (seller c) /\ pk <> pubkey (arbitrator c) /\
     getUserRole c pk = None).
Proof.
  unfold getUserRole.
  destruct (String.eqb_spec pk (pubkey (buyer c))); [auto|].
  destruct (String.eqb_spec pk (pubkey (seller c))); [auto|].
  destruct (String.eqb_spec pk (pubkey (arbitrator c))); [auto 10|auto 10].
Qed.

Lemma getCurrentUserRole_getUserRole (c : EscrowContract) (w : WalletInfo) :
  getCurrentUserRole c (Some w) = getUserRole c (wallet_pubkey w).
Proof.
  unfold getCurrentUserRole, getUserRole.
  rewrite !(String.eqb_sym (wallet_pubkey w)). reflexivity.
Qed.

Lemma distinctParties_ne (c : EscrowContract) :
  distinctParties c ->
  pubkey (buyer c) <> pubkey (seller c) /\
  pubkey (buyer c) <> pubkey (arbitrator c) /\
  pubkey (seller c) <> pubkey (arbitrator c).
Proof.
  unfold distinctParties. intros H.
  apply NoDup_cons in H as [Hb H]. apply NoDup_cons in H as [Hs _].
  apply not_elem_of_cons in Hb as [Hbs Hb]. apply not_elem_of_cons in Hb as [Hba _].
  apply not_elem_of_cons in Hs as [Hsa _]. auto.
Qed.

(** The authorizer on the three labels of the interface, by role. *)
Lemma required_by_role (c : EscrowContract) (w : WalletInfo) :
  let r := getUserRole c (wallet_pubkey w) in
  getRequiredSignersForAction "Release" c w
    = (if role_is r "seller" || role_is r "arbitrator"
       then [pubkey (seller c); pubkey (arbitrator c)] else []) /\
  getRequiredSignersForAction "Refund" c w
    = (if role_is r "buyer" || role_is r "arbitrator"
       then [pubkey (buyer c); pubkey (arbitrator c)] else []) /\
  getRequiredSignersForAction "Direct Settle" c w
    = (if role_is r "buyer" || role_is r "seller"
       then [pubkey (buyer c); pubkey (seller c)] else []) /\
  getRequiredSignersForAction "Fund" c w
    = (if role_is r "buyer" then [pubkey (buyer c)] else []).
Proof. split_and!; reflexivity. Qed.

Lemma filter_two_first (pk k1 k2 : string) :
  pk = k1 -> k1 <> k2 ->
  List.filter (fun k => negb (String.eqb k pk)) [k1; k2] = [k2].
Proof.
  intros -> Hne. cbn. rewrite String.eqb_refl. cbn.
  destruct (String.eqb_spec k2 k1); [congruence|reflexivity].
Qed.

Lemma filter_two_second (pk k1 k2 : string) :
  pk = k2 -> k1 <> k2 ->
  List.filter (fun k => negb (String.eqb k pk)) [k1; k2] = [k1].
Proof.
  intros -> Hne. cbn. rewrite String.eqb_refl. cbn.
  destruct (String.eqb_spec k1 k2); [congruence|reflexivity].
Qed.

(** X3. For a contract whose three parties have different keys, the
    authorizer and the filter of [executeContractAction] give this table of
    co-signers. Release: asked by the seller it waits for the arbitrator,
    asked by the arbitrator it waits for the seller, and the buyer is not
    authorized. Refund: buyer and arbitrator wait for each other, the
    seller is not authorized. Direct settle: buyer and seller wait for each
    other, the arbitrator is not authorized. A wallet that is no party is
    authorized for nothing. *)
Theorem authorizer_table (c : EscrowContract) (w : WalletInfo) :
  distinctParties c ->
  let b := pubkey (buyer c) in
  let s := pubkey (seller c) in
  let a := pubkey (arbitrator c) in
  let pk := wallet_pubkey w in
  (pk = b ->
     getRequiredSignersForAction "Release" c w = [] /\
     cosigners "Refund" c w = [a] /\
     cosigners "Direct Settle" c w = [s]) /\
  (pk = s ->
     cosigners "Release" c w = [a] /\
     getRequiredSignersForAction "Refund" c w = [] /\
     cosigners "Direct Settle" c w = [b]) /\
  (pk = a ->
     cosigners "Release" c w = [s] /\
     cosigners "Refund" c w = [b] /\
     getRequiredSignersForAction "Direct Settle" c w = []) /\
  (pk ∉ [b; s; a] ->
     getRequiredSignersForAction "Release" c w = [] /\
     getRequiredSignersForAction "Refund" c w = [] /\
     getRequiredSignersForAction "Direct Settle" c w = []).
Proof.
  intros Hd b s a pk. subst b s a pk.
  destruct (distinctParties_ne c Hd) as (Hbs & Hba & Hsa).
  destruct (required_by_role c w) as (Hrel & Href & Hdir & _).
  unfold cosigners. rewrite Hrel, Href, Hdir.
  destruct (getUserRole_cases c (wallet_pubkey w))
    as [(E & ->)|[(N1 & E & ->)|[(N1 & N2 & E & ->)|(N1 & N2 & N3 & ->)]]];
    cbn [role_is String.eqb Ascii.eqb Bool.eqb orb];
    (split_and!; intros H; try congruence;
     try (exfalso; apply H; listed; fail);
     split_and!; try reflexivity;
     first [ apply filter_two_first; [assumption|assumption]
           | apply filter_two_second; [assumption|assumption] ]).
Qed.

Lemma authorizer_table_witness :
  cosigners "Release" Scenario.contract Scenario.bobWallet = [Scenario.arbitratorPubkey] /\
  getRequiredSignersForAction "Refund" Scenario.contract Scenario.bobWallet = [] /\
  cosigners "Direct Settle" Scenario.contract Scenario.bobWallet = [Scenario.buyerPubkey].
Proof.
  apply (authorizer_table Scenario.contract Scenario.bobWallet).
  - unfold distinctParties. repeat (apply NoDup_cons; split); try apply NoDup_nil_2;
      rewrite ?elem_of_cons, elem_of_nil; vm_compute; intuition discriminate.
  - reflexivity.
Defined.

Lemma getAvailableActions_spend (st : EscrowState) (r : option string) :
  state_status st <> created ->
  getAvailableActions st r =
  if role_is r "buyer" then ["Refund"; "Direct Settle"]
  else if role_is r "seller" then ["Release"; "Direct Settle"]
  else if role_is r "arbitrator" then ["Release"; "Refund"]
  else [].
Proof.
  intros Hst. unfold getAvailableActions.
  destruct r as [r|]; [|reflexivity]. cbn [truthy role_is].
  destruct (String.eqb_spec r "") as [->|_]; [reflexivity|]. cbn [negb].
  destruct (state_status st); [contradiction|reflexivity|reflexivity].
Qed.

(** X4. Once the contract is not in the state [created], the actions
    offered to the wallet of a contract are the actions the authorizer
    allows it: every label returned by [getAvailableActions] for the role
    that [getCurrentUserRole] computes gets, from
    [getRequiredSignersForAction], a list of signers that contains the
    wallet's own key; and each of Release, Refund and Direct Settle that is
    not offered gets the empty list. *)
Theorem offered_actions_are_the_authorized_ones (c : EscrowContract) (w : WalletInfo)
    (st : EscrowState) (act : string) :
  state_status st <> created ->
  let offered := getAvailableActions st (getCurrentUserRole c (Some w)) in
  (act ∈ offered -> wallet_pubkey w ∈ getRequiredSignersForAction act c w) /\
  (act ∈ ["Release"; "Refund"; "Direct Settle"] -> act ∉ offered ->
     getRequiredSignersForAction act c w = []).
Proof.
  intros Hst offered. subst offered.
  rewrite getCurrentUserRole_getUserRole, (getAvailableActions_spend _ _ Hst).
  destruct (required_by_role c w) as (Hrel & Href & Hdir & _).
  destruct (getUserRole_cases c (wallet_pubkey w))
    as [(E & Hr)|[(N1 & E & Hr)|[(N1 & N2 & E & Hr)|(N1 & N2 & N3 & Hr)]]];
    rewrite Hr in *; cbn [role_is String.eqb Ascii.eqb Bool.eqb orb] in *;
    (split;
     [ rewrite ?elem_of_cons, elem_of_nil; intros H; destruct_or?; try contradiction;
       subst act; rewrite ?Hrel, ?Href, ?Hdir, E; listed
     | rewrite ?elem_of_cons, elem_of_nil; intros H Hn; destruct_or?; try contradiction;
       subst act; try assumption; exfalso; apply Hn; auto 10 ]).
Qed.

Lemma offered_actions_are_the_authorized_ones_witness :
  let st := {| state_status := funded; balance := 101; vtxoExists := true |} in
  let offered :=
    getAvailableActions st (getCurrentUserRole Scenario.contract (Some Scenario.bobWallet)) in
  ("Release" ∈ offered ->
     wallet_pubkey Scenario.bobWallet
       ∈ getRequiredSignersForAction "Release" Scenario.contract Scenario.bobWallet) /\
  ("Release" ∈ ["Release"; "Refund"; "Direct Settle"] -> "Release" ∉ offered ->
     getRequiredSignersForAction "Release" Scenario.contract Scenario.bobWallet = []).
Proof.
  apply (offered_actions_are_the_authorized_ones Scenario.contract Scenario.bobWallet
           {| state_status := funded; balance := 101; vtxoExists := true |} "Release").
  discriminate.
Defined.

(** X5. In the state [created] the only action ever offered is Fund, and
    it is offered to the seller of the contract and to nobody else; the
    authorizer gives that wallet no signer for Fund, and a wallet for which
    it names one (the buyer) is offered nothing. *)
Theorem fund_is_offered_to_the_seller (c : EscrowContract) (w : WalletInfo)
    (st : EscrowState) :
  state_status st = created ->
  let offered := getAvailableActions st (getCurrentUserRole c (Some w)) in
  (offered = ["Fund"] \/ offered = []) /\
  (offered = ["Fund"] <-> getUserRole c (wallet_pubkey w) = Some "seller") /\
  (offered = ["Fund"] -> getRequiredSignersForAction "Fund" c w = []) /\
  (getRequiredSignersForAction "Fund" c w <> [] -> offered = []).
Proof.
  intros Hst offered. subst offered.
  rewrite getCurrentUserRole_getUserRole. unfold getAvailableActions. rewrite Hst.
  destruct (required_by_role c w) as (_ & _ & _ & Hfund). rewrite Hfund.
  destruct (getUserRole_cases c (wallet_pubkey w))
    as [(E & Hr)|[(N1 & E & Hr)|[(N1 & N2 & E & Hr)|(N1 & N2 & N3 & Hr)]]];
    rewrite Hr; cbn; split_and!; auto; try (split; congruence); congruence.
Qed.

Lemma fund_is_offered_to_the_seller_witness :
  let st := {| state_status := created; balance := 0; vtxoExists := false |} in
  let offered :=
    getAvailableActions st (getCurrentUserRole Scenario.contract (Some Scenario.bobWallet)) in
  (offered = ["Fund"] \/ offered = []) /\
  (offered = ["Fund"]
     <-> getUserRole Scenario.contract (wallet_pubkey Scenario.bobWallet) = Some "seller") /\
  (offered = ["Fund"] ->
     getRequiredSignersForAction "Fund" Scenario.contract Scenario.bobWallet = []) /\
  (getRequiredSignersForAction "Fund" Scenario.contract Scenario.bobWallet <> [] ->
     offered = []).
Proof.
  apply (fund_is_offered_to_the_seller Scenario.contract Scenario.bobWallet
           {| state_status := created; balance := 0; vtxoExists := false |}).
  reflexivity.
Defined.

(** X6. The contracts listed for a key are the contracts of the map in
    which that key has a role: a contract is in
    [getContractsForUser(userPubkey)] exactly when it is stored in the map
    and [getUserRole] gives the key a role in it. *)
Theorem contracts_for_user_have_a_role (s : State) (userPubkey : string)
    (c : EscrowContract) :
  c ∈ getContractsForUser s userPubkey <->
  (exists a, contracts s !! a = Some c) /\ getUserRole c userPubkey <> None.
Proof.
  unfold getContractsForUser, getContracts.
  rewrite list_elem_of_In, filter_In, <- list_elem_of_In, list_elem_of_fmap.
  assert ((String.eqb (pubkey (buyer c)) userPubkey
           || String.eqb (pubkey (seller c)) userPubkey
           || String.eqb (pubkey (arbitrator c)) userPubkey) = true
          <-> getUserRole c userPubkey <> None) as Hrole.
  { unfold getUserRole. rewrite !(String.eqb_sym userPubkey).
    destruct (String.eqb (pubkey (buyer c)) userPubkey); [cbn; split; congruence|].
    destruct (String.eqb (pubkey (seller c)) userPubkey); [cbn; split; congruence|].
    destruct (String.eqb (pubkey (arbitrator c)) userPubkey); cbn; split; congruence. }
  rewrite Hrole. split.
  - intros [([a c'] & -> & Hin) Hr]. split; [|exact Hr].
    exists a. apply elem_of_map_to_list in Hin. exact Hin.
  - intros [(a & Ha) Hr]. split; [|exact Hr].
    exists (a, c). split; [reflexivity|]. apply elem_of_map_to_list. exact Ha.
Qed.

(** ** [getEscrowState] *)

Lemma restoreScript_serverKey (env : Env) (c : EscrowContract) (sc : VEscrow.Script) :
  restoreScript env c = Ok sc ->
  exists serverKey, hex_decode (getServerKey env) = Ok serverKey /\
    VEscrow.server (VEscrow.options sc) = serverKey.
Proof.
  unfold restoreScript. intros H.
  destruct (hex_decode (pubkey (buyer c))); [|discriminate].
  destruct (hex_decode (pubkey (seller c))); [|discriminate].
  destruct (hex_decode (pubkey (arbitrator c))); [|discriminate].
  destruct (hex_decode (getServerKey env)) as [k|]; [|discriminate].
  cbn [rbind] in H. exists k. split; [reflexivity|].
  destruct (VEscrow.new_Script _ _) as [sc'|e] eqn:Hnew; [|discriminate].
  injection H as <-. apply new_Script_inv in Hnew as (_ & -> & _). reflexivity.
Qed.

Lemma vtxoSum_unspentValue (vtxos : list VirtualCoin) (acc : Z) :
  fold_left
    (fun total vtxo => total + (if truthy (vc_spentBy vtxo) then 0 else vc_value vtxo))
    vtxos acc
  = acc + unspentValue vtxos.
Proof.
  revert acc. induction vtxos as [|v vtxos IH]; intros acc; cbn [fold_left].
  - unfold unspentValue. cbn. lia.
  - rewrite IH. unfold unspentValue. cbn [List.filter].
    destruct (truthy (vc_spentBy v)); cbn; lia.
Qed.

Lemma unspentValue_spent (vtxos : list VirtualCoin) :
  Forall spent vtxos -> unspentValue vtxos = 0.
Proof.
  unfold unspentValue, spent. induction 1 as [|v vtxos Hv _ IH]; [reflexivity|].
  cbn [List.filter]. rewrite Hv. exact IH.
Qed.

Lemma unspentValue_nonneg (vtxos : list VirtualCoin) :
  Forall (fun v => 0 <= vc_value v) vtxos -> 0 <= unspentValue vtxos.
Proof.
  unfold unspentValue. induction 1 as [|v vtxos Hv _ IH]; [cbn; lia|].
  cbn [List.filter]. destruct (truthy (vc_spentBy v)); cbn; lia.
Qed.

Lemma forallb_spent (vtxos : list VirtualCoin) :
  forallb (fun vtxo => truthy (vc_spentBy vtxo)) vtxos = true <-> Forall spent vtxos.
Proof.
  rewrite forallb_forall, Forall_forall. unfold spent.
  split; intros H v Hv; apply H; [apply list_elem_of_In|apply list_elem_of_In]; exact Hv.
Qed.

(** X7. [getEscrowState] throws what the construction of the script
    throws: that failure is not caught. Once the script is built it always
    returns a state. When the indexer fails the state is [created] with
    balance 0. When the indexer answers, the state is [created] exactly
    when it reports no output at the contract address, [executed] exactly
    when it reports some and all are spent, and [funded] exactly when one at
    least is unspent; the balance is the sum of the values of the unspent
    outputs, so it is 0 unless the state is [funded]. *)
Theorem escrow_state_classifies_outputs (env : Env) (c : EscrowContract) :
  (forall e, restoreScript env c = Throw e -> getEscrowState env c = Throw e) /\
  (forall sc, restoreScript env c = Ok sc ->
   exists serverKey st,
     hex_decode (getServerKey env) = Ok serverKey /\
     getEscrowState env c = Ok st /\
     let addr := VEscrow.address (sdk env) sc (getAddrPrefix env) serverKey in
     match getVtxos env (hex.encode (VEscrow.pkScript addr)) with
     | Throw _ => st = {| state_status := created; balance := 0; vtxoExists := false |}
     | Ok vtxos =>
         (vtxoExists st = true <-> vtxos <> []) /\
         (state_status st = created <-> vtxos = []) /\
         (state_status st = executed <-> vtxos <> [] /\ Forall spent vtxos) /\
         (state_status st = funded <-> Exists (fun v => ~ spent v) vtxos) /\
         balance st = unspentValue vtxos /\
         (state_status st <> funded -> balance st = 0)
     end).
Proof.
  split.
  - intros e He. unfold getEscrowState. rewrite He. reflexivity.
  - intros sc Hsc.
    destruct (restoreScript_serverKey env c sc Hsc) as (serverKey & Hkey & _).
    unfold getEscrowState. rewrite Hsc, Hkey. cbn [rbind].
    exists serverKey.
    destruct (getVtxos env _) as [vtxos|e]; [|eexists; split_and!; reflexivity].
    eexists. split; [reflexivity|]. split; [reflexivity|].
    cbn [state_status balance vtxoExists].
    rewrite vtxoSum_unspentValue, Z.add_0_l.
    destruct vtxos as [|v vtxos].
    + cbn. split_and!.
      * split; [discriminate|congruence].
      * split; reflexivity.
      * split; [discriminate|intros [H _]; congruence].
      * split; [discriminate|intros H; inversion H].
      * reflexivity.
      * reflexivity.
    + cbn [length Nat.ltb Nat.leb negb andb].
      destruct (forallb _ (v :: vtxos)) eqn:Hall.
      * apply forallb_spent in Hall. split_and!.
        -- split; [discriminate|reflexivity].
        -- split; discriminate.
        -- split; [intros _; split; [discriminate|exact Hall]|reflexivity].
        -- split; [discriminate|]. intros Hex. exfalso.
           apply Exists_exists in Hex as (u & Hu & Hnot).
           rewrite Forall_forall in Hall. exact (Hnot (Hall u Hu)).
        -- reflexivity.
        -- intros _. apply unspentValue_spent, Hall.
      * assert (~ Forall spent (v :: vtxos)) as Hnall.
        { intros H. apply forallb_spent in H. congruence. }
        split_and!.
        -- split; [discriminate|reflexivity].
        -- split; discriminate.
        -- split; [discriminate|]. intros [_ H]. contradiction.
        -- split; [|reflexivity]. intros _.
           apply not_Forall_Exists in Hnall; [exact Hnall|].
           intros u. unfold spent. apply _.
        -- reflexivity.
        -- congruence.
Qed.

Lemma escrow_state_classifies_outputs_witness :
  let env :=
    Scenario.env None None
      [ {| vc_txid := "f00d"; vc_vout := 0; vc_value := 60; vc_spentBy := Some "beef" |};
        Scenario.coin 41 ] in
  getEscrowState env Scenario.contract
    = Ok {| state_status := funded; balance := 41; vtxoExists := true |} /\
  exists serverKey st,
     hex_decode (getServerKey env) = Ok serverKey /\
     getEscrowState env Scenario.contract = Ok st /\
     let addr :=
       VEscrow.address (sdk env) Scenario.script (getAddrPrefix env) serverKey in
     match getVtxos env (hex.encode (VEscrow.pkScript addr)) with
     | Throw _ => st = {| state_status := created; balance := 0; vtxoExists := false |}
     | Ok vtxos =>
         (vtxoExists st = true <-> vtxos <> []) /\
         (state_status st = created <-> vtxos = []) /\
         (state_status st = executed <-> vtxos <> [] /\ Forall spent vtxos) /\
         (state_status st = funded <-> Exists (fun v => ~ spent v) vtxos) /\
         balance st = unspentValue vtxos /\
         (state_status st <> funded -> balance st = 0)
     end.
Proof.
  intros env. split; [evaluate|].
  apply (escrow_state_classifies_outputs env Scenario.contract). evaluate.
Defined.

(** ** The outcomes of [executeContractAction] *)

(** X8. A call of [executeContractAction] on a stored contract shows one
    notification or makes the funding transfer, one of the two and once,
    and never calls [submitTx] or [finalizeTx]; the clock and the timers are
    untouched. It is either the funding transfer, only for the action fund
    and with the map of contracts unchanged; or a success notification, only
    for another action and together with a fresh pending transaction of the
    caller stored in one slot of the map; or an error notification, with the
    map unchanged. *)
Theorem execute_reports_once (env : Env) (s : State) (a act : string) (w : WalletInfo)
    (c : EscrowContract) :
  contracts s !! a = Some c ->
  let s' := exec (executeContractAction env a act w) s in
  exists e,
    log s' = log s ++ [e] /\ timers s' = timers s /\ now s' = now s /\
    match e with
    | SendTransaction _ => toLowerCase act = "fund" /\ contracts s' = contracts s
    | Notify success _ =>
        toLowerCase act <> "fund" /\
        exists a' p, contracts s' = contracts (setSlot a' (Some p) s) /\
          fresh p /\ initiator p = wallet_pubkey w /\ action p = act
    | Notify error _ => contracts s' = contracts s
    | _ => False
    end.
Proof.
  intros Hc s'.
  assert (s' = exec (executeContractAction env a act w) s) as Hs' by reflexivity.
  clearbody s'.
  unfold exec, executeContractAction, bind at 1, get in Hs'. rewrite Hc in Hs'.
  unfold try_catch, bind, lift, get, showError, showSuccess, emit, modify in Hs'.
  destruct (restoreScript env c) as [sc|e].
  2: { subst s'. eexists. do 3 (split; [reflexivity|]). reflexivity. }
  destruct (hex_decode (getServerKey env)) as [serverKey|e].
  2: { subst s'. eexists. do 3 (split; [reflexivity|]). reflexivity. }
  destruct (getVtxos env _) as [vtxos|e].
  2: { subst s'. eexists. do 3 (split; [reflexivity|]). reflexivity. }
  destruct (String.eqb_spec (toLowerCase act) "fund") as [Hact|Hact].
  { destruct vtxos; subst s'; eexists; do 3 (split; [reflexivity|]);
      [split; [exact Hact|reflexivity]|reflexivity]. }
  destruct vtxos as [|coin coins].
  { subst s'. eexists. do 3 (split; [reflexivity|]). reflexivity. }
  destruct (getRequiredSignersForAction act c w) as [|r rs].
  { subst s'. eexists. do 3 (split; [reflexivity|]). reflexivity. }
  destruct (createEscrowTransaction env c act coin) as [[utx ucps]|e].
  2: { subst s'. eexists. do 3 (split; [reflexivity|]). reflexivity. }
  destruct (sign (identity w) utx None) as [tx|e].
  2: { subst s'. eexists. do 3 (split; [reflexivity|]). reflexivity. }
  destruct (mapR _ ucps) as [cps|e].
  2: { subst s'. eexists. do 3 (split; [reflexivity|]). reflexivity. }
  cbv beta iota zeta in Hs'.
  rewrite updateContractPendingTransaction_eq in Hs'. cbn [snd] in Hs'. subst s'.
  eexists. do 3 (split; [reflexivity|]). split; [exact Hact|].
  eexists _, _. split; [reflexivity|]. split; [|split; reflexivity].
  split; [reflexivity|]. eexists. split; [reflexivity|].
  split; [reflexivity|]. split; [reflexivity|]. apply filter_not_initiator.
Qed.

Lemma execute_reports_once_witness :
  let s' :=
    exec (executeContractAction Scenario.carolEnv Scenario.arkAddress "Release"
            Scenario.carolWallet) Scenario.initial in
  log s' = [Notify error "You are not authorized to perform Release"] /\
  exists e,
    log s' = log Scenario.initial ++ [e] /\ timers s' = timers Scenario.initial /\
    now s' = now Scenario.initial /\
    match e with
    | SendTransaction _ =>
        toLowerCase "Release" = "fund" /\ contracts s' = contracts Scenario.initial
    | Notify success _ =>
        toLowerCase "Release" <> "fund" /\
        exists a' p, contracts s' = contracts (setSlot a' (Some p) Scenario.initial) /\
          fresh p /\ initiator p = wallet_pubkey Scenario.carolWallet /\ action p = "Release"
    | Notify error _ => contracts s' = contracts Scenario.initial
    | _ => False
    end.
Proof.
  intros s'. split; [evaluate|].
  apply (execute_reports_once Scenario.carolEnv Scenario.initial Scenario.arkAddress
           "Release" Scenario.carolWallet Scenario.contract).
  evaluate.
Defined.

(** X9. The three refusals of [executeContractAction], once the script is
    built and the indexer has answered. Fund with an output already at the
    contract address: only the error "Funds already exist in escrow
    contract", and no transfer. Another action with no output at the
    address: only "No funds found in escrow contract". Another action, an
    output, but no signer named by the authorizer: only "You are not
    authorized to perform" followed by the action. In the three cases the
    state is the initial one with that notification appended. *)
Theorem execute_refusals (env : Env) (s : State) (a act : string) (w : WalletInfo)
    (c : EscrowContract) (sc : VEscrow.Script) (serverKey : Bytes)
    (vtxos : list VirtualCoin) :
  contracts s !! a = Some c ->
  restoreScript env c = Ok sc ->
  hex_decode (getServerKey env) = Ok serverKey ->
  let addr := VEscrow.address (sdk env) sc (getAddrPrefix env) serverKey in
  getVtxos env (hex.encode (VEscrow.pkScript addr)) = Ok vtxos ->
  let s' := exec (executeContractAction env a act w) s in
  (toLowerCase act = "fund" -> vtxos <> [] ->
     s' = logged [Notify error "Funds already exist in escrow contract"] s) /\
  (toLowerCase act <> "fund" -> vtxos = [] ->
     s' = logged [Notify error "No funds found in escrow contract"] s) /\
  (toLowerCase act <> "fund" -> vtxos <> [] ->
     getRequiredSignersForAction act c w = [] ->
     s' = logged [Notify error ("You are not authorized to perform " +:+ act)] s).
Proof.
  intros Hc Hsc Hkey addr Hv s'.
  assert (s' = exec (executeContractAction env a act w) s) as Hs' by reflexivity.
  clearbody s'.
  unfold exec, executeContractAction, bind at 1, get in Hs'. rewrite Hc in Hs'.
  unfold try_catch, bind, lift in Hs'. rewrite Hsc, Hkey in Hs'. fold addr in Hs'.
  rewrite Hv in Hs'.
  destruct (String.eqb_spec (toLowerCase act) "fund") as [Hact|Hact].
  - split_and!; try (intros; contradiction).
    intros _ Hne. destruct vtxos; [contradiction|]. subst s'. reflexivity.
  - split_and!; try (intros; contradiction).
    + intros _ ->. subst s'. reflexivity.
    + intros _ Hne Hreq. destruct vtxos; [contradiction|]. rewrite Hreq in Hs'.
      subst s'. reflexivity.
Qed.

Lemma execute_refusals_witness :
  exec (executeContractAction Scenario.carolEnv Scenario.arkAddress "Fund"
          Scenario.carolWallet) Scenario.initial
  = logged [Notify error "Funds already exist in escrow contract"] Scenario.initial /\
  exec (executeContractAction (Scenario.env (Some Scenario.bobWallet) None [])
          Scenario.arkAddress "Release" Scenario.bobWallet) Scenario.initial
  = logged [Notify error "No funds found in escrow contract"] Scenario.initial /\
  exec (executeContractAction Scenario.carolEnv Scenario.arkAddress "Release"
          Scenario.carolWallet) Scenario.initial
  = logged [Notify error ("You are not authorized to perform " +:+ "Release")]
      Scenario.initial.
Proof.
  split; [|split].
  - refine (proj1 (execute_refusals Scenario.carolEnv Scenario.initial Scenario.arkAddress
                     "Fund" Scenario.carolWallet Scenario.contract Scenario.script
                     Scenario.serverKey [Scenario.coin 101] _ _ _ _) _ _).
    all: try evaluate. discriminate.
  - refine (proj1 (proj2 (execute_refusals (Scenario.env (Some Scenario.bobWallet) None [])
                     Scenario.initial Scenario.arkAddress
                     "Release" Scenario.bobWallet Scenario.contract Scenario.script
                     Scenario.serverKey [] _ _ _ _)) _ _).
    all: try evaluate. vm_compute. discriminate.
  - refine (proj2 (proj2 (execute_refusals Scenario.carolEnv Scenario.initial
                     Scenario.arkAddress
                     "Release" Scenario.carolWallet Scenario.contract Scenario.script
                     Scenario.serverKey [Scenario.coin 101] _ _ _ _)) _ _ _).
    all: try evaluate.
    + vm_compute. discriminate.
    + discriminate.
Defined.

(** X10. A failure while the pending transaction is being prepared changes
    nothing: when the script cannot be built, the indexer fails, the
    transaction cannot be built, or the initiator's signature of the spend
    transaction or of a checkpoint fails, the state after
    [executeContractAction] is the initial one with one error notification,
    "Failed to create transaction for", the action and the message of the
    failure; no pending transaction is stored. *)
Theorem execute_failures_change_nothing (env : Env) (s : State) (a act : string)
    (w : WalletInfo) (c : EscrowContract) :
  contracts s !! a = Some c ->
  let s' := exec (executeContractAction env a act w) s in
  let failed e :=
    logged [Notify error ("Failed to create transaction for " +:+ act +:+ ": "
                          +:+ or_else e "Unknown error")] s in
  (forall e, restoreScript env c = Throw e -> s' = failed e) /\
  (forall sc serverKey,
     restoreScript env c = Ok sc ->
     hex_decode (getServerKey env) = Ok serverKey ->
     let addr := VEscrow.address (sdk env) sc (getAddrPrefix env) serverKey in
     (forall e, getVtxos env (hex.encode (VEscrow.pkScript addr)) = Throw e ->
        s' = failed e) /\
     (forall coin coins,
        getVtxos env (hex.encode (VEscrow.pkScript addr)) = Ok (coin :: coins) ->
        toLowerCase act <> "fund" ->
        getRequiredSignersForAction act c w <> [] ->
        (forall e, createEscrowTransaction env c act coin = Throw e -> s' = failed e) /\
        (forall utx ucps,
           createEscrowTransaction env c act coin = Ok (utx, ucps) ->
           (forall e, sign (identity w) utx None = Throw e -> s' = failed e) /\
           (forall tx e,
              sign (identity w) utx None = Ok tx ->
              mapR (fun cp => sign (identity w) cp (Some [0%nat])) ucps = Throw e ->
              s' = failed e)))).
Proof.
  intros Hc s' failed.
  assert (s' = exec (executeContractAction env a act w) s) as Hs' by reflexivity.
  clearbody s'. subst failed.
  unfold exec, executeContractAction, bind at 1, get in Hs'. rewrite Hc in Hs'.
  unfold try_catch, bind, lift in Hs'.
  split; [intros e He; rewrite He in Hs'; subst s'; reflexivity|].
  intros sc serverKey Hsc Hkey addr. rewrite Hsc, Hkey in Hs'. fold addr in Hs'.
  split; [intros e He; rewrite He in Hs'; subst s'; reflexivity|].
  intros coin coins Hv Hact Hreq. rewrite Hv in Hs'.
  destruct (String.eqb_spec (toLowerCase act) "fund") as [|_]; [contradiction|].
  destruct (getRequiredSignersForAction act c w) as [|r rs]; [contradiction|].
  split; [intros e He; rewrite He in Hs'; subst s'; reflexivity|].
  intros utx ucps Htx. rewrite Htx in Hs'.
  split; [intros e He; rewrite He in Hs'; subst s'; reflexivity|].
  intros tx e Htx' Hcps. rewrite Htx', Hcps in Hs'. subst s'. reflexivity.
Qed.

Lemma execute_failures_change_nothing_witness :
  let env := Scenario.env (Some Scenario.aliceFaultyWallet) (Some Scenario.provider)
               [Scenario.coin 101] in
  exec (executeContractAction env Scenario.arkAddress "Release" Scenario.aliceFaultyWallet)
    Scenario.initial
  = logged [Notify error ("Failed to create transaction for Release: "
                          +:+ "checkpoint input cannot be signed")] Scenario.initial.
Proof.
  intros env.
  refine (proj2 (proj2 (proj2 (proj2
    (execute_failures_change_nothing env Scenario.initial Scenario.arkAddress "Release"
       Scenario.aliceFaultyWallet Scenario.contract _)
    Scenario.script Scenario.serverKey _ _) (Scenario.coin 101) [] _ _ _)
    [x70; x73; x62; x74] [[xc0]] _) [x70; x73; x62; x74; x0a]
    "checkpoint input cannot be signed" _ _).
  - evaluate.
  - evaluate.
  - evaluate.
  - evaluate.
  - vm_compute. discriminate.
  - vm_compute. discriminate.
  - evaluate.
  - evaluate.
  - evaluate.
Defined.

(** ** The transaction that spends the output of a contract *)

Lemma spendAction_cases (act : string) :
  spendAction act <->
  toLowerCase act = "release" \/ toLowerCase act = "refund"
  \/ toLowerCase act = "direct settle".
Proof. unfold spendAction. rewrite !elem_of_cons, elem_of_nil. tauto. Qed.

Lemma outputs_conserve_the_amount_aux (env : Env) (act : string) (c : EscrowContract)
    (amt : Z) (outputs : list TxOutput) :
  createOutputsForAction env act c amt = Ok outputs ->
  spendAction act /\ totalAmount outputs = amt.
Proof.
  rewrite spendAction_cases. unfold createOutputsForAction, totalAmount.
  destruct (String.eqb_spec (toLowerCase act) "release") as [Hrel|Hrel].
  { destruct (addressToScript env (address (seller c))); [|discriminate].
    intros [= <-]. cbn. split; [auto|lia]. }
  destruct (String.eqb_spec (toLowerCase act) "refund") as [Href|Href].
  { destruct (addressToScript env (address (buyer c))); [|discriminate].
    intros [= <-]. cbn. split; [auto|lia]. }
  destruct (String.eqb_spec (toLowerCase act) "direct settle") as [Hdir|Hdir].
  { destruct (addressToScript env (address (buyer c))); [|discriminate].
    destruct (addressToScript env (address (seller c))); [|discriminate].
    intros [= <-]. cbn. split; [auto|lia]. }
  discriminate.
Qed.

(** X11. The outputs of a spend. [createOutputsForAction] answers only for
    release, refund and direct settle, in any letter case, and throws
    "Unknown action:" followed by the action for anything else, fund
    included. When it answers, the amounts of the outputs add up to the
    amount it was given, none is negative when that amount is not, and every
    output pays the script of the buyer's or of the seller's address: no
    output goes to the arbitrator or elsewhere. *)
Theorem outputs_conserve_the_amount (env : Env) (act : string) (c : EscrowContract)
    (amt : Z) :
  (~ spendAction act ->
     createOutputsForAction env act c amt = Throw ("Unknown action: " +:+ act)) /\
  (forall outputs,
     createOutputsForAction env act c amt = Ok outputs ->
     spendAction act /\
     totalAmount outputs = amt /\
     (0 <= amt -> Forall (fun o => 0 <= amount o) outputs) /\
     Forall (fun o =>
               addressToScript env (address (buyer c)) = Ok (script o) \/
               addressToScript env (address (seller c)) = Ok (script o)) outputs).
Proof.
  split.
  - rewrite spendAction_cases. unfold createOutputsForAction. intros Hact.
    destruct (String.eqb_spec (toLowerCase act) "release"); [tauto|].
    destruct (String.eqb_spec (toLowerCase act) "refund"); [tauto|].
    destruct (String.eqb_spec (toLowerCase act) "direct settle"); [tauto|].
    reflexivity.
  - intros outputs H.
    destruct (outputs_conserve_the_amount_aux env act c amt outputs H) as [Hact Hsum].
    split; [exact Hact|]. split; [exact Hsum|].
    unfold createOutputsForAction in H.
    destruct (String.eqb (toLowerCase act) "release").
    { destruct (addressToScript env (address (seller c))) as [sellerScript|];
        [|discriminate].
      injection H as <-. split; [intros Hamt; repeat constructor; assumption|].
      constructor; [right; reflexivity|constructor]. }
    destruct (String.eqb (toLowerCase act) "refund").
    { destruct (addressToScript env (address (buyer c))) as [buyerScript|];
        [|discriminate].
      injection H as <-. split; [intros Hamt; repeat constructor; assumption|].
      constructor; [left; reflexivity|constructor]. }
    destruct (String.eqb (toLowerCase act) "direct settle"); [|discriminate].
    destruct (addressToScript env (address (buyer c))) as [buyerScript|]; [|discriminate].
    destruct (addressToScript env (address (seller c))) as [sellerScript|]; [|discriminate].
    injection H as <-.
    pose proof (Z.div_mod amt 2 ltac:(lia)) as Hdm.
    pose proof (Z.mod_pos_bound amt 2 ltac:(lia)) as Hmod.
    split.
    + intros Hamt. constructor; [cbn; apply Z.div_pos; lia|].
      constructor; [cbn; lia|constructor].
    + constructor; [left; reflexivity|]. constructor; [right; reflexivity|constructor].
Qed.

Lemma createEscrowTransaction_inv (env : Env) (c : EscrowContract) (act : string)
    (coin : VirtualCoin) (result : Bytes * list Bytes) :
  createEscrowTransaction env c act coin = Ok result ->
  exists sc spendingPath serverKey outputs,
    restoreScript env c = Ok sc /\
    getSpendingPathForAction sc act = Ok spendingPath /\
    hex_decode (getServerKey env) = Ok serverKey /\
    createOutputsForAction env act c (vc_value coin) = Ok outputs /\
    buildOffchainTx env
      [ {| in_txid := vc_txid coin;
           in_vout := vc_vout coin;
           in_value := vc_value coin;
           in_script := VEscrow.Script_pkScript (sdk env) sc;
           in_tapTree := VEscrow.tapTree_encode (sdk env) (VEscrow.scripts sc);
           in_tapLeafScript := spendingPath |} ]
      outputs
      (VEscrow.CSVMultisigTapscript_encode (sdk env) [serverKey] (getUnilateralDelay env))
    = Ok result.
Proof.
  unfold createEscrowTransaction. intros H.
  destruct (restoreScript env c) as [sc|] eqn:Hsc; [|discriminate]. cbn [rbind] in H.
  destruct (getSpendingPathForAction sc act) as [spendingPath|] eqn:Hpath; [|discriminate].
  cbn [rbind] in H.
  destruct (_ && _); [discriminate|].
  destruct (hex_decode (getServerKey env)) as [serverKey|] eqn:Hkey; [|discriminate].
  cbn [rbind] in H.
  destruct (createOutputsForAction env act c (vc_value coin)) as [outputs|] eqn:Hout;
    [|discriminate].
  cbn [rbind] in H.
  destruct (buildOffchainTx env _ _ _) as [r|] eqn:Hbuild; [|discriminate].
  injection H as <-. exists sc, spendingPath, serverKey, outputs.
  split_and!; try reflexivity; assumption.
Qed.

Lemma getSpendingPathForAction_spend (sc : VEscrow.Script) (act : string)
    (spendingPath : option VEscrow.TapLeafScript) :
  spendAction act ->
  getSpendingPathForAction sc act = Ok spendingPath ->
  exists leaf, spendingPath = Some leaf /\
    (toLowerCase act = "release" -> VEscrow.release sc = Ok leaf) /\
    (toLowerCase act = "refund" -> VEscrow.refund sc = Ok leaf) /\
    (toLowerCase act = "direct settle" -> VEscrow.direct sc = Ok leaf).
Proof.
  rewrite spendAction_cases. unfold getSpendingPathForAction.
  intros [Hact|[Hact|Hact]]; rewrite Hact; cbn -[VEscrow.release VEscrow.refund VEscrow.direct];
    intros H.
  - destruct (VEscrow.release sc) as [leaf|]; [|discriminate]. injection H as <-.
    exists leaf. split_and!; [reflexivity|reflexivity|discriminate|discriminate].
  - destruct (VEscrow.refund sc) as [leaf|]; [|discriminate]. injection H as <-.
    exists leaf. split_and!; [reflexivity|discriminate|reflexivity|discriminate].
  - destruct (VEscrow.direct sc) as [leaf|]; [|discriminate]. injection H as <-.
    exists leaf. split_and!; [reflexivity|discriminate|discriminate|reflexivity].
Qed.

(** X12. When [createEscrowTransaction] returns a transaction, the action
    is release, refund or direct settle, and the transaction was built by
    one call of [buildOffchainTx] with a single input and outputs such that:
    the input is the given output of the indexer, with its value; it is
    locked by the script of the contract and spent through a leaf of the tap
    tree of that script (never without a leaf); and the amounts of the
    outputs add up to the value of the input, so nothing is withheld. *)
Theorem built_transaction_spends_the_coin (env : Env) (c : EscrowContract)
    (act : string) (coin : VirtualCoin) (result : Bytes * list Bytes) :
  createEscrowTransaction env c act coin = Ok result ->
  spendAction act /\
  exists sc leaf input outputs serverUnrollScript,
    restoreScript env c = Ok sc /\
    buildOffchainTx env [input] outputs serverUnrollScript = Ok result /\
    (in_txid input, in_vout input, in_value input)
      = (vc_txid coin, vc_vout coin, vc_value coin) /\
    in_script input = VEscrow.Script_pkScript (sdk env) sc /\
    in_tapLeafScript input = Some leaf /\
    leaf ∈ VEscrow.scripts sc /\
    totalAmount outputs = in_value input.
Proof.
  intros H.
  destruct (createEscrowTransaction_inv env c act coin result H)
    as (sc & spendingPath & serverKey & outputs & Hsc & Hpath & Hkey & Hout & Hbuild).
  destruct (outputs_conserve_the_amount_aux env act c (vc_value coin) outputs Hout)
    as (Hact & Hsum).
  split; [exact Hact|].
  destruct (getSpendingPathForAction_spend sc act spendingPath Hact Hpath)
    as (leaf & -> & Hrel & Href & Hdir).
  eexists sc, leaf, _, outputs, _.
  split; [exact Hsc|]. split; [exact Hbuild|]. cbn.
  split_and!; try reflexivity; [|exact Hsum].
  assert (forall h, VEscrow.findLeaf sc h = Ok leaf -> leaf ∈ VEscrow.scripts sc) as Hfound.
  { intros h. unfold VEscrow.findLeaf.
    destruct (List.find _ (VEscrow.scripts sc)) as [l|] eqn:Hfind; [|discriminate].
    intros [= <-]. apply find_some in Hfind as [Hin _]. apply list_elem_of_In, Hin. }
  apply spendAction_cases in Hact as [Hact|[Hact|Hact]].
  - apply (Hfound _ (Hrel Hact)).
  - apply (Hfound _ (Href Hact)).
  - apply (Hfound _ (Hdir Hact)).
Qed.

Lemma outputs_conserve_the_amount_witness :
  let env := Scenario.env None None [] in
  let outputs := [ {| amount := 101; script := x51 :: x20 :: Scenario.buyerKey |} ] in
  createOutputsForAction env "Refund" Scenario.contract 101 = Ok outputs /\
  spendAction "Refund" /\
  totalAmount outputs = 101 /\
  (0 <= 101 -> Forall (fun o => 0 <= amount o) outputs) /\
  Forall (fun o =>
            addressToScript env (address (buyer Scenario.contract)) = Ok (script o) \/
            addressToScript env (address (seller Scenario.contract)) = Ok (script o))
    outputs.
Proof.
  intros env outputs. split; [evaluate|].
  apply (proj2 (outputs_conserve_the_amount env "Refund" Scenario.contract 101)).
  evaluate.
Defined.

Lemma built_transaction_spends_the_coin_witness :
  spendAction "Refund" /\
  exists sc leaf input outputs serverUnrollScript,
    restoreScript Scenario.carolEnv Scenario.contract = Ok sc /\
    buildOffchainTx Scenario.carolEnv [input] outputs serverUnrollScript
      = Ok ([x70; x73; x62; x74], [[xc0]]) /\
    (in_txid input, in_vout input, in_value input) = ("f00d", 0, 101) /\
    in_script input = VEscrow.Script_pkScript (sdk Scenario.carolEnv) sc /\
    in_tapLeafScript input = Some leaf /\
    leaf ∈ VEscrow.scripts sc /\
    totalAmount outputs = in_value input.
Proof.
  apply (built_transaction_spends_the_coin Scenario.carolEnv Scenario.contract "Refund"
           (Scenario.coin 101) ([x70; x73; x62; x74], [[xc0]])).
  evaluate.
Defined.

(** ** [addressToScript] *)

Lemma hex_value_digit (c : ascii) (n : N) :
  hex.value c = Some n -> (n < 16)%N /\ hex.digit n = lower_ascii c.
Proof.
  assert (match hex.value c with
          | Some m => (m <? 16)%N && Ascii.eqb (hex.digit m) (lower_ascii c)
          | None => true
          end = true) as Hcheck.
  { destruct c as [[] [] [] [] [] [] [] []]; reflexivity. }
  intros H. rewrite H in Hcheck. apply andb_prop in Hcheck as [Hlt Heq].
  split; [apply N.ltb_lt, Hlt|apply Ascii.eqb_eq, Heq].
Qed.

Lemma hex_encode_byte_of (h l : N) (b : byte) (rest : string) :
  (h < 16)%N -> (l < 16)%N -> of_N (16 * h + l) = Some b ->
  hex.encode_byte b rest = String (hex.digit h) (String (hex.digit l) rest).
Proof.
  intros Hh Hl Hb. apply to_of_N in Hb. unfold hex.encode_byte. rewrite Hb.
  replace ((16 * h + l) / 16)%N with h.
  2: { symmetry. rewrite N.mul_comm. rewrite N.div_add_l by lia.
       rewrite N.div_small by exact Hl. lia. }
  replace ((16 * h + l) mod 16)%N with l.
  2: { symmetry. rewrite N.add_comm, N.mul_comm. rewrite N.Div0.mod_add.
       apply N.mod_small, Hl. }
  reflexivity.
Qed.

(** What [hex.decode] accepts has an even length and encodes back to
    itself in lower case. *)
Lemma hex_decode_sound (s : string) :
  (forall bs, hex.decode s = Some bs ->
     hex.encode bs = toLowerCase s /\ Nat.even (String.length s) = true) /\
  (forall c bs, hex.decode (String c s) = Some bs ->
     hex.encode bs = toLowerCase (String c s)
     /\ Nat.even (String.length (String c s)) = true).
Proof.
  induction s as [|c0 s [IH1 IH2]].
  - split; [intros bs [= <-]; split; reflexivity|]. intros c bs H. discriminate H.
  - split; [apply IH2|]. intros c bs H. cbn [hex.decode] in H.
    destruct (hex.value c) as [h|] eqn:Hh; [|discriminate].
    destruct (hex.value c0) as [l|] eqn:Hl; [|discriminate].
    destruct (hex.decode s) as [bs'|] eqn:Hs; [|discriminate].
    destruct (of_N (16 * h + l)) as [b|] eqn:Hb; [|discriminate].
    injection H as <-.
    destruct (IH1 bs' eq_refl) as [Henc Heven].
    apply hex_value_digit in Hh as [Hh Hdh]. apply hex_value_digit in Hl as [Hl Hdl].
    split.
    + cbn [hex.encode toLowerCase].
      rewrite (hex_encode_byte_of h l b _ Hh Hl Hb), Hdh, Hdl, Henc. reflexivity.
    + cbn [String.length Nat.even]. exact Heven.
Qed.

(** X13. [addressToScript] returns the output script of an address that
    [ArkAddress.decode] accepts. For any other address it falls back to
    hexadecimal: the result is then the bytes that [hex.decode] reads, and
    their hex form is the address in lower case; an address that is not a
    hex string of even length makes it throw "Cannot convert address to
    script:" followed by the address. *)
Theorem address_fallback_is_hex (env : Env) (addr : string) :
  (forall pk, ArkAddress_decode env addr = Ok pk -> addressToScript env addr = Ok pk) /\
  (forall e, ArkAddress_decode env addr = Throw e ->
     match hex.decode addr with
     | Some bs =>
         addressToScript env addr = Ok bs /\ hex.encode bs = toLowerCase addr
     | None =>
         addressToScript env addr = Throw ("Cannot convert address to script: " +:+ addr)
     end).
Proof.
  unfold addressToScript. split; [intros pk ->; reflexivity|].
  intros e ->. destruct (hex.decode addr) as [bs|] eqn:Hd.
  - destruct (proj1 (hex_decode_sound addr) bs Hd) as [Henc ->]. auto.
  - destruct (Nat.even (String.length addr)); reflexivity.
Qed.

Lemma address_fallback_is_hex_witness :
  let env := Scenario.env None None [] in
  addressToScript env "5120AbCd" = Ok [x51; x20; xab; xcd] /\
  hex.encode [x51; x20; xab; xcd] = toLowerCase "5120AbCd" /\
  addressToScript env "tark1qq" = Throw "Cannot convert address to script: tark1qq".
Proof.
  intros env.
  pose proof (proj2 (address_fallback_is_hex env "5120AbCd") "not an Ark address" eq_refl)
    as H1.
  pose proof (proj2 (address_fallback_is_hex env "tark1qq") "not an Ark address" eq_refl)
    as H2.
  split; [exact (proj1 H1)|]. split; [exact (proj2 H1)|exact H2].
Defined.

(** ** The leaf of an action and the signers of the authorizer *)

Lemma restoreScript_inv (env : Env) (c : EscrowContract) (sc : VEscrow.Script) :
  restoreScript env c = Ok sc ->
  exists buyerKey sellerKey arbitratorKey serverKey,
    hex_decode (pubkey (buyer c)) = Ok buyerKey /\
    hex_decode (pubkey (seller c)) = Ok sellerKey /\
    hex_decode (pubkey (arbitrator c)) = Ok arbitratorKey /\
    hex_decode (getServerKey env) = Ok serverKey /\
    VEscrow.new_Script (sdk env)
      {| VEscrow.buyer := buyerKey;
         VEscrow.seller := sellerKey;
         VEscrow.arbitrator := arbitratorKey;
         VEscrow.server := serverKey;
         VEscrow.unilateralDelay := getUnilateralDelay env |} = Ok sc.
Proof.
  unfold restoreScript. intros H.
  destruct (hex_decode (pubkey (buyer c))) as [kb|]; [|discriminate].
  destruct (hex_decode (pubkey (seller c))) as [ks|]; [|discriminate].
  destruct (hex_decode (pubkey (arbitrator c))) as [ka|]; [|discriminate].
  destruct (hex_decode (getServerKey env)) as [kv|]; [|discriminate].
  cbn [rbind] in H. exists kb, ks, ka, kv.
  destruct (VEscrow.new_Script _ _) as [sc'|e]; [|discriminate].
  injection H as <-. split_and!; reflexivity.
Qed.

(** X14. The leaf through which an action is spent asks for the signers
    the authorizer names. For a contract whose script is built and an
    action other than fund for which [getRequiredSignersForAction] names
    signers, [getSpendingPathForAction] returns a leaf, and that leaf is the
    multisig script over the keys of exactly those signers, in the same
    order, followed by the key of the server. *)
Theorem leaf_asks_for_the_required_signers (env : Env) (c : EscrowContract)
    (act : string) (w : WalletInfo) (sc : VEscrow.Script) :
  restoreScript env c = Ok sc ->
  toLowerCase act <> "fund" ->
  getRequiredSignersForAction act c w <> [] ->
  exists leaf keys serverKey,
    getSpendingPathForAction sc act = Ok (Some leaf) /\
    mapR hex_decode (getRequiredSignersForAction act c w) = Ok keys /\
    hex_decode (getServerKey env) = Ok serverKey /\
    leaf = VEscrow.MultisigTapscript_encode (sdk env) (keys ++ [serverKey]).
Proof.
  intros Hsc Hact Hreq.
  destruct (restoreScript_inv env c sc Hsc) as (kb & ks & ka & kv & Hb & Hs & Ha & Hv & Hnew).
  destruct (collaborative_leaves _ _ _ Hnew) as (Hrel & Href & Hdir).
  cbn [VEscrow.buyer VEscrow.seller VEscrow.arbitrator VEscrow.server] in Hrel, Href, Hdir.
  unfold getRequiredSignersForAction in *. unfold getSpendingPathForAction.
  destruct (String.eqb_spec (toLowerCase act) "fund") as [|_]; [contradiction|].
  destruct (String.eqb (toLowerCase act) "release").
  { destruct (_ || _); [|contradiction]. rewrite Hrel. cbn [rbind liftE mapR].
    rewrite Hs, Ha. eexists _, _, kv. split_and!; reflexivity || exact Hv. }
  destruct (String.eqb (toLowerCase act) "refund").
  { destruct (_ || _); [|contradiction]. rewrite Href. cbn [rbind liftE mapR].
    rewrite Hb, Ha. eexists _, _, kv. split_and!; reflexivity || exact Hv. }
  destruct (String.eqb (toLowerCase act) "direct settle"); [|contradiction].
  destruct (_ || _); [|contradiction]. rewrite Hdir. cbn [rbind liftE mapR].
  rewrite Hb, Hs. eexists _, _, kv. split_and!; reflexivity || exact Hv.
Qed.

Lemma leaf_asks_for_the_required_signers_witness :
  exists leaf keys serverKey,
    getSpendingPathForAction Scenario.script "Release" = Ok (Some leaf) /\
    mapR hex_decode
      (getRequiredSignersForAction "Release" Scenario.contract Scenario.bobWallet)
      = Ok keys /\
    hex_decode (getServerKey Scenario.carolEnv) = Ok serverKey /\
    leaf = VEscrow.MultisigTapscript_encode (sdk Scenario.carolEnv) (keys ++ [serverKey]).
Proof.
  apply (leaf_asks_for_the_required_signers Scenario.carolEnv Scenario.contract "Release"
           Scenario.bobWallet Scenario.script).
  - evaluate.
  - vm_compute. discriminate.
  - vm_compute. discriminate.
Defined.

(** ** The pending transaction along a run *)

Lemma slot_moves_refl (old : option PendingTransaction) : slot_moves old old.
Proof.
  destruct old as [p|]; [|constructor].
  apply slot_moves_moved with (p := p); [reflexivity|constructor].
Qed.

(** What a call of [approve] does to the slot of the contract. *)
Lemma approve_moves (env : Env) (a : string) (w : WalletInfo) (s : State) :
  let s' := exec (approvePendingTransaction env a w) s in
  contracts s' = contracts s \/
  exists v, contracts s' = contracts (setSlot a v s) /\ slot_moves (lookupPending s a) v.
Proof.
  intros s'. subst s'.
  destruct (contracts s !! a) as [c|] eqn:Hc;
    [destruct (lookupPending s a) as [p|] eqn:Hlp;
       [destruct (lookupPartialTx s a) as [x|] eqn:Hlx|]|].
  2-4: left; unfold exec, approvePendingTransaction, bind, get;
       rewrite Hc, ?Hlp, ?Hlx; reflexivity.
  pose proof (pendingAt_of_lookups s a c p x Hc Hlp Hlx) as Hat.
  destruct (decide (wallet_pubkey w ∈ requiredSigners x)) as [Hreq|Hreq].
  2: { left. unfold exec. rewrite (approve_not_required env s a w c p x Hat Hreq).
       reflexivity. }
  destruct (decide (wallet_pubkey w ∈ approvals x)) as [Happ|Happ].
  { left. unfold exec. rewrite (approve_already_approved env s a w c p x Hat Hreq Happ).
    reflexivity. }
  pose proof Hreq as Hreqb. pose proof Happ as Happb.
  apply includes_elem_of in Hreqb. apply includes_false in Happb.
  set (s0 := logged [Notify info ("Signing " +:+ action p +:+ " transaction...")] s).
  assert (forall e s1, signTransactionsForUser env a w s0 = (Throw e, s1) ->
          contracts (exec (approvePendingTransaction env a w) s) = contracts s1) as Hthrow.
  { intros e s1 Hst.
    unfold exec, approvePendingTransaction, bind at 1, get.
    rewrite Hc, Hlp, Hlx, Hreqb, Happb. cbn [negb].
    unfold try_catch, bind, showInfo, showError, emit, modify, get.
    fold (logged [Notify info ("Signing " +:+ action p +:+ " transaction...")] s).
    fold s0. rewrite Hst. reflexivity. }
  rewrite (signTransactionsForUser_eq env s0 a w c p x) in Hthrow
    by (apply pendingAt_logged, Hat).
  destruct (getWalletForSigner env (wallet_pubkey w)) as [aw|] eqn:Hw.
  2: { left. apply (Hthrow _ _ eq_refl). }
  destruct (sign (identity aw) (arkTx x) None) as [tx'|e] eqn:Hsign.
  2: { left. apply (Hthrow _ _ eq_refl). }
  cbv zeta in Hthrow.
  destruct (mapR (fun cp => sign (identity aw) cp (Some [0%nat])) (checkpoints x))
    as [cps'|e] eqn:Hcps.
  2: { right. eexists. split; [apply (Hthrow _ _ eq_refl)|].
       apply slot_moves_moved with (p := p); [reflexivity|].
       apply move_signed, (at_partialTx _ _ _ _ _ Hat). }
  clear Hthrow.
  destruct (approve_signed_eq env s a w aw c p x tx' cps' Hat Hreq Happ Hw Hsign Hcps)
    as [Hat1 Heq].
  set (x1 := push_approval _ _) in Hat1, Heq.
  set (p1 := set_partialTx (Some x1) p) in Hat1, Heq.
  fold s0 in Hat1, Heq.
  set (s1 := setSlot a (Some p1) s0) in Hat1, Heq.
  assert (slot_moves (Some p) (Some p1)) as Hev.
  { apply slot_moves_moved with (p := p); [reflexivity|].
    apply move_approved; [apply (at_partialTx _ _ _ _ _ Hat)|exact Hreq|exact Happ]. }
  unfold exec. rewrite Heq. clear Heq.
  destruct (forallb _ _).
  - rewrite (executeMultiSigTransaction_eq env s1 a _ p1 x1 Hat1). cbn [snd]. cbv zeta.
    destruct (getProvider env) as [pr|];
      [destruct (submitTx pr (arkTx x1) (checkpoints x1)) as [arkTxid|e];
         [destruct (finalizeTx pr arkTxid (checkpoints x1)) as [[]|e]|]|].
    2-4: right; exists (Some p1); split; [reflexivity|exact Hev].
    right. exists None. split; [|constructor].
    rewrite !setSlot_logged, !contracts_logged. unfold s1, s0.
    rewrite !setSlot_logged, !contracts_logged, setSlot_setSlot. reflexivity.
  - right. exists (Some p1). split; [reflexivity|exact Hev].
Qed.

Lemma reject_moves (a : string) (w : WalletInfo) (s : State) :
  let s' := exec (rejectPendingTransaction a w) s in
  contracts s' = contracts s \/
  exists v, contracts s' = contracts (setSlot a v s) /\ slot_moves (lookupPending s a) v.
Proof.
  intros s'. subst s'.
  destruct (contracts s !! a) as [c|] eqn:Hc;
    [destruct (lookupPartialTx s a) as [x|] eqn:Hlx|].
  2-3: left; unfold exec, rejectPendingTransaction, bind, get;
       rewrite Hc, ?Hlx; reflexivity.
  destruct (lookupPending s a) as [p|] eqn:Hlp.
  2: { unfold lookupPartialTx in Hlx. rewrite Hlp in Hlx. discriminate. }
  pose proof (pendingAt_of_lookups s a c p x Hc Hlp Hlx) as Hat.
  destruct (decide (wallet_pubkey w ∈ requiredSigners x)) as [Hreq|Hreq].
  - right. unfold exec. rewrite (reject_eq s a w c p x Hat Hreq). cbn [snd].
    eexists. split; [reflexivity|].
    apply slot_moves_moved with (p := p); [reflexivity|].
    apply move_rejected; [apply (at_partialTx _ _ _ _ _ Hat)|exact Hreq].
  - left. unfold exec. rewrite (reject_not_required s a w c p x Hat Hreq). reflexivity.
Qed.

(** One operation, seen from the slot of a contract. *)
Lemma step_slot_moves (env : Env) (op : Op) (s : State) (a : string) :
  slot_moves (lookupPending s a) (lookupPending (step env op s) a).
Proof.
  assert (contracts (step env op s) = contracts s \/
          exists a' v, contracts (step env op s) = contracts (setSlot a' v s) /\
                       slot_moves (lookupPending s a') v) as [H|(a' & v & H & Hv)].
  { destruct op as [a' act w|a' w|a' w|ms|i]; cbn [step].
    - destruct (executeContractAction_contracts env a' act w s) as [H|(a'' & p & H & Hp)];
        [left; exact H|right]. exists a'', (Some p). split; [exact H|constructor; exact Hp].
    - destruct (approve_moves env a' w s) as [H|(v & H & Hv)];
        [left; exact H|right]. exists a', v. split; assumption.
    - destruct (reject_moves a' w s) as [H|(v & H & Hv)];
        [left; exact H|right]. exists a', v. split; assumption.
    - left. reflexivity.
    - rewrite fireTimer_eq. destruct (timers s !! i) as [t|]; [|left; reflexivity].
      destruct (due t <=? now s); [|left; reflexivity].
      right. exists (target t), None. split; [reflexivity|constructor]. }
  - rewrite (lookupPending_contracts _ _ a H). apply slot_moves_refl.
  - rewrite (lookupPending_contracts _ _ a H), lookupPending_setSlot.
    destruct (decide (a' = a)) as [->|_]; [|apply slot_moves_refl].
    destruct (contracts s !! a); [exact Hv|constructor].
Qed.

Lemma fresh_sound (p : PendingTransaction) : fresh p -> sound p.
Proof.
  intros [Hst (x & Hx & Happ & Hrej & Hinit)].
  split; [congruence|]. exists x. split; [exact Hx|].
  rewrite Happ, Hrej. split_and!.
  - apply NoDup_singleton.
  - constructor.
  - intros k Hk. apply list_elem_of_singleton in Hk. auto.
  - intros k Hk. apply elem_of_nil in Hk. destruct Hk.
  - split; [congruence|]. intros H. contradiction.
Qed.

Lemma moves_sound (p p' : PendingTransaction) : moves p p' -> sound p -> sound p'.
Proof.
  intros Hmove [Hst (x & Hx & Hna & Hnr & Hwa & Hwr & Hsr)].
  destruct Hmove as [|x' tx Hx'|x' tx cps pk Hx' Hreq Happ|x' pk Hx' Hreq].
  - split; [exact Hst|]. exists x. auto 10.
  - assert (x' = x) as -> by congruence.
    split; [exact Hst|]. eexists. split; [reflexivity|]. cbn. auto 10.
  - assert (x' = x) as -> by congruence.
    split; [exact Hst|]. eexists. split; [reflexivity|]. cbn. split_and!; auto.
    + apply NoDup_app. split; [exact Hna|]. split; [|apply NoDup_singleton].
      intros k Hk Hk'. apply list_elem_of_singleton in Hk'. subst. contradiction.
    + intros k Hk. apply elem_of_app in Hk as [Hk|Hk]; [auto|].
      apply list_elem_of_singleton in Hk. subst. auto.
  - assert (x' = x) as -> by congruence.
    split; [discriminate|]. eexists. split; [reflexivity|].
    destruct (includes (rejections x) pk) eqn:Hinc; cbn.
    + apply includes_elem_of in Hinc. split_and!; auto.
      split; [|reflexivity]. intros _ Hnil. rewrite Hnil in Hinc.
      apply elem_of_nil in Hinc. destruct Hinc.
    + apply includes_false in Hinc. split_and!; auto.
      * apply NoDup_app. split; [exact Hnr|]. split; [|apply NoDup_singleton].
        intros k Hk Hk'. apply list_elem_of_singleton in Hk'. subst. contradiction.
      * intros k Hk. apply elem_of_app in Hk as [Hk|Hk]; [auto|].
        apply list_elem_of_singleton in Hk. subst. auto.
      * split; [|reflexivity]. intros _ Hnil. destruct (rejections x); discriminate.
Qed.

Lemma run_sound (ops : list (Env * Op)) (s : State) (a : string) :
  (forall p, lookupPending s a = Some p -> sound p) ->
  forall p, lookupPending (run ops s) a = Some p -> sound p.
Proof.
  revert s. induction ops as [|[env op] ops IH]; intros s Hs; [exact Hs|].
  cbn [run]. apply IH. intros p' Hp'.
  pose proof (step_slot_moves env op s a) as Hstep. rewrite Hp' in Hstep.
  inversion Hstep as [|q Hq|q q' Hq Hmove]; subst.
  - apply fresh_sound, Hq.
  - apply (moves_sound q p' Hmove), Hs. exact Hq.
Qed.

(** X15. Along any sequence of operations (new actions, approvals,
    rejections, the passing of time, timers), with any answers of the
    collaborators, the pending transaction of a contract keeps its shape,
    provided it had it at the start or there was none: its status is
    [pending_cosign] or [rejected], never [approved], and it is [rejected]
    exactly when the list of rejections is not empty; no key occurs twice
    among the approvals or among the rejections; every rejection is by a
    required signer; and the number of approvals never exceeds the number of
    required signers plus one, the total that the interface displays. *)
Theorem pending_transaction_stays_sound (ops : list (Env * Op)) (s : State) (a : string) :
  (forall p, lookupPending s a = Some p -> sound p) ->
  forall p, lookupPending (run ops s) a = Some p ->
  exists x,
    partialTx p = Some x /\
    status p <> approved /\
    (status p = rejected <-> rejections x <> []) /\
    NoDup (approvals x) /\
    NoDup (rejections x) /\
    rejections x ⊆ requiredSigners x /\
    (length (approvals x) <= length (requiredSigners x) + 1)%nat.
Proof.
  intros Hs p Hp.
  destruct (run_sound ops s a Hs p Hp) as [Hst (x & Hx & Hna & Hnr & Hwa & Hwr & Hsr)].
  exists x. split_and!; auto.
  assert (approvals x ⊆+ requiredSigners x ++ [initiator p]) as Hsub.
  { apply NoDup_submseteq; [exact Hna|]. intros k Hk. apply elem_of_app.
    destruct (Hwa k Hk) as [H| ->]; [auto|]. right. apply list_elem_of_singleton. reflexivity. }
  apply submseteq_length in Hsub. rewrite length_app in Hsub. exact Hsub.
Qed.

Lemma pending_transaction_stays_sound_witness :
  exists x,
    partialTx Scenario.rejectedPending = Some x /\
    status Scenario.rejectedPending <> approved /\
    (status Scenario.rejectedPending = rejected <-> rejections x <> []) /\
    NoDup (approvals x) /\
    NoDup (rejections x) /\
    rejections x ⊆ requiredSigners x /\
    (length (approvals x) <= length (requiredSigners x) + 1)%nat.
Proof.
  apply (pending_transaction_stays_sound
           [ (Scenario.env (Some Scenario.bobWallet) (Some Scenario.provider)
                [Scenario.coin 101],
              ExecuteContractAction Scenario.arkAddress "Release" Scenario.bobWallet);
             (Scenario.aliceEnv (Some Scenario.provider),
              RejectPendingTransaction Scenario.arkAddress Scenario.aliceWallet) ]
           Scenario.initial Scenario.arkAddress).
  - intros p Hp. vm_compute in Hp. discriminate.
  - evaluate.
Defined.

Lemma terms_setSlot (a k : string) (v : option PendingTransaction) (s : State) :
  terms <$> (contracts (setSlot a v s) !! k) = terms <$> (contracts s !! k).
Proof.
  unfold setSlot, updPending, set_contracts; cbn.
  destruct (decide (a = k)) as [<-|Hne].
  - rewrite lookup_alter_eq. destruct (contracts s !! a); reflexivity.
  - rewrite lookup_alter_ne by exact Hne. reflexivity.
Qed.

(** X16. The operations of the coordinator change nothing of a contract
    but its pending transaction: after any sequence of operations, with any
    answers of the collaborators, the map holds a contract under an address
    exactly when it did before, and that contract has the same buyer,
    seller, arbitrator, description and timestamp. *)
Theorem contracts_keep_their_terms (ops : list (Env * Op)) (s : State) (a : string) :
  terms <$> (contracts (run ops s) !! a) = terms <$> (contracts s !! a).
Proof.
  revert s. induction ops as [|[env op] ops IH]; intros s; [reflexivity|].
  cbn [run]. rewrite IH.
  destruct (step_contracts env op s) as [->|(a' & v & -> & _)]; [reflexivity|].
  apply terms_setSlot.
Qed.

(** ** Approving twice, and approving or rejecting nothing *)

Lemma approve_nothing_pending (env : Env) (s : State) (a : string) (w : WalletInfo) :
  lookupPartialTx s a = None ->
  approvePendingTransaction env a w s
  = (Ok tt, logged [Notify error "No pending transaction to approve"] s).
Proof.
  intros Hlx. unfold approvePendingTransaction, bind, get. rewrite Hlx.
  destruct (contracts s !! a); [|reflexivity].
  destruct (lookupPending s a); reflexivity.
Qed.

Lemma reject_nothing_pending (s : State) (a : string) (w : WalletInfo) :
  lookupPartialTx s a = None ->
  rejectPendingTransaction a w s
  = (Ok tt, logged [Notify error "No pending transaction to reject"] s).
Proof.
  intros Hlx. unfold rejectPendingTransaction, bind, get. rewrite Hlx.
  destruct (contracts s !! a); reflexivity.
Qed.

(** X17. On a contract that has no pending transaction, or one without its
    partial transaction, [approve] and [reject] do nothing but report the
    errors "No pending transaction to approve" and "No pending transaction
    to reject": nothing is signed, no timer is set and the map of contracts
    is as it was. *)
Theorem nothing_to_approve_or_reject (env : Env) (s : State) (a : string)
    (w : WalletInfo) :
  lookupPartialTx s a = None ->
  exec (approvePendingTransaction env a w) s
    = logged [Notify error "No pending transaction to approve"] s /\
  exec (rejectPendingTransaction a w) s
    = logged [Notify error "No pending transaction to reject"] s.
Proof.
  intros Hlx. unfold exec.
  rewrite (approve_nothing_pending env s a w Hlx), (reject_nothing_pending s a w Hlx).
  split; reflexivity.
Qed.

Lemma nothing_to_approve_or_reject_witness :
  exec (approvePendingTransaction (Scenario.aliceEnv (Some Scenario.provider))
          Scenario.arkAddress Scenario.aliceWallet) Scenario.initial
    = logged [Notify error "No pending transaction to approve"] Scenario.initial /\
  exec (rejectPendingTransaction Scenario.arkAddress Scenario.aliceWallet) Scenario.initial
    = logged [Notify error "No pending transaction to reject"] Scenario.initial.
Proof.
  apply (nothing_to_approve_or_reject (Scenario.aliceEnv (Some Scenario.provider))
           Scenario.initial Scenario.arkAddress Scenario.aliceWallet).
  evaluate.
Defined.

Lemma lookupPartialTx_logged (evs : list Event) (s : State) (a : string) :
  lookupPartialTx (logged evs s) a = lookupPartialTx s a.
Proof. reflexivity. Qed.

Lemma lookupPending_cleared (s : State) (a : string) :
  lookupPending (setSlot a None s) a = None.
Proof.
  rewrite lookupPending_setSlot.
  destruct (decide (a = a)); [|congruence]. destruct (contracts s !! a); reflexivity.
Qed.

Lemma lookupPartialTx_cleared (s : State) (a : string) :
  lookupPartialTx (setSlot a None s) a = None.
Proof.
  unfold lookupPartialTx. rewrite lookupPending_setSlot.
  destruct (decide (a = a)); [|congruence]. destruct (contracts s !! a); reflexivity.
Qed.

(** X18. A second approval by the same signer does nothing. After an
    [approve] in which a required signer who had not approved has signed
    the spend transaction and the checkpoints, whatever became of the
    execution, a further [approve] by that signer, with any answers of the
    collaborators, signs nothing and calls nobody: it only reports "You have
    already approved this transaction" when the pending transaction is
    still there, and "No pending transaction to approve" when the first
    approval has executed and cleared it. *)
Theorem second_approval_is_refused (env env' : Env) (s : State) (a : string)
    (w authorizedWallet : WalletInfo) (c : EscrowContract) (p : PendingTransaction)
    (x : PartialTx) (signedPSBT : Bytes) (signedCheckpoints : list Bytes) :
  pendingAt s a c p x ->
  wallet_pubkey w ∈ requiredSigners x ->
  wallet_pubkey w ∉ approvals x ->
  getWalletForSigner env (wallet_pubkey w) = Some authorizedWallet ->
  sign (identity authorizedWallet) (arkTx x) None = Ok signedPSBT ->
  mapR (fun cp => sign (identity authorizedWallet) cp (Some [0%nat])) (checkpoints x)
    = Ok signedCheckpoints ->
  let s1 := exec (approvePendingTransaction env a w) s in
  let s2 := exec (approvePendingTransaction env' a w) s1 in
  match lookupPending s1 a with
  | Some _ =>
      s2 = logged [Notify error "You have already approved this transaction"] s1
  | None =>
      s2 = logged [Notify error "No pending transaction to approve"] s1
  end.
Proof.
  intros Hat Hreq Happ Hw Hsign Hcps s1 s2.
  destruct (approve_signed_eq env s a w authorizedWallet c p x signedPSBT signedCheckpoints
              Hat Hreq Happ Hw Hsign Hcps) as [Hat1 Heq].
  set (x1 := push_approval _ _) in Hat1, Heq.
  set (p1 := set_partialTx (Some x1) p) in Hat1, Heq.
  set (s0 := setSlot a (Some p1) _) in Hat1, Heq.
  assert (wallet_pubkey w ∈ requiredSigners x1) as Hreq1 by exact Hreq.
  assert (wallet_pubkey w ∈ approvals x1) as Happ1.
  { cbn. apply elem_of_app. right. apply list_elem_of_singleton. reflexivity. }
  assert (forall evs,
            s1 = logged evs s0 ->
            match lookupPending s1 a with
            | Some _ =>
                s2 = logged [Notify error "You have already approved this transaction"] s1
            | None => s2 = logged [Notify error "No pending transaction to approve"] s1
            end) as Hkept.
  { intros evs Hs1.
    assert (pendingAt s1 a (set_pendingTransaction (Some p1) c) p1 x1) as Hat2.
    { rewrite Hs1. apply pendingAt_logged, Hat1. }
    rewrite (proj1 (pendingAt_lookup _ _ _ _ _ Hat2)).
    unfold s2, exec.
    rewrite (approve_already_approved env' s1 a w _ p1 x1 Hat2 Hreq1 Happ1). reflexivity. }
  assert (s1 = (approvePendingTransaction env a w s).2) as Hs1 by reflexivity.
  rewrite Heq in Hs1. clear Heq.
  destruct (forallb _ _).
  2: { apply (Hkept _ Hs1). }
  rewrite (executeMultiSigTransaction_eq env s0 a _ p1 x1 Hat1) in Hs1. cbn [snd] in Hs1.
  cbv zeta in Hs1.
  destruct (getProvider env) as [pr|].
  2: { rewrite logged_logged in Hs1. apply (Hkept _ Hs1). }
  destruct (submitTx pr (arkTx x1) (checkpoints x1)) as [arkTxid|e].
  2: { rewrite !logged_logged in Hs1. apply (Hkept _ Hs1). }
  destruct (finalizeTx pr arkTxid (checkpoints x1)) as [[]|e].
  2: { rewrite !logged_logged in Hs1. apply (Hkept _ Hs1). }
  assert (lookupPartialTx s1 a = None) as Hnone.
  { rewrite Hs1. apply lookupPartialTx_cleared. }
  assert (lookupPending s1 a = None) as Hnp.
  { rewrite Hs1. apply lookupPending_cleared. }
  rewrite Hnp. unfold s2, exec. rewrite (approve_nothing_pending env' s1 a w Hnone).
  reflexivity.
Qed.

Lemma second_approval_is_refused_witness :
  let s1 :=
    exec (approvePendingTransaction (Scenario.aliceEnv (Some Scenario.failingProvider))
            Scenario.arkAddress Scenario.aliceWallet) Scenario.released in
  let s2 :=
    exec (approvePendingTransaction (Scenario.aliceEnv (Some Scenario.provider))
            Scenario.arkAddress Scenario.aliceWallet) s1 in
  lookupPending s1 Scenario.arkAddress = Some Scenario.unsentPending /\
  s2 = logged [Notify error "You have already approved this transaction"] s1.
Proof.
  intros s1 s2.
  assert (pendingAt Scenario.released Scenario.arkAddress Scenario.releasedContract
            Scenario.releasePending Scenario.releasePartialTx) as Hat
    by (split; vm_compute; reflexivity).
  assert (wallet_pubkey Scenario.aliceWallet ∈ requiredSigners Scenario.releasePartialTx)
    as Hreq by (apply includes_elem_of; evaluate).
  assert (wallet_pubkey Scenario.aliceWallet ∉ approvals Scenario.releasePartialTx)
    as Happ by (apply includes_false; evaluate).
  pose proof (second_approval_is_refused
                (Scenario.aliceEnv (Some Scenario.failingProvider))
                (Scenario.aliceEnv (Some Scenario.provider))
                Scenario.released Scenario.arkAddress Scenario.aliceWallet
                Scenario.aliceWallet Scenario.releasedContract Scenario.releasePending
                Scenario.releasePartialTx [x70; x73; x62; x74; x05; x0a] [[xc0; x05; x0a]]
                Hat Hreq Happ eq_refl eq_refl eq_refl)
    as H.
  assert (lookupPending s1 Scenario.arkAddress = Some Scenario.unsentPending) as Hl
    by evaluate.
  split; [exact Hl|].
  cbv zeta in H. fold s1 in H. rewrite Hl in H. exact H.
Defined.

(** ** From the request to the execution *)

Lemma cosigners_single (act : string) (c : EscrowContract) (w : WalletInfo) :
  distinctParties c ->
  toLowerCase act <> "fund" ->
  getRequiredSignersForAction act c w <> [] ->
  exists k, cosigners act c w = [k] /\ k <> wallet_pubkey w /\ getUserRole c k <> None.
Proof.
  intros Hd Hact Hreq.
  destruct (distinctParties_ne c Hd) as (Hbs & Hba & Hsa).
  assert (forall k, k = pubkey (buyer c) \/ k = pubkey (seller c)
                    \/ k = pubkey (arbitrator c) -> getUserRole c k <> None) as Hrole.
  { intros k Hk. destruct (getUserRole_cases c k) as [(_ & ->)|[(_ & _ & ->)|[(_ & _ & _ & ->)|H]]];
      try discriminate. destruct H as (N1 & N2 & N3 & _). tauto. }
  unfold cosigners, getRequiredSignersForAction in *.
  destruct (String.eqb_spec (toLowerCase act) "fund") as [|_]; [contradiction|].
  destruct (getUserRole_cases c (wallet_pubkey w))
    as [(E & Hr)|[(N1 & E & Hr)|[(N1 & N2 & E & Hr)|(N1 & N2 & N3 & Hr)]]];
    rewrite Hr in *; cbn [role_is String.eqb Ascii.eqb Bool.eqb orb] in *;
    repeat match goal with
    | H : context [if String.eqb ?u ?v then _ else _] |- _ => destruct (String.eqb u v)
    end;
    try contradiction;
    first
      [ rewrite (filter_two_first _ _ _ E) by assumption
      | rewrite (filter_two_second _ _ _ E) by assumption ];
    eexists; (split; [reflexivity|]); (split; [congruence|]); apply Hrole; auto.
Qed.

(** X19. Two signatures settle a contract. On a contract whose three
    parties have different keys and which is stored under the address
    derived from its keys, let a party ask for a release, a refund or a
    direct settle that the authorizer allows, with an output at the address
    and a transaction built and signed; then let a co-signer of that request
    approve, sign, and the Ark server accept. After these two operations
    the transaction has been submitted once and finalized once, with the
    bytes and the checkpoints that carry both signatures, no funding
    transfer was made, and the contract has no pending transaction left. *)
Theorem two_signatures_settle (env1 env2 : Env) (s : State) (a act : string)
    (initiatorWallet cosignerWallet authorizedWallet : WalletInfo) (c : EscrowContract)
    (sc : VEscrow.Script) (serverKey : Bytes)
    (coin : VirtualCoin) (coins : list VirtualCoin)
    (unsignedArkTx signedArkTx cosignedArkTx : Bytes)
    (unsignedCheckpoints signedCheckpoints cosignedCheckpoints : list Bytes)
    (arkProvider : ArkProvider) (arkTxid : string) :
  contracts s !! a = Some c ->
  distinctParties c ->
  toLowerCase act <> "fund" ->
  restoreScript env1 c = Ok sc ->
  hex_decode (getServerKey env1) = Ok serverKey ->
  let addr := VEscrow.address (sdk env1) sc (getAddrPrefix env1) serverKey in
  VEscrow.encoded addr = a ->
  getVtxos env1 (hex.encode (VEscrow.pkScript addr)) = Ok (coin :: coins) ->
  wallet_pubkey cosignerWallet ∈ cosigners act c initiatorWallet ->
  createEscrowTransaction env1 c act coin = Ok (unsignedArkTx, unsignedCheckpoints) ->
  sign (identity initiatorWallet) unsignedArkTx None = Ok signedArkTx ->
  mapR (fun cp => sign (identity initiatorWallet) cp (Some [0%nat])) unsignedCheckpoints
    = Ok signedCheckpoints ->
  getWalletForSigner env2 (wallet_pubkey cosignerWallet) = Some authorizedWallet ->
  sign (identity authorizedWallet) signedArkTx None = Ok cosignedArkTx ->
  mapR (fun cp => sign (identity authorizedWallet) cp (Some [0%nat])) signedCheckpoints
    = Ok cosignedCheckpoints ->
  getProvider env2 = Some arkProvider ->
  submitTx arkProvider cosignedArkTx cosignedCheckpoints = Ok arkTxid ->
  finalizeTx arkProvider arkTxid cosignedCheckpoints = Ok tt ->
  let s' :=
    run [ (env1, ExecuteContractAction a act initiatorWallet);
          (env2, ApprovePendingTransaction a cosignerWallet) ] s in
  lookupPending s' a = None /\
  exists evs,
    log s' = log s ++ evs /\
    chainCalls evs = [ SubmitTx cosignedArkTx cosignedCheckpoints;
                       FinalizeTx arkTxid cosignedCheckpoints ] /\
    transfers evs = [].
Proof.
  intros Hc Hd Hact Hsc Hkey addr Ha Hv Hco Htx Hsign Hcps Hw Hsign2 Hcps2 Hpr Hsub Hfin s'.
  assert (getRequiredSignersForAction act c initiatorWallet <> []) as Hne.
  { intros Hnil. unfold cosigners in Hco. rewrite Hnil in Hco.
    apply elem_of_nil in Hco. destruct Hco. }
  destruct (cosigners_single act c initiatorWallet Hd Hact Hne) as (k & Hk & Hki & _).
  assert (k = wallet_pubkey cosignerWallet) as ->.
  { rewrite Hk in Hco. apply list_elem_of_singleton in Hco. congruence. }
  destruct (getRequiredSignersForAction act c initiatorWallet) as [|r rs] eqn:Hreq;
    [congruence|].
  unfold cosigners in Hk. rewrite Hreq in Hk.
  pose proof (executeContractAction_creates env1 s a act initiatorWallet c sc serverKey
                coin coins r rs unsignedArkTx signedArkTx unsignedCheckpoints
                signedCheckpoints Hc Hact Hsc Hkey Hv Hreq Htx Hsign Hcps) as Hcreate.
  cbv zeta in Hcreate. fold addr in Hcreate. rewrite Ha, Hk in Hcreate.
  set (x0 := {| vtxo := _; arkTx := signedArkTx |}) in Hcreate.
  set (p0 := {| action := act; partialTx := Some x0 |}) in Hcreate.
  set (s1 := exec (executeContractAction env1 a act initiatorWallet) s) in *.
  assert (pendingAt s1 a (set_pendingTransaction (Some p0) c) p0 x0) as Hat.
  { rewrite Hcreate. apply pendingAt_logged.
    split; [apply contracts_setSlot_eq, Hc|reflexivity|reflexivity]. }
  assert (wallet_pubkey cosignerWallet ∈ requiredSigners x0) as Hin.
  { cbn. apply list_elem_of_singleton. reflexivity. }
  assert (wallet_pubkey cosignerWallet ∉ approvals x0) as Hnin.
  { cbn. intros H. apply list_elem_of_singleton in H. congruence. }
  destruct (approve_signed_eq env2 s1 a cosignerWallet authorizedWallet _ p0 x0
              cosignedArkTx cosignedCheckpoints Hat Hin Hnin Hw Hsign2 Hcps2)
    as [Hat1 Heq].
  set (x1 := push_approval _ _) in Hat1, Heq.
  set (p1 := set_partialTx (Some x1) p0) in Hat1, Heq.
  set (s2 := setSlot a (Some p1) _) in Hat1, Heq.
  assert (forallb (includes (approvals x1)) (requiredSigners x0 ++ [initiator p0]) = true)
    as Hall.
  { apply forallb_includes. intros j Hj. cbn in Hj |- *.
    rewrite !elem_of_cons in Hj. rewrite !elem_of_cons. tauto. }
  rewrite Hall in Heq.
  rewrite (executeMultiSigTransaction_eq env2 s2 a _ p1 x1 Hat1) in Heq.
  cbv zeta in Heq. rewrite Hpr in Heq.
  change (arkTx x1) with cosignedArkTx in Heq.
  change (checkpoints x1) with cosignedCheckpoints in Heq.
  rewrite Hsub, Hfin in Heq.
  assert (s' = (approvePendingTransaction env2 a cosignerWallet s1).2) as Hs' by reflexivity.
  rewrite Heq in Hs'. cbn [snd] in Hs'.
  split.
  - rewrite Hs'. apply lookupPending_cleared.
  - rewrite Hs'. unfold s2. rewrite Hcreate.
    eexists. split.
    + cbn. rewrite <- !app_assoc. reflexivity.
    + split; reflexivity.
Qed.

Lemma two_signatures_settle_witness :
  let s' :=
    run [ (Scenario.env (Some Scenario.bobWallet) (Some Scenario.provider)
             [Scenario.coin 101],
           ExecuteContractAction Scenario.arkAddress "Release" Scenario.bobWallet);
          (Scenario.aliceEnv (Some Scenario.provider),
           ApprovePendingTransaction Scenario.arkAddress Scenario.aliceWallet) ]
      Scenario.initial in
  lookupPending s' Scenario.arkAddress = None /\
  exists evs,
    log s' = log Scenario.initial ++ evs /\
    chainCalls evs = [ SubmitTx [x70; x73; x62; x74; x05; x0a] [[xc0; x05; x0a]];
                       FinalizeTx "a1b2" [[xc0; x05; x0a]] ] /\
    transfers evs = [].
Proof.
  assert (distinctParties Scenario.contract) as Hd.
  { unfold distinctParties. repeat (apply NoDup_cons; split); try apply NoDup_nil_2;
      rewrite ?elem_of_cons, elem_of_nil; vm_compute; intuition discriminate. }
  assert (toLowerCase "Release" <> "fund") as Hact by (vm_compute; discriminate).
  assert (wallet_pubkey Scenario.aliceWallet
            ∈ cosigners "Release" Scenario.contract Scenario.bobWallet) as Hco.
  { apply includes_elem_of. evaluate. }
  exact (two_signatures_settle
           (Scenario.env (Some Scenario.bobWallet) (Some Scenario.provider)
              [Scenario.coin 101])
           (Scenario.aliceEnv (Some Scenario.provider))
           Scenario.initial Scenario.arkAddress "Release"
           Scenario.bobWallet Scenario.aliceWallet Scenario.aliceWallet Scenario.contract
           Scenario.script Scenario.serverKey (Scenario.coin 101) []
           [x70; x73; x62; x74] [x70; x73; x62; x74; x05] [x70; x73; x62; x74; x05; x0a]
           [[xc0]] [[xc0; x05]] [[xc0; x05; x0a]] Scenario.provider "a1b2"
           ltac:(evaluate) Hd Hact ltac:(evaluate) ltac:(evaluate) ltac:(evaluate)
           ltac:(evaluate) Hco ltac:(evaluate) eq_refl eq_refl ltac:(evaluate)
           eq_refl eq_refl eq_refl eq_refl eq_refl).
Defined.

(** ** Approving after a rejection *)

(** X20. A rejection does not stop [approvePendingTransaction]. When the
    pending transaction of a contract has the status [rejected], the
    interface offers the approve and reject buttons to no wallet; but the
    method itself tests neither the status nor the rejections: called for a
    required signer who has not approved and whose approval completes the
    set, it signs, submits and finalizes the transaction and clears the
    pending transaction, as it does for one that was not rejected. *)
Theorem rejection_does_not_stop_approve (env : Env) (s : State) (a : string)
    (w authorizedWallet : WalletInfo) (c : EscrowContract) (p : PendingTransaction)
    (x : PartialTx) (signedPSBT : Bytes) (signedCheckpoints : list Bytes)
    (arkProvider : ArkProvider) (arkTxid : string) :
  pendingAt s a c p x ->
  status p = rejected ->
  wallet_pubkey w ∈ requiredSigners x ->
  wallet_pubkey w ∉ approvals x ->
  (forall k, k ∈ requiredSigners x ++ [initiator p] ->
             k ∈ approvals x \/ k = wallet_pubkey w) ->
  getWalletForSigner env (wallet_pubkey w) = Some authorizedWallet ->
  sign (identity authorizedWallet) (arkTx x) None = Ok signedPSBT ->
  mapR (fun cp => sign (identity authorizedWallet) cp (Some [0%nat])) (checkpoints x)
    = Ok signedCheckpoints ->
  getProvider env = Some arkProvider ->
  submitTx arkProvider signedPSBT signedCheckpoints = Ok arkTxid ->
  finalizeTx arkProvider arkTxid signedCheckpoints = Ok tt ->
  let s' := exec (approvePendingTransaction env a w) s in
  (forall currentWallet, needsApproval currentWallet p x = false) /\
  lookupPending s' a = None /\
  exists evs,
    log s' = log s ++ evs /\
    chainCalls evs = [ SubmitTx signedPSBT signedCheckpoints;
                       FinalizeTx arkTxid signedCheckpoints ].
Proof.
  intros Hat Hst Hreq Happ Hall Hw Hsign Hcps Hpr Hsub Hfin s'.
  split.
  { intros [cw|]; [|reflexivity]. unfold needsApproval. rewrite Hst.
    rewrite !andb_false_r. reflexivity. }
  destruct (approve_signed_eq env s a w authorizedWallet c p x signedPSBT signedCheckpoints
              Hat Hreq Happ Hw Hsign Hcps) as [Hat1 Heq].
  set (x1 := push_approval _ _) in Hat1, Heq.
  set (p1 := set_partialTx (Some x1) p) in Hat1, Heq.
  set (s1 := setSlot a (Some p1) _) in Hat1, Heq.
  assert (forallb (includes (approvals x1)) (requiredSigners x ++ [initiator p]) = true)
    as Hyes.
  { apply forallb_includes. intros k Hk. cbn. apply elem_of_app.
    destruct (Hall k Hk) as [H| ->]; [auto|]. right. apply list_elem_of_singleton.
    reflexivity. }
  rewrite Hyes in Heq.
  rewrite (executeMultiSigTransaction_eq env s1 a _ p1 x1 Hat1) in Heq.
  cbv zeta in Heq. rewrite Hpr in Heq.
  change (arkTx x1) with signedPSBT in Heq.
  change (checkpoints x1) with signedCheckpoints in Heq.
  rewrite Hsub, Hfin in Heq.
  assert (s' = (approvePendingTransaction env a w s).2) as Hs' by reflexivity.
  rewrite Heq in Hs'. cbn [snd] in Hs'. rewrite Hs'.
  split; [apply lookupPending_cleared|].
  eexists. split; [cbn; rewrite <- !app_assoc; reflexivity|reflexivity].
Qed.

Lemma rejection_does_not_stop_approve_witness :
  let s' :=
    exec (approvePendingTransaction (Scenario.aliceEnv (Some Scenario.provider))
            Scenario.arkAddress Scenario.aliceWallet) Scenario.rejectedByAlice in
  (forall currentWallet,
     needsApproval currentWallet Scenario.rejectedPending Scenario.rejectedPartialTx = false) /\
  lookupPending s' Scenario.arkAddress = None /\
  exists evs,
    log s' = log Scenario.rejectedByAlice ++ evs /\
    chainCalls evs = [ SubmitTx [x70; x73; x62; x74; x05; x0a] [[xc0; x05; x0a]];
                       FinalizeTx "a1b2" [[xc0; x05; x0a]] ].
Proof.
  assert (pendingAt Scenario.rejectedByAlice Scenario.arkAddress
            (set_pendingTransaction (Some Scenario.rejectedPending) Scenario.contract)
            Scenario.rejectedPending Scenario.rejectedPartialTx) as Hat
    by (split; vm_compute; reflexivity).
  assert (wallet_pubkey Scenario.aliceWallet ∈ requiredSigners Scenario.rejectedPartialTx)
    as Hreq by (apply includes_elem_of; evaluate).
  assert (wallet_pubkey Scenario.aliceWallet ∉ approvals Scenario.rejectedPartialTx)
    as Happ by (apply includes_false; evaluate).
  assert (forall k,
            k ∈ requiredSigners Scenario.rejectedPartialTx
                ++ [initiator Scenario.rejectedPending] ->
            k ∈ approvals Scenario.rejectedPartialTx
            \/ k = wallet_pubkey Scenario.aliceWallet) as Hall.
  { intros k Hk. cbn in Hk. rewrite !elem_of_cons, elem_of_nil in Hk.
    destruct Hk as [->|[->|[]]]; [right; reflexivity|left; cbn; listed]. }
  exact (rejection_does_not_stop_approve (Scenario.aliceEnv (Some Scenario.provider))
           Scenario.rejectedByAlice Scenario.arkAddress Scenario.aliceWallet
           Scenario.aliceWallet _ Scenario.rejectedPending Scenario.rejectedPartialTx
           [x70; x73; x62; x74; x05; x0a] [[xc0; x05; x0a]] Scenario.provider "a1b2"
           Hat eq_refl Hreq Happ Hall eq_refl eq_refl eq_refl eq_refl eq_refl eq_refl).
Defined.

(** ** [createEscrowContract] *)

Lemma three_distinct (b s a : string) :
  bool_decide (size (list_to_set [b; s; a] : gset string) = length [b; s; a]) = true
  <-> NoDup [b; s; a].
Proof. rewrite bool_decide_eq_true. apply size_list_to_set_NoDup. Qed.

(** X21. What [createEscrowContract] refuses. Without a wallet it reports
    "No wallet available"; with an empty identifier among the three, "Please
    select all parties"; with two equal identifiers, "All parties must be
    different users"; with an identifier that [getUserById] does not know,
    "One or more selected users not found"; and when the script of the three
    users cannot be built (a key that is not 32 bytes of hex, or two equal
    keys among the parties and the server), "Failed to create contract". In
    each case this error notification is all that happens: no contract is
    stored. *)
Theorem creation_refusals (env : Env) (getUserById : string -> option User)
    (published : Result string unit) (buyerId sellerId arbitratorId description : string)
    (currentWallet : option WalletInfo) (unilateralDelay : VEscrow.RelativeTimelock)
    (st : State) :
  let s' :=
    exec (createEscrowContract env getUserById published buyerId sellerId arbitratorId
            description currentWallet unilateralDelay) st in
  let refused msg := s' = logged [Notify error msg] st in
  (currentWallet = None -> refused "No wallet available") /\
  (currentWallet <> None ->
     (buyerId = "" \/ sellerId = "" \/ arbitratorId = "" ->
        refused "Please select all parties") /\
     (buyerId <> "" -> sellerId <> "" -> arbitratorId <> "" ->
        (~ NoDup [buyerId; sellerId; arbitratorId] ->
           refused "All parties must be different users") /\
        (NoDup [buyerId; sellerId; arbitratorId] ->
           (getUserById buyerId = None \/ getUserById sellerId = None
            \/ getUserById arbitratorId = None ->
              refused "One or more selected users not found") /\
           (forall buyer seller arbitrator e,
              getUserById buyerId = Some buyer ->
              getUserById sellerId = Some seller ->
              getUserById arbitratorId = Some arbitrator ->
              restoreScript env
                {| buyer := buyer; seller := seller; arbitrator := arbitrator;
                   description := trim description; contract_timestamp := now st;
                   pendingTransaction := None |} = Throw e ->
              refused "Failed to create contract")))).
Proof.
  intros s' refused.
  assert (s' = exec (createEscrowContract env getUserById published buyerId sellerId
                       arbitratorId description currentWallet unilateralDelay) st)
    as Hs' by reflexivity.
  clearbody s'. subst refused. cbv beta.
  unfold exec, createEscrowContract in Hs'.
  split; [intros ->; exact Hs'|]. intros Hw.
  destruct currentWallet as [w|]; [|contradiction]. clear Hw.
  split.
  { intros Hempty.
    assert (String.eqb buyerId "" || String.eqb sellerId "" || String.eqb arbitratorId ""
            = true) as Ht; [|rewrite Ht in Hs'; exact Hs'].
    destruct Hempty as [-> | [-> | ->]]; rewrite ?orb_true_r; reflexivity. }
  intros Hb Hs Ha.
  apply String.eqb_neq in Hb, Hs, Ha. rewrite Hb, Hs, Ha in Hs'. cbn [orb] in Hs'.
  split.
  { intros Hdup.
    destruct (bool_decide _) eqn:Hsize in Hs'; [|exact Hs'].
    apply three_distinct in Hsize. contradiction. }
  intros Hnd. apply three_distinct in Hnd. rewrite Hnd in Hs'. cbn [negb] in Hs'.
  unfold try_catch in Hs'.
  split.
  { intros Hmissing.
    destruct (getUserById buyerId); [|exact Hs'].
    destruct (getUserById sellerId); [|exact Hs'].
    destruct (getUserById arbitratorId); [|exact Hs'].
    destruct Hmissing as [H|[H|H]]; discriminate H. }
  intros buyer seller arbitrator e Hub Hus Hua Hthrow. rewrite Hub, Hus, Hua in Hs'.
  unfold bind, get, lift in Hs'. rewrite Hthrow in Hs'. exact Hs'.
Qed.

Lemma creation_refusals_witness :
  let users id :=
    if String.eqb id "carol" then Some Scenario.carol
    else if String.eqb id "bob" then Some Scenario.bob else None in
  let create b s a w :=
    exec (createEscrowContract Scenario.idle users (Ok tt) b s a " bicycle " w Scenario.delay)
      Scenario.initial in
  create "carol" "bob" "alice" None
    = logged [Notify error "No wallet available"] Scenario.initial /\
  create "carol" "" "alice" (Some Scenario.carolWallet)
    = logged [Notify error "Please select all parties"] Scenario.initial /\
  create "carol" "bob" "carol" (Some Scenario.carolWallet)
    = logged [Notify error "All parties must be different users"] Scenario.initial /\
  create "carol" "bob" "alice" (Some Scenario.carolWallet)
    = logged [Notify error "One or more selected users not found"] Scenario.initial.
Proof.
  intros users create.
  split; [|split; [|split]].
  - apply (proj1 (creation_refusals Scenario.idle users (Ok tt) "carol" "bob" "alice"
                    " bicycle " None Scenario.delay Scenario.initial)).
    reflexivity.
  - apply (proj2 (creation_refusals Scenario.idle users (Ok tt) "carol" "" "alice"
                    " bicycle " (Some Scenario.carolWallet) Scenario.delay Scenario.initial)).
    + discriminate.
    + right. left. reflexivity.
  - apply (proj2 (creation_refusals Scenario.idle users (Ok tt) "carol" "bob" "carol"
                    " bicycle " (Some Scenario.carolWallet) Scenario.delay Scenario.initial)).
    + discriminate.
    + discriminate.
    + discriminate.
    + discriminate.
    + intros Hnd. apply NoDup_cons in Hnd as [Hnin _]. apply Hnin. listed.
  - apply (proj2 (creation_refusals Scenario.idle users (Ok tt) "carol" "bob" "alice"
                    " bicycle " (Some Scenario.carolWallet) Scenario.delay Scenario.initial)).
    + discriminate.
    + discriminate.
    + discriminate.
    + discriminate.
    + repeat (apply NoDup_cons; split); try apply NoDup_nil_2;
        rewrite ?elem_of_cons, elem_of_nil; intuition discriminate.
    + right. right. reflexivity.
Defined.




(** ** Arrays and maps with one entry per key *)

Lemma filter_nil_iff_helper {A} (f : A -> bool) (xs : list A) :
  (forall z, z ∈ xs -> f z = false) -> List.filter f xs = [].
Proof.
  induction xs as [|x xs IH]; intros H; [reflexivity|]. cbn [List.filter].
  rewrite (H x) by left. apply IH. intros z Hz. apply H. right. exact Hz.
Qed.

Section Upsert.
Context {A : Type} (key : A -> string).

Lemma upsert_keys (y : A) (xs : list A) :
  key <$> upsert key y xs
  = if decide (key y ∈ key <$> xs) then key <$> xs else (key <$> xs) ++ [key y].
Proof.
  induction xs as [|x xs IH]; cbn [upsert].
  - rewrite decide_False; [reflexivity|]. intros Hin. apply elem_of_nil in Hin. exact Hin.
  - destruct (String.eqb_spec (key x) (key y)) as [Heq|Hne].
    + rewrite !fmap_cons, Heq. rewrite decide_True by left. reflexivity.
    + rewrite !fmap_cons, IH.
      destruct (decide (key y ∈ key <$> xs)) as [Hin|Hnin].
      * rewrite decide_True by (right; exact Hin). reflexivity.
      * rewrite decide_False; [reflexivity|].
        intros Hin'. apply elem_of_cons in Hin' as [Heq|Hin']; [congruence|contradiction].
Qed.

Lemma upsert_NoDup (y : A) (xs : list A) :
  NoDup (key <$> xs) -> NoDup (key <$> upsert key y xs).
Proof.
  intros Hnd. rewrite upsert_keys. destruct (decide _) as [_|Hnin]; [exact Hnd|].
  apply NoDup_app. split; [exact Hnd|]. split; [|apply NoDup_singleton].
  intros k Hk Hk'. apply list_elem_of_singleton in Hk'. subst. contradiction.
Qed.

Lemma upsert_keeps_keys (y : A) (xs : list A) (k : string) :
  k ∈ key <$> xs -> k ∈ key <$> upsert key y xs.
Proof.
  rewrite upsert_keys. destruct (decide _); [auto|]. intros Hk. apply elem_of_app. auto.
Qed.

Lemma upsert_has_key (y : A) (xs : list A) : key y ∈ key <$> upsert key y xs.
Proof.
  rewrite upsert_keys. destruct (decide _) as [Hin|_]; [exact Hin|].
  apply elem_of_app. right. apply list_elem_of_singleton. reflexivity.
Qed.

Lemma upsert_firstWith (y : A) (xs : list A) (k : string) :
  firstWith key k (upsert key y xs)
  = if decide (k = key y) then Some y else firstWith key k xs.
Proof.
  unfold firstWith. induction xs as [|x xs IH]; cbn [upsert List.find].
  - destruct (String.eqb_spec (key y) k) as [Heq|Hne];
      destruct (decide (k = key y)); congruence.
  - destruct (String.eqb_spec (key x) (key y)) as [Heq|Hne]; cbn [List.find].
    + destruct (String.eqb_spec (key y) k) as [Hy|Hy];
        destruct (decide (k = key y)) as [Hk|Hk]; try congruence.
      destruct (String.eqb_spec (key x) k); congruence.
    + destruct (String.eqb_spec (key x) k) as [Hx|Hx]; [|exact IH].
      destruct (decide (k = key y)); congruence.
Qed.

Lemma upsert_length (y : A) (xs : list A) :
  length (upsert key y xs)
  = if decide (key y ∈ key <$> xs) then length xs else S (length xs).
Proof.
  rewrite <- (length_fmap key), upsert_keys.
  destruct (decide _); rewrite ?length_app, !length_fmap; cbn; lia.
Qed.

(** With one entry per key, the last entry with a key is the first. *)
Lemma last_filter_firstWith (k : string) (xs : list A) :
  NoDup (key <$> xs) ->
  last (List.filter (fun x => String.eqb (key x) k) xs) = firstWith key k xs.
Proof.
  unfold firstWith. induction xs as [|x xs IH]; intros Hnd; [reflexivity|].
  cbn [fmap list_fmap] in Hnd. apply NoDup_cons in Hnd as [Hnin Hnd].
  cbn [List.filter List.find].
  destruct (String.eqb_spec (key x) k) as [Hx|Hx]; [|apply IH, Hnd].
  assert (List.filter (fun x0 => String.eqb (key x0) k) xs = []) as ->; [|reflexivity].
  apply filter_nil_iff_helper. intros z Hz.
  destruct (String.eqb_spec (key z) k) as [Hzk|]; [|reflexivity].
  exfalso. apply Hnin. rewrite Hx, <- Hzk. apply list_elem_of_fmap. exists z. auto.
Qed.

End Upsert.

(** ** The arrays of the transport *)

Lemma findIndex_upsert {A} (key : A -> string) (y : A) (xs : list A) :
  match LocalStorageCommunication.findIndex (fun x => String.eqb (key x) (key y)) xs with
  | Some existingIndex => <[ existingIndex := y ]> xs
  | None => xs ++ [y]
  end = upsert key y xs.
Proof.
  induction xs as [|x xs IH]; [reflexivity|].
  cbn [LocalStorageCommunication.findIndex upsert].
  destruct (String.eqb (key x) (key y)); [reflexivity|].
  destruct (LocalStorageCommunication.findIndex _ xs) as [i|]; cbn; rewrite <- IH; reflexivity.
Qed.


Lemma publishContract_upsert (cs : list (string * EscrowContract))
    (contract : string * EscrowContract) :
  LocalStorageCommunication.publishContract cs contract = upsert fst contract cs.
Proof. apply (findIndex_upsert fst). Qed.

Lemma lastWith_cons (a : string) (x : string * EscrowContract)
    (cs : list (string * EscrowContract)) :
  lastWith a (x :: cs) =
  match lastWith a cs with
  | Some c => Some c
  | None => if String.eqb x.1 a then Some x.2 else None
  end.
Proof.
  unfold lastWith. cbn [List.filter].
  destruct (String.eqb x.1 a); [|destruct (last _); reflexivity].
  rewrite last_cons. destruct (last _); reflexivity.
Qed.

Lemma fold_insert_lookup (cs : list (string * EscrowContract))
    (m : gmap string EscrowContract) (a : string) :
  fold_left (fun m contract => <[ contract.1 := contract.2 ]> m) cs m !! a
  = match lastWith a cs with Some c => Some c | None => m !! a end.
Proof.
  revert m. induction cs as [|x cs IH]; intros m; [reflexivity|].
  cbn [fold_left]. rewrite IH, lastWith_cons.
  destruct (lastWith a cs); [reflexivity|].
  destruct (String.eqb_spec x.1 a) as [<-|Hne].
  - apply lookup_insert_eq.
  - apply lookup_insert_ne, Hne.
Qed.

Lemma sync_lookup (cs : list (string * EscrowContract)) (st : State) (a : string) :
  contracts (exec (updateContractsFromProvider cs) st) !! a = lastWith a cs.
Proof.
  unfold exec, updateContractsFromProvider, modify; cbn.
  rewrite fold_insert_lookup, lookup_empty. destruct (lastWith a cs); reflexivity.
Qed.

(** X23. A synchronisation replaces the whole map. After
    [updateContractsFromProvider], the map holds under each address the last
    contract of the array that has this address, and nothing under an
    address that the array does not mention: a contract that only the tab
    knew, and the pending transaction the tab held for a contract, are
    gone. The timers, the clock and the calls made are untouched. *)
Theorem sync_replaces_the_map (cs : list (string * EscrowContract)) (st : State) :
  let s' := exec (updateContractsFromProvider cs) st in
  (forall a, contracts s' !! a = lastWith a cs) /\
  (forall a, a ∉ cs.*1 -> contracts s' !! a = None) /\
  timers s' = timers st /\ now s' = now st /\ log s' = log st.
Proof.
  intros s'. subst s'.
  split; [apply sync_lookup|]. split; [|auto].
  intros a Hnin. rewrite sync_lookup. unfold lastWith.
  rewrite filter_nil_iff_helper; [reflexivity|].
  intros z Hz. destruct (String.eqb_spec z.1 a) as [Heq|]; [|reflexivity].
  exfalso. apply Hnin. rewrite <- Heq. apply list_elem_of_fmap. exists z. auto.
Qed.

(** X24. What a tab publishes is what a synchronisation reads back. When
    the array of the transport has one entry per address,
    [publishContract] keeps it so, replaces the entry of the contract's
    address or adds one at the end (the array grows by one entry at most),
    and leaves the entries of the other addresses alone; a tab that then
    runs [updateContractsFromProvider] on the array holds the published
    contract under its address. *)
Theorem publish_then_sync (cs : list (string * EscrowContract)) (a : string)
    (c : EscrowContract) (st : State) :
  NoDup cs.*1 ->
  let cs' := LocalStorageCommunication.publishContract cs (a, c) in
  NoDup cs'.*1 /\
  lastWith a cs' = Some c /\
  (forall a', a' <> a -> lastWith a' cs' = lastWith a' cs) /\
  length cs' = (if decide (a ∈ cs.*1) then length cs else S (length cs)) /\
  contracts (exec (updateContractsFromProvider cs') st) !! a = Some c.
Proof.
  intros Hnd cs'. subst cs'. rewrite publishContract_upsert.
  pose proof (upsert_NoDup fst (a, c) cs Hnd) as Hnd'.
  assert (forall k xs, NoDup xs.*1 -> lastWith k xs = snd <$> firstWith fst k xs) as Hlast.
  { intros k xs Hxs. unfold lastWith. rewrite (last_filter_firstWith fst k xs Hxs).
    reflexivity. }
  assert (lastWith a (upsert fst (a, c) cs) = Some c) as Ha.
  { rewrite (Hlast _ _ Hnd'), upsert_firstWith. cbn [fst].
    rewrite decide_True by reflexivity. reflexivity. }
  split; [exact Hnd'|]. split; [exact Ha|]. split; [|split].
  - intros a' Hne. rewrite (Hlast _ _ Hnd'), (Hlast _ _ Hnd), upsert_firstWith. cbn [fst].
    rewrite decide_False by exact Hne. reflexivity.
  - apply (upsert_length fst (a, c) cs).
  - rewrite <- Ha. apply (sync_lookup _ st a).
Qed.

Lemma publish_then_sync_witness :
  let other := set_pendingTransaction (Some Scenario.releasePending) Scenario.contract in
  let cs := [ ("tark1aa", Scenario.contract); (Scenario.arkAddress, Scenario.contract) ] in
  let cs' := LocalStorageCommunication.publishContract cs (Scenario.arkAddress, other) in
  cs' = [ ("tark1aa", Scenario.contract); (Scenario.arkAddress, other) ] /\
  NoDup cs'.*1 /\
  lastWith Scenario.arkAddress cs' = Some other /\
  (forall a', a' <> Scenario.arkAddress -> lastWith a' cs' = lastWith a' cs) /\
  length cs' = (if decide (Scenario.arkAddress ∈ cs.*1) then length cs else S (length cs)) /\
  contracts (exec (updateContractsFromProvider cs') Scenario.initial) !! Scenario.arkAddress
    = Some other.
Proof.
  intros other cs cs'. split; [evaluate|].
  apply (publish_then_sync cs Scenario.arkAddress other Scenario.initial).
  repeat (apply NoDup_cons; split); try apply NoDup_nil_2;
    rewrite ?elem_of_cons, elem_of_nil; vm_compute; intuition discriminate.
Defined.

(** ** [UserManager] *)



Lemma Map_set_upsert (user : User) (us : list User) :
  UserManager.Map_set user us = upsert pubkey user us.
Proof.
  induction us as [|u us IH]; [reflexivity|]. cbn [UserManager.Map_set upsert].
  rewrite IH. reflexivity.
Qed.

Lemma fold_upsert_firstWith {A} (key : A -> string) (k : string) (ys xs : list A) :
  firstWith key k (fold_left (fun acc y => upsert key y acc) ys xs)
  = match last (List.filter (fun y => String.eqb (key y) k) ys) with
    | Some y => Some y
    | None => firstWith key k xs
    end.
Proof.
  revert xs. induction ys as [|y ys IH]; intros xs; [reflexivity|].
  cbn [fold_left List.filter]. rewrite IH, upsert_firstWith.
  destruct (String.eqb_spec (key y) k) as [Hy|Hy].
  - rewrite last_cons. destruct (last _); [reflexivity|].
    rewrite decide_True by congruence. reflexivity.
  - destruct (last _); [reflexivity|]. rewrite decide_False by congruence. reflexivity.
Qed.

Lemma fold_upsert_keys {A} (key : A -> string) (k : string) (ys xs : list A) :
  k ∈ key <$> fold_left (fun acc y => upsert key y acc) ys xs
  <-> k ∈ key <$> ys \/ k ∈ key <$> xs.
Proof.
  revert xs. induction ys as [|y ys IH]; intros xs; cbn [fold_left].
  - rewrite fmap_nil, elem_of_nil. tauto.
  - rewrite IH, fmap_cons, elem_of_cons, upsert_keys.
    destruct (decide (key y ∈ key <$> xs)) as [Hin|Hnin].
    + split; [tauto|]. intros [[->|H]|H]; auto.
    + rewrite elem_of_app, list_elem_of_singleton. tauto.
Qed.

Lemma fold_upsert_NoDup {A} (key : A -> string) (ys xs : list A) :
  NoDup (key <$> xs) -> NoDup (key <$> fold_left (fun acc y => upsert key y acc) ys xs).
Proof.
  revert xs. induction ys as [|y ys IH]; intros xs Hnd; [exact Hnd|].
  cbn [fold_left]. apply IH, upsert_NoDup, Hnd.
Qed.

Lemma firstWith_Some {A} (key : A -> string) (k : string) (xs : list A) (x : A) :
  firstWith key k xs = Some x -> x ∈ xs /\ key x = k.
Proof.
  unfold firstWith. intros H. apply find_some in H as [Hin Heq].
  split; [apply list_elem_of_In, Hin|apply String.eqb_eq, Heq].
Qed.


(** *** [assignFriendlyName] *)

Lemma firstUnused_spec (names : list string) (used : gset string) :
  match UserManager.firstUnused names used with
  | Some n => n ∈ names /\ n ∉ used
  | None => forall n, n ∈ names -> n ∈ used
  end.
Proof.
  induction names as [|n names IH]; cbn [UserManager.firstUnused].
  - intros n Hn. apply elem_of_nil in Hn. destruct Hn.
  - destruct (bool_decide_reflect (n ∈ used)) as [Hin|Hnin].
    + destruct (UserManager.firstUnused names used) as [m|].
      * destruct IH as [Hm Hmu]. split; [right; exact Hm|exact Hmu].
      * intros m Hm. apply elem_of_cons in Hm as [->|Hm]; auto.
    + split; [left|exact Hnin].
Qed.

Lemma numbered_eq (fuel counter : nat) (used : gset string) :
  UserManager.numbered fuel counter used =
  if bool_decide (candidate counter ∈ used) then
    match fuel with
    | O => None
    | S fuel' => UserManager.numbered fuel' (S counter) used
    end
  else Some (candidate counter).
Proof. destruct fuel; reflexivity. Qed.

Lemma candidate_inj (i j : nat) : candidate i = candidate j -> i = j.
Proof.
  unfold candidate. cbn. intros H. injection H as H. exact (inj pretty _ _ H).
Qed.

Lemma numbered_ext (fuel counter : nat) (used used' : gset string) :
  (forall i, (counter <= i)%nat -> candidate i ∈ used <-> candidate i ∈ used') ->
  UserManager.numbered fuel counter used = UserManager.numbered fuel counter used'.
Proof.
  revert counter. induction fuel as [|fuel IH]; intros counter Hext;
    rewrite (numbered_eq _ counter used), (numbered_eq _ counter used');
    rewrite (bool_decide_ext _ _ (Hext counter (Nat.le_refl counter)));
    destruct (bool_decide _); try reflexivity.
  apply IH. intros i Hi. apply Hext. lia.
Qed.

Lemma numbered_total (fuel counter : nat) (used : gset string) :
  (size used <= fuel)%nat ->
  exists i, (counter <= i)%nat /\
    UserManager.numbered fuel counter used = Some (candidate i) /\ candidate i ∉ used.
Proof.
  revert counter used. induction fuel as [|fuel IH]; intros counter used Hsize;
    rewrite numbered_eq;
    destruct (bool_decide_reflect (candidate counter ∈ used)) as [Hin|Hnin];
    try (exists counter; split; [lia|split; [reflexivity|exact Hnin]]).
  - exfalso. assert (size used = 0%nat) as H0 by lia.
    apply size_empty_inv in H0. destruct (H0 (candidate counter)) as [Hempty _].
    apply Hempty, elem_of_empty in Hin. exact Hin.
  - set (used' := used ∖ {[candidate counter]}).
    assert (size used' <= fuel)%nat as Hsize'.
    { unfold used'. rewrite size_difference by (apply singleton_subseteq_l, Hin).
      rewrite size_singleton. lia. }
    assert (forall i, (S counter <= i)%nat -> candidate i ∈ used <-> candidate i ∈ used')
      as Hext.
    { intros i Hi. unfold used'. rewrite elem_of_difference, elem_of_singleton.
      split; [|tauto]. intros H. split; [exact H|].
      intros Heq. apply candidate_inj in Heq. lia. }
    destruct (IH (S counter) used' Hsize') as (i & Hi & Hnum & Hfresh).
    exists i. split; [lia|]. split.
    + rewrite (numbered_ext fuel (S counter) used used' Hext). exact Hnum.
    + intros H. apply Hfresh, Hext; assumption.
Qed.

Lemma numbered_mono (fuel fuel' counter : nat) (used : gset string) (n : string) :
  UserManager.numbered fuel counter used = Some n -> (fuel <= fuel')%nat ->
  UserManager.numbered fuel' counter used = Some n.
Proof.
  revert fuel' counter. induction fuel as [|fuel IH]; intros fuel' counter;
    rewrite (numbered_eq _ counter used), (numbered_eq fuel' counter used);
    destruct (bool_decide _); try discriminate; auto.
  intros H Hle. destruct fuel' as [|fuel']; [lia|]. apply IH; [exact H|lia].
Qed.

Lemma assignFriendlyName_found (fuel : nat) (s : UserManager.State) :
  (size (UserManager.usedNames s) <= fuel)%nat ->
  exists name,
    match UserManager.firstUnused UserManager.friendlyNames (UserManager.usedNames s) with
    | Some n => Some n
    | None => UserManager.numbered fuel 1 (UserManager.usedNames s)
    end = Some name /\
    (name ∉ UserManager.usedNames s) /\
    (name ∈ UserManager.friendlyNames \/ exists i, (1 <= i)%nat /\ name = candidate i).
Proof.
  intros Hsize.
  pose proof (firstUnused_spec UserManager.friendlyNames (UserManager.usedNames s)) as Hfirst.
  destruct (UserManager.firstUnused _ _) as [n|].
  - exists n. destruct Hfirst. auto.
  - destruct (numbered_total fuel 1 _ Hsize) as (i & Hi & Hnum & Hfresh).
    exists (candidate i). split; [exact Hnum|]. split; [exact Hfresh|]. right. eauto.
Qed.

(** X25. [assignFriendlyName] always ends and returns a name that is not
    in use. For a number of increments at least the number of used names,
    the search returns a name; the name was not in [usedNames] and is
    added to it, nothing else changes; it is one of the 23 friendly names or
    "Alice" followed by a space and a counter of 1 or more; and a larger
    bound on the increments gives the same result. *)
Theorem friendly_name_is_fresh (fuel : nat) (s : UserManager.State) :
  (size (UserManager.usedNames s) <= fuel)%nat ->
  exists name,
    UserManager.assignFriendlyName fuel s
      = Some (name, UserManager.set_usedNames (fun used => {[ name ]} ∪ used) s) /\
    (name ∉ UserManager.usedNames s) /\
    (name ∈ UserManager.friendlyNames \/ exists i, (1 <= i)%nat /\ name = candidate i) /\
    (forall fuel', (fuel <= fuel')%nat ->
       UserManager.assignFriendlyName fuel' s = UserManager.assignFriendlyName fuel s).
Proof.
  intros Hsize.
  destruct (assignFriendlyName_found fuel s Hsize) as (name & Hfound & Hfresh & Hshape).
  exists name. unfold UserManager.assignFriendlyName.
  split; [rewrite Hfound; reflexivity|]. split; [exact Hfresh|]. split; [exact Hshape|].
  intros fuel' Hle. rewrite Hfound.
  destruct (UserManager.firstUnused _ _) as [n|]; [rewrite Hfound; reflexivity|].
  rewrite (numbered_mono fuel fuel' 1 _ name Hfound Hle). reflexivity.
Qed.

Lemma friendly_name_is_fresh_witness :
  fst <$> UserManager.assignFriendlyName 24 Directory.crowded = Some "Alice 2" /\
  exists name,
    UserManager.assignFriendlyName 24 Directory.crowded
      = Some (name,
              UserManager.set_usedNames (fun used => {[ name ]} ∪ used) Directory.crowded) /\
    (name ∉ UserManager.usedNames Directory.crowded) /\
    (name ∈ UserManager.friendlyNames \/ exists i, (1 <= i)%nat /\ name = candidate i) /\
    (forall fuel', (24 <= fuel')%nat ->
       UserManager.assignFriendlyName fuel' Directory.crowded
       = UserManager.assignFriendlyName 24 Directory.crowded).
Proof.
  split; [evaluate|].
  apply (friendly_name_is_fresh 24 Directory.crowded).
  apply Nat.leb_le. evaluate.
Defined.

(** *** Registration *)







(** *** Unregistration and synchronisation *)


Lemma updateUsersFromProvider_users (us : list User) (s : UserManager.State) :
  UserManager.users (UserManager.updateUsersFromProvider us s)
  = fold_left (fun acc y => upsert pubkey y acc) us [].
Proof.
  unfold UserManager.updateUsersFromProvider; cbn [UserManager.users UserManager.buildUsedNamesSet].
  generalize (@nil User). induction us as [|u us IH]; intros acc; [reflexivity|].
  cbn [fold_left]. rewrite Map_set_upsert. apply IH.
Qed.



(** X28. A synchronisation of the users replaces the map and the used
    names. After [updateUsersFromProvider] the tab holds one user per key
    of the array; [getUserById] returns, for a key, the last user of the
    array with that key, and nothing for a key the array does not mention;
    and [usedNames] is rebuilt as the set of the names of these users, so a
    name that only a dropped user had is free again. What the transport
    holds and the notifications shown are untouched. *)
Theorem sync_replaces_the_users (us : list User) (s : UserManager.State) :
  let s' := UserManager.updateUsersFromProvider us s in
  NoDup (pubkey <$> UserManager.users s') /\
  (forall pk, UserManager.getUserById s' pk
              = last (List.filter (fun u => String.eqb (pubkey u) pk) us)) /\
  (forall pk, pk ∈ pubkey <$> UserManager.users s' <-> pk ∈ pubkey <$> us) /\
  (forall n, n ∈ UserManager.usedNames s' <-> n ∈ name <$> UserManager.users s') /\
  UserManager.stored s' = UserManager.stored s /\
  UserManager.shown s' = UserManager.shown s.
Proof.
  intros s'. subst s'. split_and!.
  - rewrite updateUsersFromProvider_users. apply fold_upsert_NoDup. constructor.
  - intros pk. unfold UserManager.getUserById, UserManager.Map_get.
    rewrite updateUsersFromProvider_users.
    change (List.find (fun u => String.eqb (pubkey u) pk) ?l) with (firstWith pubkey pk l).
    rewrite (fold_upsert_firstWith pubkey pk us []). destruct (last _); reflexivity.
  - intros pk. rewrite updateUsersFromProvider_users, fold_upsert_keys.
    rewrite fmap_nil, elem_of_nil. tauto.
  - intros n. cbn [UserManager.updateUsersFromProvider UserManager.buildUsedNamesSet
                   UserManager.usedNames UserManager.users].
    apply elem_of_list_to_set.
  - reflexivity.
  - reflexivity.
Qed.
